(** * vram-helper: the alert loop of [vram_helper/__main__.py]

    A shallow embedding of the script: its module-level settings, the three
    [nvidia-smi] queries, the [notify-send] call and the polling loop of
    [start_monitoring], followed by the properties of the alert threshold.

    Python integers are [Z].  Python floats are IEEE binary64 values,
    represented by [spec_float] with the operations of [SpecFloat] at
    precision 53 and maximal exponent 1024; they occur in the percentage of
    the warning text and, after auto-detection, in [MAX_VRAM_USAGE]. *)

From Stdlib Require Import ZArith List String Ascii Bool Lia.
From Stdlib Require Import SpecFloat DecimalString DecimalPos.
Import ListNotations.

Local Open Scope string_scope.
Local Open Scope list_scope.
Local Open Scope Z_scope.

(** ** Exceptions and the way the process ends *)

Inductive exn : Type :=
| ZeroDivisionError
| OverflowError
| ValueError
| AttributeError
| FileNotFoundError.

(** [sys.exit()] is called without a status everywhere in the script, which
    is exit status 0; an exception that reaches the top level prints a
    traceback and gives exit status 1. *)
Inductive outcome : Type :=
| Exited (status : Z)
| Uncaught (e : exn).

Definition sys_exit : outcome := Exited 0.

Definition exit_code (o : outcome) : Z :=
  match o with
  | Exited status => status
  | Uncaught _ => 1
  end.

(** ** Python numbers *)

Module PyNum.

Definition prec : Z := 53.
Definition emax : Z := 1024.

Inductive num : Type :=
| PyInt (z : Z)
| PyFloat (f : spec_float).

(** The float nearest to an integer (ties to even); exact below [2^53]. *)
Definition float_of_Z (z : Z) : spec_float :=
  binary_normalize prec emax z 0 false.

(** [float(z)] as the interpreter does it for an [int] operand of a float
    operation: [OverflowError] when [z] is too large. *)
Definition float_of_int (z : Z) : exn + spec_float :=
  match float_of_Z z with
  | S754_infinity _ => inl OverflowError
  | f => inr f
  end.

(** The literal [.9]: the double nearest to 9/10. *)
Definition point_nine : spec_float :=
  SFdiv prec emax (float_of_Z 9) (float_of_Z 10).

(** [n - k] and [n + k] for an integer literal [k] (20 and [THRESHOLD] in the
    script): integer arithmetic on an [int], float arithmetic after
    converting [k] on a [float]. *)
Definition sub_int (n : num) (k : Z) : num :=
  match n with
  | PyInt z => PyInt (z - k)
  | PyFloat f => PyFloat (SFsub prec emax f (float_of_Z k))
  end.

Definition add_int (n : num) (k : Z) : num :=
  match n with
  | PyInt z => PyInt (z + k)
  | PyFloat f => PyFloat (SFadd prec emax f (float_of_Z k))
  end.

(** [z * f] for an [int] [z] and a [float] [f]. *)
Definition int_mul_float (z : Z) (f : spec_float) : exn + spec_float :=
  match float_of_int z with
  | inl e => inl e
  | inr g => inr (SFmul prec emax g f)
  end.

(** Comparison of an [int] with a [float] is exact in Python: the integer is
    compared with the real value of the float, [None] for a NaN. *)
Definition compare_int_float (z : Z) (f : spec_float) : option comparison :=
  match f with
  | S754_nan => None
  | S754_infinity s => Some (if s then Gt else Lt)
  | S754_zero _ => Some (z ?= 0)
  | S754_finite s m e =>
      let v := if s then Zneg m else Zpos m in
      Some (if 0 <=? e then z ?= v * 2 ^ e else z * 2 ^ (- e) ?= v)
  end.

Definition compare_num (a b : num) : option comparison :=
  match a, b with
  | PyInt x, PyInt y => Some (x ?= y)
  | PyInt x, PyFloat g => compare_int_float x g
  | PyFloat f, PyInt y => option_map CompOpp (compare_int_float y f)
  | PyFloat f, PyFloat g => SFcompare f g
  end.

(** [a < b], [a > b] and [a >= b]; every comparison with a NaN is false. *)
Definition ltb (a b : num) : bool :=
  match compare_num a b with Some Lt => true | _ => false end.

Definition gtb (a b : num) : bool :=
  match compare_num a b with Some Gt => true | _ => false end.

Definition geb (a b : num) : bool :=
  match compare_num a b with Some (Gt | Eq) => true | _ => false end.

(** [a / b] on two [int]s: the correctly rounded quotient. *)
Definition true_div (a b : Z) : exn + spec_float :=
  match a, b with
  | _, Z0 => inl ZeroDivisionError
  | Z0, _ => inr (S754_zero (b <? 0))
  | _, _ =>
      match SFdiv prec emax
              (S754_finite (a <? 0) (Z.to_pos (Z.abs a)) 0)
              (S754_finite (b <? 0) (Z.to_pos (Z.abs b)) 0) with
      | S754_infinity _ => inl OverflowError
      | q => inr q
      end
  end.

(** [int(f)]: truncation toward zero. *)
Definition int_of_float (f : spec_float) : exn + Z :=
  match f with
  | S754_nan => inl ValueError
  | S754_infinity _ => inl OverflowError
  | S754_zero _ => inr 0
  | S754_finite s m e =>
      let a := if 0 <=? e then Zpos m * 2 ^ e else Zpos m / 2 ^ (- e) in
      inr (if s then - a else a)
  end.

(** A positive mantissa [m] with exponent [e] is worth at least [2^K] when
    [2^(K - e) <= m]: a power with a negative exponent is 0 in [Z], and then
    [0 < m] is enough. *)
Definition at_least (K m e : Z) : Prop := 0 < m /\ 2 ^ (K - e) <= m.

(** A mantissa [m] with exponent [e <= K] is worth at most [2^K] when
    [m <= 2^(K - e)]. *)
Definition at_most (K m e : Z) : Prop := 0 <= m /\ e <= K /\ m <= 2 ^ (K - e).

End PyNum.

Import PyNum.

(** [(int)((vram_usage / VRAM_TOTAL) * 100)]: the quotient of two [int]s is
    a float, the product with 100 is a float product, [int] truncates. *)
Definition percent (vram_usage vram_total : Z) : exn + Z :=
  match true_div vram_usage vram_total with
  | inl e => inl e
  | inr q => int_of_float (SFmul prec emax q (float_of_Z 100))
  end.

(** ** Text

    The answers of the external tools are byte strings.  The script decodes
    them as UTF-8 and works on Unicode text; the functions below work on
    the bytes, with the ASCII classes of digits and white space and with no
    bound on the number of digits.  They agree with the script on plain
    answers ([plain_answer] below: ASCII only, at most 4300 characters),
    and what is stated about the reading of an answer is stated for plain
    answers. *)

(** [f"{z}"] for an [int]. *)
Definition str_of_int (z : Z) : string := NilZero.string_of_int (Z.to_int z).

Definition is_digit (c : ascii) : bool :=
  let n := nat_of_ascii c in (48 <=? n)%nat && (n <=? 57)%nat.

Definition digit_value (c : ascii) : Z := Z.of_nat (nat_of_ascii c) - 48.

(** [re.search(r'\d+', text).group()]: the first maximal run of digits. *)
Fixpoint take_digits (text : string) : string :=
  match text with
  | String c rest => if is_digit c then String c (take_digits rest) else EmptyString
  | EmptyString => EmptyString
  end.

Fixpoint search_digits (text : string) : option string :=
  match text with
  | EmptyString => None
  | String c rest =>
      if is_digit c then Some (take_digits text) else search_digits rest
  end.

Fixpoint digits_to_int (acc : Z) (digits : string) : Z :=
  match digits with
  | EmptyString => acc
  | String c rest => digits_to_int (10 * acc + digit_value c) rest
  end.

(** [int(re.search(r'\d+', text).group())]; [None] stands for the
    [AttributeError] of calling [.group()] on a failed search. *)
Definition first_number (text : string) : option Z :=
  option_map (digits_to_int 0) (search_digits text).

(** [str.strip()] *)
Definition is_space (c : ascii) : bool :=
  let n := nat_of_ascii c in
  ((9 <=? n)%nat && (n <=? 13)%nat) || ((28 <=? n)%nat && (n <=? 32)%nat).

Fixpoint lstrip (s : string) : string :=
  match s with
  | String c rest => if is_space c then lstrip rest else s
  | EmptyString => EmptyString
  end.

Fixpoint rstrip (s : string) : string :=
  match s with
  | String c rest =>
      match rstrip rest with
      | EmptyString => if is_space c then EmptyString else String c EmptyString
      | kept => String c kept
      end
  | EmptyString => EmptyString
  end.

Definition strip (s : string) : string := rstrip (lstrip s).

(** [int(s)] on text: surrounding white space, an optional sign, then digits
    that single underscores may separate; [None] stands for [ValueError]. *)
Fixpoint int_body (acc : Z) (after_digit : bool) (s : string) : option Z :=
  match s with
  | EmptyString => if after_digit then Some acc else None
  | String c rest =>
      if is_digit c then int_body (10 * acc + digit_value c) true rest
      else if Ascii.eqb c "_"%char && after_digit then int_body acc false rest
      else None
  end.

Definition int_of_str (s : string) : option Z :=
  match strip s with
  | String "+"%char rest => int_body 0 false rest
  | String "-"%char rest => option_map Z.opp (int_body 0 false rest)
  | body => int_body 0 false body
  end.

(** ** Settings

    The module-level names of the script.  [VRAM_TOTAL] and [MAX_VRAM_USAGE]
    are the two that [update_variables] reassigns, so they travel in a
    record; the others are never assigned again. *)

Definition THRESHOLD : Z := 100.
Definition MAX_TEMP : Z := 80.
Definition WAITTIME : Z := 2.
Definition VERBOSITY_LEVEL : Z := 0.

Record config : Type := {
  MAX_VRAM_USAGE : num;
  VRAM_TOTAL : Z
}.

(** The values written in the script, in force under [--noauto]. *)
Definition default_config : config :=
  {| MAX_VRAM_USAGE := PyInt 3800; VRAM_TOTAL := 2048 |}.

(** An integer-valued configuration (the script edited by hand, as its
    docstring asks for [VRAM_TOTAL]). *)
Definition int_config (ceiling capacity : Z) : config :=
  {| MAX_VRAM_USAGE := PyInt ceiling; VRAM_TOTAL := capacity |}.

(** ** What the process does to the outside *)

Inductive message : Type :=
| MAttempt
| MDetectedGPU (name : string)
| MDetectedVRAM (total : Z)
| MMaxUsageSet (value : num)
| MUpdateEvery (seconds : Z)
| MMaxTemp (degrees : Z)
| MGatherFailed (detail : string)
| MGatherNoDriver
| MUsageFailed (detail : string)
| MUsageNoTool
| MTempFailed (detail : string)
| MTempNoTool
| MNotifyError (detail : string)
| MUsageLine (vram_usage gpu_temp : Z)
| MNoAuto.

Inductive event : Type :=
| LogMess (layer : nat) (m : message)
| LogWarn (layer : nat) (m : message)
| LogErr (layer : nat) (m : message)
| Print (text : string)
| RunNotifySend (text : string)
| Sleep (seconds : Z).

(** The answer of [subprocess.check_output] on an [nvidia-smi] query, and of
    [subprocess.run] on [notify-send] with [check=True]: the two exceptions
    the script names, or success.  Other exceptions of [subprocess] (a
    [PermissionError], say) are not modelled. *)
Inductive query_result : Type :=
| QOutput (text : string)
| QCalledProcessError (detail : string)
| QFileNotFound.

Inductive notify_result : Type :=
| NDelivered
| NCalledProcessError (detail : string)
| NFileNotFound.

(** What the outside answers during one iteration of the loop, and during a
    whole run. *)
Record tick_input : Type := {
  usage_q : query_result;
  temp_q : query_result;
  notify_r : notify_result
}.

Record world : Type := {
  name_q : query_result;
  total_q : query_result;
  ticks : list tick_input
}.

(** ** Computations: a trace of events, then a value or the end of the
    process *)

Inductive result (A : Type) : Type :=
| Ok (a : A)
| Stop (o : outcome).

Arguments Ok {A} a.
Arguments Stop {A} o.

Definition proc (A : Type) : Type := (list event * result A)%type.

Definition ret {A} (a : A) : proc A := ([], Ok a).

Definition bind {A B} (m : proc A) (k : A -> proc B) : proc B :=
  match m with
  | (tr, Ok a) => let (tr', r) := k a in (tr ++ tr', r)
  | (tr, Stop o) => (tr, Stop o)
  end.

Definition emit (e : event) : proc unit := ([e], Ok tt).

Definition raise {A} (e : exn) : proc A := ([], Stop (Uncaught e)).

Definition exit {A} : proc A := ([], Stop sys_exit).

Definition lift {A} (r : exn + A) : proc A :=
  match r with
  | inl e => raise e
  | inr a => ret a
  end.

Notation "x <- m ;; k" := (bind m (fun x => k))
  (at level 61, m at next level, right associativity).
Notation "m ;; k" := (bind m (fun _ => k))
  (at level 61, right associativity).

Definition trace {A} (p : proc A) : list event := fst p.
Definition outcome_of {A} (p : proc A) : result A := snd p.

(** ** Logging *)

Definition log_mess (m : message) (layer : nat) : proc unit :=
  if 0 <? VERBOSITY_LEVEL then ret tt else emit (LogMess layer m).

Definition log_warn (m : message) (layer : nat) : proc unit :=
  if 1 <? VERBOSITY_LEVEL then ret tt else emit (LogWarn layer m).

Definition log_err (m : message) (layer : nat) : proc unit :=
  emit (LogErr layer m).

(** ** The script's functions *)

(** [update_variables]: the two start-up queries.  The handler of
    [CalledProcessError] logs and returns, leaving the settings as they
    were; the handler of [FileNotFoundError] logs and calls [sys.exit()].
    The [ValueError] of [int] and the [OverflowError] of the product with
    [.9] are not handled. *)
Definition update_variables (cfg : config) (w : world) : proc config :=
  log_mess MAttempt 0 ;;
  match name_q w with
  | QOutput name =>
      log_mess (MDetectedGPU (strip name)) 1 ;;
      match total_q w with
      | QOutput text =>
          match int_of_str (strip text) with
          | None => raise ValueError
          | Some total =>
              log_mess (MDetectedVRAM total) 1 ;;
              usage <- lift (int_mul_float total point_nine) ;;
              log_mess (MMaxUsageSet (PyFloat usage)) 1 ;;
              log_mess (MUpdateEvery WAITTIME) 1 ;;
              log_mess (MMaxTemp MAX_TEMP) 1 ;;
              ret {| MAX_VRAM_USAGE := PyFloat usage; VRAM_TOTAL := total |}
          end
      | QCalledProcessError detail =>
          log_err (MGatherFailed detail) 1 ;; ret cfg
      | QFileNotFound =>
          log_err MGatherNoDriver 1 ;; exit
      end
  | QCalledProcessError detail =>
      log_err (MGatherFailed detail) 1 ;; ret cfg
  | QFileNotFound =>
      log_err MGatherNoDriver 1 ;; exit
  end.

Definition get_vram_usage (q : query_result) : proc Z :=
  match q with
  | QOutput text =>
      match first_number text with
      | Some n => ret n
      | None => raise AttributeError
      end
  | QCalledProcessError detail => log_err (MUsageFailed detail) 0 ;; exit
  | QFileNotFound => log_err MUsageNoTool 0 ;; exit
  end.

Definition get_temp (q : query_result) : proc Z :=
  match q with
  | QOutput text =>
      match first_number text with
      | Some n => ret n
      | None => raise AttributeError
      end
  | QCalledProcessError detail => log_err (MTempFailed detail) 0 ;; exit
  | QFileNotFound => log_err MTempNoTool 0 ;; exit
  end.

(** [send_vram_warning]: only [CalledProcessError] is handled. *)
Definition send_vram_warning (text : string) (r : notify_result) : proc unit :=
  emit (Print ("Warning! " ++ text)%string) ;;
  emit (RunNotifySend text) ;;
  match r with
  | NDelivered => ret tt
  | NCalledProcessError detail => log_err (MNotifyError detail) 0
  | NFileNotFound => raise FileNotFoundError
  end.

(** The text handed to [send_vram_warning]. *)
Definition warning_text (vram_usage vram_total pct : Z) : string :=
  ("VRAM usage critical! "
   ++ (str_of_int vram_usage ++ "/" ++ str_of_int vram_total ++ "Mib, ")
   ++ ("(" ++ str_of_int pct ++ "%)"))%string.

(** The first [if] of the loop body: lowering the threshold. *)
Definition rearm (cfg : config) (last_warning_vram : num) (vram_usage : Z) : num :=
  if ltb (PyInt vram_usage) (sub_int last_warning_vram THRESHOLD)
     && geb last_warning_vram (MAX_VRAM_USAGE cfg)
  then sub_int last_warning_vram THRESHOLD
  else last_warning_vram.

(** The second [if] of the loop body: raising the threshold and warning. *)
Definition fire_check (cfg : config) (last_warning_vram : num) (vram_usage : Z)
    (r : notify_result) : proc num :=
  if gtb (PyInt vram_usage) (add_int last_warning_vram THRESHOLD) then
    let last_warning_vram := add_int last_warning_vram THRESHOLD in
    pct <- lift (percent vram_usage (VRAM_TOTAL cfg)) ;;
    send_vram_warning (warning_text vram_usage (VRAM_TOTAL cfg) pct) r ;;
    ret last_warning_vram
  else ret last_warning_vram.

(** One iteration of [while True].  [get_vram_usage] returns an [int] or
    does not return, so the test [vram_usage is not None] always passes. *)
Definition tick (cfg : config) (last_warning_vram : num) (i : tick_input)
    : proc num :=
  vram_usage <- get_vram_usage (usage_q i) ;;
  gpu_temp <- get_temp (temp_q i) ;;
  let last_warning_vram := rearm cfg last_warning_vram vram_usage in
  log_mess (MUsageLine vram_usage gpu_temp) 0 ;;
  last_warning_vram <- fire_check cfg last_warning_vram vram_usage (notify_r i) ;;
  emit (Sleep WAITTIME) ;;
  ret last_warning_vram.

(** The loop, run for as long as the outside is described: the value is the
    threshold with which the next iteration would start. *)
Fixpoint monitor_loop (cfg : config) (last_warning_vram : num)
    (inputs : list tick_input) : proc num :=
  match inputs with
  | [] => ret last_warning_vram
  | i :: rest =>
      last_warning_vram <- tick cfg last_warning_vram i ;;
      monitor_loop cfg last_warning_vram rest
  end.

Definition initial_threshold (cfg : config) : num :=
  sub_int (MAX_VRAM_USAGE cfg) 20.

Definition start_monitoring (cfg : config) (inputs : list tick_input) : proc num :=
  monitor_loop cfg (initial_threshold cfg) inputs.

(** [main]: [auto] is false when [--noauto] is given. *)
Definition main (auto : bool) (w : world) : proc num :=
  cfg <- (if auto then update_variables default_config w
          else log_warn MNoAuto 0 ;; ret default_config) ;;
  start_monitoring cfg (ticks w).

(** ** The threshold as a function of the usage samples *)

Definition step (cfg : config) (last_warning_vram : num) (vram_usage : Z) : num :=
  let armed := rearm cfg last_warning_vram vram_usage in
  if gtb (PyInt vram_usage) (add_int armed THRESHOLD)
  then add_int armed THRESHOLD
  else armed.

Definition threshold_after (cfg : config) (samples : list Z) : num :=
  fold_left (step cfg) samples (initial_threshold cfg).

(** The answers of a healthy system for given samples. *)
Definition newline : string := String "010"%char EmptyString.

Definition smi (n : Z) : query_result := QOutput (str_of_int n ++ newline)%string.

Definition healthy (vram_usage gpu_temp : Z) : tick_input :=
  {| usage_q := smi vram_usage; temp_q := smi gpu_temp; notify_r := NDelivered |}.

(** The two checks on an integer threshold, as integer functions. *)
Definition rearm_int (ceiling t u : Z) : Z :=
  if (u <? t - THRESHOLD) && (ceiling <=? t) then t - THRESHOLD else t.

Definition step_int (ceiling t u : Z) : Z :=
  let armed := rearm_int ceiling t u in
  if armed + THRESHOLD <? u then armed + THRESHOLD else armed.

(** The usage sample an iteration reads, when the query answers with a
    number. *)
Definition usage_of (i : tick_input) : option Z :=
  match usage_q i with
  | QOutput text => first_number text
  | _ => None
  end.

(** The texts handed to [notify-send] in a trace. *)
Definition notified (tr : list event) : list string :=
  flat_map (fun e => match e with RunNotifySend text => [text] | _ => [] end) tr.

(** Answers with which an iteration runs to its end: a usage (below
    [2^1000]) and a temperature are read, and [notify-send] is installed. *)
Definition sound (i : tick_input) : Prop :=
  (exists u, usage_of i = Some u /\ u < 2 ^ 1000)
  /\ (exists g, get_temp (temp_q i) = ([], Ok g))
  /\ notify_r i <> NFileNotFound.

(** The events by which a warning reaches the operator: the line printed on
    the console and the call of [notify-send]. *)
Definition is_alert (e : event) : bool :=
  match e with
  | Print _ | RunNotifySend _ => true
  | _ => false
  end.

Definition alerts (tr : list event) : list event := filter is_alert tr.

(** The error lines that report a failed [nvidia-smi] query. *)
Definition metrics_failure (m : message) : bool :=
  match m with
  | MGatherNoDriver | MUsageFailed _ | MUsageNoTool | MTempFailed _ | MTempNoTool => true
  | _ => false
  end.

Fixpoint contains (needle hay : string) : bool :=
  prefix needle hay
  || match hay with
     | String _ rest => contains needle rest
     | EmptyString => false
     end.

(** The percentage as the specification words it, [round(100*U/Capacity)]:
    the integer nearest to the exact quotient (a half goes up). *)
Definition spec_percentage (vram_usage vram_total : Z) : Z :=
  (200 * vram_usage + vram_total) / (2 * vram_total).

(** A property checked on the [n] integers from [lo] on. *)
Fixpoint all_from (f : Z -> bool) (lo : Z) (n : nat) : bool :=
  match n with
  | O => true
  | S n' => f lo && all_from f (lo + 1) n'
  end.

Definition percent_over_100 (vram_total vram_usage : Z) : bool :=
  match percent vram_usage vram_total with
  | inr pct => 100 <? pct
  | inl _ => true
  end.

(** The warning texts that a sequence of samples gives rise to, from
    threshold [T] on. *)
Fixpoint warnings (cfg : config) (T : num) (samples : list Z) : list string :=
  match samples with
  | [] => []
  | u :: rest =>
      (if gtb (PyInt u) (add_int (rearm cfg T u) THRESHOLD) then
         match percent u (VRAM_TOTAL cfg) with
         | inr pct => [warning_text u (VRAM_TOTAL cfg) pct]
         | inl _ => []
         end
       else [])
      ++ warnings cfg (step cfg T u) rest
  end.

(** The scenario of the specification: capacity 8192, ceiling 3800, and
    the first [n] of five samples answered by a healthy system. *)
Definition scenario_samples : list Z := [3000; 3850; 3950; 3700; 3650].

Definition scenario_run (n : nat) : proc num :=
  start_monitoring (int_config 3800 8192)
    (map (fun u => healthy u 60) (firstn n scenario_samples)).

(** The pauses and the usage lines of a trace. *)
Definition is_sleep (e : event) : bool :=
  match e with Sleep _ => true | _ => false end.

Definition is_usage_line (e : event) : bool :=
  match e with LogMess _ (MUsageLine _ _) => true | _ => false end.

(** A test on every character of a text. *)
Fixpoint all_chars (f : ascii -> bool) (s : string) : bool :=
  match s with
  | EmptyString => true
  | String c rest => f c && all_chars f rest
  end.

Definition has_digit (text : string) : bool :=
  negb (all_chars (fun c => negb (is_digit c)) text).

Definition starts_with_digit (s : string) : bool :=
  match s with
  | String c _ => is_digit c
  | EmptyString => false
  end.

(** The characters [int] accepts in a decimal literal, and white space. *)
Definition int_char (c : ascii) : bool :=
  is_digit c || Ascii.eqb c "_" || Ascii.eqb c "+" || Ascii.eqb c "-".

Definition int_char_or_space (c : ascii) : bool := int_char c || is_space c.

(** The part of the text model that is exact.  The script decodes the
    bytes of an answer as UTF-8, and [\d], [str.strip] and [int] work on
    Unicode classes; [int] refuses more than 4300 digits.  For an answer
    of ASCII characters only and of at most 4300 characters decoding cannot
    fail, the classes are the ASCII ones of [is_digit] and [is_space], and
    the limit of [int] is not reached. *)
Definition is_ascii (c : ascii) : bool := (nat_of_ascii c <? 128)%nat.

Definition plain_answer (text : string) : bool :=
  all_chars is_ascii text && (String.length text <=? 4300)%nat.

(** ** The settings after auto-detection *)

(** The settings that [update_variables] leaves for a detected capacity:
    [MAX_VRAM_USAGE = VRAM_TOTAL * .9]. *)
Definition auto_ceiling (vram_total : Z) : spec_float :=
  SFmul prec emax (float_of_Z vram_total) point_nine.

Definition auto_config (vram_total : Z) : config :=
  {| MAX_VRAM_USAGE := PyFloat (auto_ceiling vram_total); VRAM_TOTAL := vram_total |}.

(** Answers of an iteration that are read as numbers, the usage below nine
    tenths of the capacity plus 80. *)
Definition below_auto_limit (vram_total : Z) (i : tick_input) : Prop :=
  exists u g,
    usage_of i = Some u
    /\ get_temp (temp_q i) = ([], Ok g)
    /\ 10 * u < 9 * vram_total + 800.

(** [has_value S f V]: the float [f] is a zero or a normal number of either
    sign, with an exponent of at least [-S], and its value is [V / 2^S]. *)
Definition has_value (S : Z) (f : spec_float) (V : Z) : Prop :=
  match f with
  | S754_zero _ => V = 0
  | S754_finite s m e =>
      2 ^ 52 <= Zpos m < 2 ^ 53
      /\ 0 <= e + S
      /\ V = (if s then - Zpos m else Zpos m) * 2 ^ (e + S)
  | _ => False
  end.

(** [worth S f V]: the float [f] is positive and normal, with an exponent of
    at least [-S], and its value is [V / 2^S]. *)
Definition worth (S : Z) (f : spec_float) (V : Z) : Prop :=
  exists (m : positive) (e : Z),
    f = S754_finite false m e
    /\ 2 ^ 52 <= Zpos m < 2 ^ 53
    /\ 0 <= e + S
    /\ V = Zpos m * 2 ^ (e + S).

(** * Properties *)

(** ** Comparisons and arithmetic on integers *)

Lemma ltb_int (a b : Z) : ltb (PyInt a) (PyInt b) = (a <? b).
Proof.
  unfold ltb, Z.ltb; simpl. now destruct (a ?= b).
Qed.

Lemma gtb_int (a b : Z) : gtb (PyInt a) (PyInt b) = (b <? a).
Proof.
  unfold gtb; simpl. rewrite (Z.ltb_compare b a), (Z.compare_antisym a b).
  now destruct (a ?= b).
Qed.

Lemma geb_int (a b : Z) : geb (PyInt a) (PyInt b) = (b <=? a).
Proof.
  unfold geb; simpl. rewrite (Z.leb_compare b a), (Z.compare_antisym a b).
  now destruct (a ?= b).
Qed.

Lemma rearm_int_config (ceiling capacity t u : Z) :
  rearm (int_config ceiling capacity) (PyInt t) u = PyInt (rearm_int ceiling t u).
Proof.
  unfold rearm, rearm_int; simpl. rewrite ltb_int, geb_int.
  now destruct ((u <? t - THRESHOLD) && (ceiling <=? t)).
Qed.

Lemma step_int_config (ceiling capacity t u : Z) :
  step (int_config ceiling capacity) (PyInt t) u = PyInt (step_int ceiling t u).
Proof.
  unfold step, step_int. rewrite rearm_int_config. simpl. rewrite gtb_int.
  now destruct (rearm_int ceiling t u + THRESHOLD <? u).
Qed.

Lemma fold_step_int_config (ceiling capacity : Z) (samples : list Z) (t : Z) :
  fold_left (step (int_config ceiling capacity)) samples (PyInt t)
  = PyInt (fold_left (step_int ceiling) samples t).
Proof.
  revert t. induction samples as [|u samples IH]; intro t; simpl.
  - reflexivity.
  - rewrite step_int_config. apply IH.
Qed.

Lemma threshold_after_int_config (ceiling capacity : Z) (samples : list Z) :
  threshold_after (int_config ceiling capacity) samples
  = PyInt (fold_left (step_int ceiling) samples (ceiling - 20)).
Proof.
  unfold threshold_after, initial_threshold. simpl. apply fold_step_int_config.
Qed.

Ltac split_checks :=
  unfold step_int, rearm_int, THRESHOLD in *;
  repeat match goal with
         | |- context [?a <? ?b] => destruct (Z.ltb_spec a b)
         | |- context [?a <=? ?b] => destruct (Z.leb_spec a b)
         end; cbn [andb]; try lia.

(** One sample moves an integer threshold by nothing or by one
    [THRESHOLD], whatever the distance of the sample. *)
Lemma step_int_moves (ceiling t u : Z) :
  step_int ceiling t u = t
  \/ step_int ceiling t u = t + THRESHOLD
  \/ step_int ceiling t u = t - THRESHOLD.
Proof. split_checks. Qed.


(** Thresholds stay on the grid that starts 20 below the ceiling. *)
Lemma step_int_grid (ceiling t u : Z) :
  (exists k, 0 <= k /\ t = ceiling - 20 + k * THRESHOLD) ->
  exists k, 0 <= k /\ step_int ceiling t u = ceiling - 20 + k * THRESHOLD.
Proof.
  intros [k [Hk Ht]].
  destruct (step_int_moves ceiling t u) as [H | [H | H]]; rewrite H.
  - exists k. split; [lia | exact Ht].
  - exists (k + 1). unfold THRESHOLD in *. lia.
  - exists (k - 1). revert H. split_checks.
Qed.

Lemma fold_step_int_grid (ceiling : Z) (samples : list Z) (t : Z) :
  (exists k, 0 <= k /\ t = ceiling - 20 + k * THRESHOLD) ->
  exists k, 0 <= k
            /\ fold_left (step_int ceiling) samples t = ceiling - 20 + k * THRESHOLD.
Proof.
  revert t. induction samples as [|u samples IH]; intros t Ht; simpl.
  - exact Ht.
  - apply IH. now apply step_int_grid.
Qed.


(** ** Running computations *)

Lemma bind_Ok {A B} (m : proc A) (k : A -> proc B) (tr : list event) (b : B) :
  bind m k = (tr, Ok b) ->
  exists tr1 a tr2, m = (tr1, Ok a) /\ k a = (tr2, Ok b) /\ tr = tr1 ++ tr2.
Proof.
  unfold bind. destruct m as [tr1 [a | o]]; [| discriminate].
  destruct (k a) as [tr2 r] eqn:Hk. intro H. inversion H; subst.
  now exists tr1, a, tr2.
Qed.

Lemma trace_bind {A B} (m : proc A) (k : A -> proc B) :
  trace (bind m k)
  = trace m ++ match outcome_of m with
               | Ok a => trace (k a)
               | Stop _ => []
               end.
Proof.
  unfold bind, trace, outcome_of. destruct m as [tr [a | o]]; simpl.
  - now destruct (k a).
  - now rewrite app_nil_r.
Qed.

Lemma outcome_bind {A B} (m : proc A) (k : A -> proc B) :
  outcome_of (bind m k)
  = match outcome_of m with
    | Ok a => outcome_of (k a)
    | Stop o => Stop o
    end.
Proof.
  unfold bind, outcome_of. destruct m as [tr [a | o]]; simpl; [| reflexivity].
  now destruct (k a).
Qed.

Lemma get_vram_usage_Ok (q : query_result) (tr : list event) (u : Z) :
  get_vram_usage q = (tr, Ok u) ->
  tr = [] /\ exists text, q = QOutput text /\ first_number text = Some u.
Proof.
  destruct q as [text | detail |]; simpl; try discriminate.
  destruct (first_number text) as [n |] eqn:Hn; [| discriminate].
  intro H. inversion H; subst. split; [reflexivity |]. now exists text.
Qed.

Lemma get_temp_Ok (q : query_result) (tr : list event) (g : Z) :
  get_temp q = (tr, Ok g) ->
  tr = [] /\ exists text, q = QOutput text /\ first_number text = Some g.
Proof.
  destruct q as [text | detail |]; simpl; try discriminate.
  destruct (first_number text) as [n |] eqn:Hn; [| discriminate].
  intro H. inversion H; subst. split; [reflexivity |]. now exists text.
Qed.

(** When the second [if] lets the loop go on, the threshold it leaves is the
    one [step] computes. *)
Lemma fire_check_Ok (cfg : config) (T : num) (u : Z) (r : notify_result)
    (tr : list event) (T' : num) :
  fire_check cfg T u r = (tr, Ok T') ->
  T' = if gtb (PyInt u) (add_int T THRESHOLD) then add_int T THRESHOLD else T.
Proof.
  unfold fire_check. destruct (gtb (PyInt u) (add_int T THRESHOLD)).
  - intro H. apply bind_Ok in H. destruct H as (tr1 & pct & tr2 & _ & H & _).
    apply bind_Ok in H. destruct H as (tr3 & [] & tr4 & _ & H & _).
    now inversion H.
  - intro H. now inversion H.
Qed.

Lemma tick_Ok (cfg : config) (T : num) (i : tick_input)
    (tr : list event) (T' : num) :
  tick cfg T i = (tr, Ok T') ->
  exists u, usage_of i = Some u /\ T' = step cfg T u.
Proof.
  unfold tick. intro H.
  apply bind_Ok in H. destruct H as (tr1 & u & tr2 & Hu & H & _).
  apply bind_Ok in H. destruct H as (tr3 & g & tr4 & _ & H & _).
  apply bind_Ok in H. destruct H as (tr5 & [] & tr6 & _ & H & _).
  apply bind_Ok in H. destruct H as (tr7 & T1 & tr8 & Hf & H & _).
  apply bind_Ok in H. destruct H as (tr9 & [] & tr10 & _ & H & _).
  inversion H; subst. exists u. split.
  - apply get_vram_usage_Ok in Hu. destruct Hu as (_ & text & Hq & Hn).
    unfold usage_of. now rewrite Hq.
  - apply fire_check_Ok in Hf. exact Hf.
Qed.

Lemma monitor_loop_Ok (cfg : config) (inputs : list tick_input) (T : num)
    (tr : list event) (T' : num) :
  monitor_loop cfg T inputs = (tr, Ok T') ->
  exists samples,
    map usage_of inputs = map Some samples
    /\ T' = fold_left (step cfg) samples T.
Proof.
  revert T tr. induction inputs as [|i inputs IH]; intros T tr H; simpl in H.
  - inversion H; subst. now exists [].
  - apply bind_Ok in H. destruct H as (tr1 & T1 & tr2 & Ht & H & _).
    apply tick_Ok in Ht. destruct Ht as (u & Hu & ->).
    apply IH in H. destruct H as (samples & Hs & ->).
    exists (u :: samples). simpl. now rewrite Hu, Hs.
Qed.

(** ** Lower bounds through binary64 rounding

    Rounding to 53 bits keeps a lower bound [at_least K]. *)

Module FloatBounds.

Lemma digits2_pos_bounds (p : positive) :
  2 ^ (Zpos (digits2_pos p) - 1) <= Zpos p < 2 ^ Zpos (digits2_pos p).
Proof.
  induction p as [p IH | p IH |]; simpl digits2_pos.
  - rewrite Pos2Z.inj_succ, Z.pow_succ_r by lia.
    replace (Z.succ (Zpos (digits2_pos p)) - 1) with (Z.succ (Zpos (digits2_pos p) - 1)) by lia.
    rewrite Z.pow_succ_r by lia. lia.
  - rewrite Pos2Z.inj_succ, Z.pow_succ_r by lia.
    replace (Z.succ (Zpos (digits2_pos p)) - 1) with (Z.succ (Zpos (digits2_pos p) - 1)) by lia.
    rewrite Z.pow_succ_r by lia. lia.
  - simpl. lia.
Qed.

Lemma shr_1_m (r : shr_record) :
  0 <= shr_m r -> shr_m (shr_1 r) = shr_m r / 2.
Proof.
  destruct r as [m r s]. simpl. intro Hm.
  destruct m as [| [p | p |] | p]; simpl shr_m; try reflexivity; try lia.
  - apply Z.div_unique with (r := 1); lia.
  - apply Z.div_unique with (r := 0); lia.
Qed.

Lemma iter_shr_1_m (n : positive) :
  forall r, 0 <= shr_m r ->
            shr_m (iter_pos shr_1 n r) = shr_m r / 2 ^ Zpos n.
Proof.
  assert (Hnn : forall r k, 0 <= shr_m r -> 0 <= shr_m r / 2 ^ Zpos k).
  { intros r k H. apply Z.div_pos; [exact H | apply Z.pow_pos_nonneg; lia]. }
  induction n as [n IH | n IH |]; intros r Hr; simpl iter_pos.
  - assert (H1 : 0 <= shr_m (shr_1 r))
      by (rewrite shr_1_m by exact Hr; apply Z.div_pos; lia).
    assert (H2 : 0 <= shr_m (iter_pos shr_1 n (shr_1 r)))
      by (rewrite IH by exact H1; now apply Hnn).
    rewrite (IH _ H2), (IH _ H1), (shr_1_m _ Hr).
    rewrite !Z.div_div by (try apply Z.pow_pos_nonneg; lia).
    f_equal. replace (Zpos n~1) with (1 + Zpos n + Zpos n) by lia.
    rewrite !Z.pow_add_r by lia. change (2 ^ 1) with 2. ring.
  - assert (H1 : 0 <= shr_m (iter_pos shr_1 n r))
      by (rewrite IH by exact Hr; now apply Hnn).
    rewrite (IH _ H1), (IH _ Hr).
    rewrite !Z.div_div by (try apply Z.pow_pos_nonneg; lia).
    f_equal. replace (Zpos n~0) with (Zpos n + Zpos n) by lia.
    rewrite Z.pow_add_r by lia. ring.
  - rewrite shr_1_m by exact Hr. reflexivity.
Qed.


Lemma shr_record_of_loc_m (m : Z) (l : location) :
  shr_m (shr_record_of_loc m l) = m.
Proof. now destruct l as [| []]. Qed.

Lemma at_least_digits (K m e : Z) :
  at_least K m e -> K < Zdigits2 m + e.
Proof.
  intros [Hm HK]. destruct m as [| p |]; try lia. unfold Zdigits2.
  pose proof (digits2_pos_bounds p) as [_ Hd].
  destruct (Z.le_gt_cases (Zpos (digits2_pos p)) (K - e)) as [Hle | Hgt]; [| lia].
  assert (2 ^ Zpos (digits2_pos p) <= 2 ^ (K - e))
    by (apply Z.pow_le_mono_r; lia).
  lia.
Qed.

Lemma shr_fexp_at_least (K m e : Z) (l : location) :
  0 <= K -> at_least K m e ->
  at_least K (shr_m (fst (shr_fexp prec emax m e l)))
             (snd (shr_fexp prec emax m e l)).
Proof.
  intros HK Hinv. pose proof (at_least_digits _ _ _ Hinv) as Hd.
  destruct Hinv as [Hm Hpow].
  unfold shr_fexp, fexp, emin, prec, emax.
  replace (Z.max (Zdigits2 m + e - 53) (3 - 1024 - 53) - e)
    with (Zdigits2 m - 53) by lia.
  destruct (Zdigits2 m - 53) as [| n | n] eqn:Hn; cbn [shr fst snd];
    try (rewrite shr_record_of_loc_m; now split).
  rewrite iter_shr_1_m by (rewrite shr_record_of_loc_m; lia).
  rewrite shr_record_of_loc_m.
  assert (H2n : 0 < 2 ^ Zpos n) by (apply Z.pow_pos_nonneg; lia).
  split.
  - apply Z.lt_le_trans with 1; [lia |].
    apply Z.div_le_lower_bound; [exact H2n |].
    destruct m as [| p |]; try lia. unfold Zdigits2 in Hn.
    pose proof (digits2_pos_bounds p) as [Hlo _].
    apply Z.le_trans with (2 ^ (Zpos (digits2_pos p) - 1)); [| exact Hlo].
    rewrite Z.mul_1_r. apply Z.pow_le_mono_r; lia.
  - destruct (Z.le_gt_cases 0 (K - (e + Zpos n))) as [Hge | Hlt].
    + apply Z.div_le_lower_bound; [exact H2n |].
      rewrite <- Z.pow_add_r by lia.
      replace (Zpos n + (K - (e + Zpos n))) with (K - e) by lia. exact Hpow.
    + rewrite Z.pow_neg_r by lia. apply Z.div_pos; lia.
Qed.

Lemma round_nearest_even_ge (m : Z) (l : location) :
  m <= round_nearest_even m l.
Proof.
  destruct l as [| []]; simpl; try lia. destruct (Z.even m); lia.
Qed.

Lemma binary_round_aux_at_least (K : Z) (s : bool) (m e : Z) (l : location) :
  0 <= K -> at_least K m e ->
  match binary_round_aux prec emax s m e l with
  | S754_finite s' m' e' => s' = s /\ 2 ^ (K - e') <= Zpos m'
  | S754_infinity _ => True
  | _ => False
  end.
Proof.
  intros HK Hinv. unfold binary_round_aux.
  pose proof (shr_fexp_at_least K m e l HK Hinv) as H1.
  destruct (shr_fexp prec emax m e l) as [r1 e1]. simpl in H1.
  assert (H2 : at_least K (round_nearest_even (shr_m r1) (loc_of_shr_record r1)) e1).
  { destruct H1 as [Ha Hb].
    pose proof (round_nearest_even_ge (shr_m r1) (loc_of_shr_record r1)).
    split; lia. }
  pose proof (shr_fexp_at_least K _ e1 loc_Exact HK H2) as H3.
  destruct (shr_fexp prec emax _ e1 loc_Exact) as [r2 e2]. simpl in H3.
  destruct H3 as [Ha Hb].
  destruct (shr_m r2) as [| m2 |]; try lia.
  now destruct (e2 <=? emax - prec).
Qed.

Lemma int_of_float_at_least (K : Z) (m : positive) (e : Z) :
  0 <= K -> 2 ^ (K - e) <= Zpos m ->
  exists a, int_of_float (S754_finite false m e) = inr a /\ 2 ^ K <= a.
Proof.
  intros HK Hpow. unfold int_of_float. eexists. split; [reflexivity |].
  cbv beta zeta iota.
  destruct (Z.leb_spec 0 e) as [He | He].
  - destruct (Z.le_gt_cases e K) as [HeK | HeK].
    + replace K with ((K - e) + e) at 1 by lia.
      rewrite Z.pow_add_r by lia.
      apply Z.mul_le_mono_nonneg_r; [apply Z.pow_nonneg; lia | exact Hpow].
    + apply Z.le_trans with (2 ^ e); [apply Z.pow_le_mono_r; lia |].
      assert (0 < 2 ^ e) by (apply Z.pow_pos_nonneg; lia). nia.
  - apply Z.div_le_lower_bound; [apply Z.pow_pos_nonneg; lia |].
    rewrite <- Z.pow_add_r by lia.
    replace (- e + K) with (K - e) by lia. exact Hpow.
Qed.


(** The product with [100.0] of a float worth at least 2 is worth at least
    128, when it is finite. *)
Lemma mul_hundred_at_least (m : positive) (e : Z) :
  2 ^ (1 - e) <= Zpos m ->
  match SFmul prec emax (S754_finite false m e) (float_of_Z 100) with
  | S754_finite s' m' e' => s' = false /\ 2 ^ (7 - e') <= Zpos m'
  | S754_infinity _ => True
  | _ => False
  end.
Proof.
  intro Hpow.
  change (float_of_Z 100) with (S754_finite false 7036874417766400 (-46)).
  unfold SFmul. change (xorb false false) with false.
  apply binary_round_aux_at_least; [lia |]. split; [lia |].
  rewrite Pos2Z.inj_mul.
  destruct (Z.le_gt_cases 0 (1 - e)) as [Hge | Hlt].
  - replace (7 - (e + -46)) with ((1 - e) + 52) by lia.
    rewrite Z.pow_add_r by lia.
    apply Z.mul_le_mono_nonneg; try lia; apply Z.pow_nonneg; lia.
  - apply Z.le_trans with (2 ^ 52).
    + destruct (Z.le_gt_cases 0 (7 - (e + -46))).
      * apply Z.pow_le_mono_r; lia.
      * rewrite Z.pow_neg_r; lia.
    + change (2 ^ 52) with 4503599627370496. nia.
Qed.

(** The quotient by 2048 of an integer from 4096 on is worth at least 2. *)
Lemma div_core_2048_at_least (u : positive) :
  4096 <= Zpos u ->
  at_least 1 (fst (fst (SFdiv_core_binary prec emax (Zpos u) 0 2048 0)))
             (snd (fst (SFdiv_core_binary prec emax (Zpos u) 0 2048 0))).
Proof.
  intro Hu. unfold SFdiv_core_binary.
  set (e' := Z.min _ _).
  assert (He' : e' <= 0) by (subst e'; lia).
  destruct (0 - 0 - e') as [| s | s] eqn:Hs; try lia.
  - destruct (Z.div_eucl (Zpos u) 2048) as [q r] eqn:Hqr. cbn [fst snd].
    assert (Hq : q = Zpos u / 2048) by (unfold Z.div; now rewrite Hqr).
    assert (2 <= q) by (subst q; apply Z.div_le_lower_bound; lia).
    replace e' with 0 by lia. split; [lia |]. now change (2 ^ (1 - 0)) with 2.
  - destruct (Z.div_eucl (Z.shiftl (Zpos u) (Zpos s)) 2048) as [q r] eqn:Hqr.
    cbn [fst snd].
    assert (Hq : q = Z.shiftl (Zpos u) (Zpos s) / 2048)
      by (unfold Z.div; now rewrite Hqr).
    rewrite Z.shiftl_mul_pow2 in Hq by lia.
    assert (Hs2 : 0 < 2 ^ Zpos s) by (apply Z.pow_pos_nonneg; lia).
    assert (Hlow : 2 ^ (1 - e') <= q).
    { subst q. apply Z.div_le_lower_bound; [lia |].
      replace (1 - e') with (1 + Zpos s) by lia.
      rewrite Z.pow_add_r by lia. change (2 ^ 1) with 2. nia. }
    split; [| exact Hlow].
    apply Z.lt_le_trans with (2 ^ (1 - e')); [apply Z.pow_pos_nonneg; lia | exact Hlow].
Qed.

Lemma true_div_2048_at_least (u : Z) :
  4096 <= u ->
  match true_div u 2048 with
  | inr (S754_finite s m e) => s = false /\ 2 ^ (1 - e) <= Zpos m
  | inl OverflowError => True
  | _ => False
  end.
Proof.
  intro Hu. destruct u as [| u |]; try lia.
  unfold true_div, SFdiv.
  change (Z.pos u <? 0) with false. change (2048 <? 0) with false.
  change (Z.to_pos (Z.abs (Z.pos u))) with u.
  change (Z.to_pos (Z.abs 2048)) with 2048%positive.
  pose proof (div_core_2048_at_least u Hu) as Hcore.
  destruct (SFdiv_core_binary prec emax (Z.pos u) 0 2048 0) as [[mz ez] lz].
  cbn [fst snd] in Hcore.
  pose proof (binary_round_aux_at_least 1 (xorb false false) mz ez lz
                ltac:(lia) Hcore) as Hr.
  destruct (binary_round_aux prec emax (xorb false false) mz ez lz); auto.
Qed.

(** From 4096 MiB on, the percentage of 2048 MiB is at least 128 whenever
    it is computed. *)
Lemma percent_2048_from_4096 (u p : Z) :
  4096 <= u -> percent u 2048 = inr p -> 128 <= p.
Proof.
  intros Hu. unfold percent.
  pose proof (true_div_2048_at_least u Hu) as Hq.
  destruct (true_div u 2048) as [err | [s | s | | s m e]]; try easy.
  destruct Hq as [-> Hpow].
  pose proof (mul_hundred_at_least m e Hpow) as Hm.
  destruct (SFmul prec emax (S754_finite false m e) (float_of_Z 100))
    as [s' | s' | | s' m' e']; try easy.
  destruct Hm as [-> Hpow'].
  destruct (int_of_float_at_least 7 m' e' ltac:(lia) Hpow') as (a & Ha & Hbound).
  rewrite Ha. intro H. inversion H; subst. exact Hbound.
Qed.

(** *** Upper bounds, and results that stay finite *)

Lemma at_most_digits (K m e : Z) :
  at_most K m e -> Zdigits2 m + e <= K + 1.
Proof.
  intros (Hm & He & Hpow). destruct m as [| p |]; try lia.
  - unfold Zdigits2. lia.
  - unfold Zdigits2. pose proof (digits2_pos_bounds p) as [Hlo _].
    destruct (Z.le_gt_cases (Zpos (digits2_pos p) - 1) (K - e)) as [Hle | Hgt]; [lia |].
    assert (2 ^ (K - e) < 2 ^ (Zpos (digits2_pos p) - 1))
      by (apply Z.pow_lt_mono_r; lia).
    lia.
Qed.

Lemma shr_fexp_at_most (K m e : Z) (l : location) :
  -1022 <= K -> at_most K m e ->
  at_most K (shr_m (fst (shr_fexp prec emax m e l)))
            (snd (shr_fexp prec emax m e l))
  /\ snd (shr_fexp prec emax m e l) <= Z.max e (K - 52)
  /\ (m < 2 ^ (K - e) ->
      shr_m (fst (shr_fexp prec emax m e l))
      < 2 ^ (K - snd (shr_fexp prec emax m e l))).
Proof.
  intros HK Hinv. pose proof (at_most_digits _ _ _ Hinv) as Hd.
  destruct Hinv as (Hm & He & Hpow).
  unfold shr_fexp, fexp, emin, prec, emax.
  destruct (Z.max (Zdigits2 m + e - 53) (3 - 1024 - 53) - e) as [| n | n] eqn:Hn;
    cbn [shr fst snd]; rewrite ?shr_record_of_loc_m;
    try (split; [now repeat split | split; [lia | tauto]]).
  rewrite iter_shr_1_m by (rewrite shr_record_of_loc_m; lia).
  rewrite shr_record_of_loc_m.
  assert (H2n : 0 < 2 ^ Zpos n) by (apply Z.pow_pos_nonneg; lia).
  assert (Hsplit : 2 ^ (K - e) = 2 ^ (K - (e + Zpos n)) * 2 ^ Zpos n).
  { rewrite <- Z.pow_add_r by lia. f_equal. lia. }
  split; [| split].
  - split; [apply Z.div_pos; lia |]. split; [lia |].
    apply Z.div_le_upper_bound; [exact H2n |]. rewrite Z.mul_comm, <- Hsplit. exact Hpow.
  - lia.
  - intro Hlt. apply Z.div_lt_upper_bound; [exact H2n |].
    rewrite Z.mul_comm, <- Hsplit. exact Hlt.
Qed.

Lemma round_nearest_even_le (m : Z) (l : location) :
  round_nearest_even m l <= m + 1.
Proof.
  destruct l as [| []]; simpl; try lia. destruct (Z.even m); lia.
Qed.

Lemma binary_round_aux_at_most (K : Z) (s : bool) (m e : Z) (l : location) :
  -1022 <= K <= 1023 -> e <= 971 -> 0 <= m -> e <= K -> m < 2 ^ (K - e) ->
  match binary_round_aux prec emax s m e l with
  | S754_finite s' m' e' => s' = s /\ Zpos m' <= 2 ^ (K - e') /\ e' <= 971 /\ e' <= K
  | S754_zero _ => True
  | _ => False
  end.
Proof.
  intros HK He Hm HeK Hlt. unfold binary_round_aux.
  assert (Hinv : at_most K m e) by (repeat split; lia).
  pose proof (shr_fexp_at_most K m e l ltac:(lia) Hinv) as (H1 & He1 & Hs1).
  specialize (Hs1 Hlt).
  destruct (shr_fexp prec emax m e l) as [r1 e1]. cbn [fst snd] in *.
  assert (H2 : at_most K (round_nearest_even (shr_m r1) (loc_of_shr_record r1)) e1).
  { destruct H1 as (Ha & Hb & Hc).
    pose proof (round_nearest_even_le (shr_m r1) (loc_of_shr_record r1)).
    pose proof (round_nearest_even_ge (shr_m r1) (loc_of_shr_record r1)).
    repeat split; lia. }
  pose proof (shr_fexp_at_most K _ e1 loc_Exact ltac:(lia) H2) as (H3 & He2 & _).
  destruct (shr_fexp prec emax _ e1 loc_Exact) as [r2 e2]. cbn [fst snd] in *.
  destruct H3 as (Ha & Hb & Hc).
  destruct (shr_m r2) as [| m2 |]; try lia.
  unfold emax, prec. destruct (Z.leb_spec e2 (1024 - 53)); [| lia].
  repeat split; lia.
Qed.

(** An integer quotient below [2^K] stays at most [2^K] after rounding. *)
Lemma div_core_at_most (K : Z) (u c : positive) :
  0 <= K -> Zpos u < 2 ^ K ->
  let core := SFdiv_core_binary prec emax (Zpos u) 0 (Zpos c) 0 in
  0 <= fst (fst core) /\ snd (fst core) <= 0
  /\ fst (fst core) < 2 ^ (K - snd (fst core)).
Proof.
  intros HK Hu. unfold SFdiv_core_binary.
  set (e' := Z.min _ _).
  assert (He' : e' <= 0) by (subst e'; lia).
  destruct (0 - 0 - e') as [| s | s] eqn:Hs; try lia.
  - destruct (Z.div_eucl (Zpos u) (Zpos c)) as [q r] eqn:Hqr. cbn [fst snd].
    assert (Hq : q = Zpos u / Zpos c) by (unfold Z.div; now rewrite Hqr).
    assert (0 <= q <= Zpos u).
    { subst q. split; [apply Z.div_pos; lia |].
      apply Z.div_le_upper_bound; nia. }
    replace e' with 0 by lia. rewrite Z.sub_0_r. lia.
  - destruct (Z.div_eucl (Z.shiftl (Zpos u) (Zpos s)) (Zpos c)) as [q r] eqn:Hqr.
    cbn [fst snd].
    assert (Hq : q = Z.shiftl (Zpos u) (Zpos s) / Zpos c)
      by (unfold Z.div; now rewrite Hqr).
    rewrite Z.shiftl_mul_pow2 in Hq by lia.
    assert (Hs2 : 0 < 2 ^ Zpos s) by (apply Z.pow_pos_nonneg; lia).
    assert (0 <= q <= Zpos u * 2 ^ Zpos s).
    { subst q. split; [apply Z.div_pos; nia |].
      apply Z.div_le_upper_bound; nia. }
    replace (K - e') with (K + Zpos s) by lia.
    rewrite Z.pow_add_r by lia. split; [lia |]. split; [lia |]. nia.
Qed.

Lemma true_div_at_most (K u c : Z) :
  0 <= K <= 1023 -> 0 <= u < 2 ^ K -> 0 < c ->
  match true_div u c with
  | inr (S754_finite s m e) => s = false /\ Zpos m <= 2 ^ (K - e) /\ e <= 971 /\ e <= K
  | inr (S754_zero _) => True
  | _ => False
  end.
Proof.
  intros HK Hu Hc. destruct c as [| c |]; try lia.
  destruct u as [| u |]; try lia; [exact I |].
  unfold true_div, SFdiv.
  change (Z.pos u <? 0) with false. change (Z.pos c <? 0) with false.
  change (Z.to_pos (Z.abs (Z.pos u))) with u.
  change (Z.to_pos (Z.abs (Z.pos c))) with c.
  pose proof (div_core_at_most K u c ltac:(lia) ltac:(lia)) as Hcore.
  cbv zeta in Hcore.
  destruct (SFdiv_core_binary prec emax (Z.pos u) 0 (Z.pos c) 0) as [[mz ez] lz].
  cbn [fst snd] in Hcore. destruct Hcore as (Hmz & Hez & Hlt).
  pose proof (binary_round_aux_at_most K (xorb false false) mz ez lz
                ltac:(lia) ltac:(lia) Hmz ltac:(lia) Hlt) as Hr.
  destruct (binary_round_aux prec emax (xorb false false) mz ez lz); auto.
Qed.

Lemma mul_hundred_at_most (K : Z) (m : positive) (e : Z) :
  0 <= K <= 1016 -> Zpos m <= 2 ^ (K - e) -> e <= 971 -> e <= K ->
  match SFmul prec emax (S754_finite false m e) (float_of_Z 100) with
  | S754_finite s' _ _ => s' = false
  | S754_zero _ => True
  | _ => False
  end.
Proof.
  intros HK Hpow He HeK.
  change (float_of_Z 100) with (S754_finite false 7036874417766400 (-46)).
  unfold SFmul. change (xorb false false) with false.
  pose proof (binary_round_aux_at_most (K + 7) false
                (Zpos (m * 7036874417766400)) (e + -46) loc_Exact
                ltac:(lia) ltac:(lia) ltac:(lia) ltac:(lia)) as Hr.
  destruct (binary_round_aux prec emax false (Zpos (m * 7036874417766400))
              (e + -46) loc_Exact); try tauto; try (apply Hr; clear Hr).
  all: rewrite Pos2Z.inj_mul;
    replace (K + 7 - (e + -46)) with ((K - e) + 53) by lia;
    rewrite Z.pow_add_r by lia; change (2 ^ 53) with 9007199254740992;
    assert (0 < 2 ^ (K - e)) by (apply Z.pow_pos_nonneg; lia); nia.
Qed.

(** The percentage is computed, and is not negative, for every usage below
    [2^1000] and every positive capacity. *)
Lemma percent_total (u c : Z) :
  0 <= u < 2 ^ 1000 -> 0 < c -> exists pct, percent u c = inr pct /\ 0 <= pct.
Proof.
  intros Hu Hc. unfold percent.
  pose proof (true_div_at_most 1000 u c ltac:(lia) Hu Hc) as Hq.
  destruct (true_div u c) as [err | [s | s | | s m e]]; try easy.
  - exists 0. split; [| lia].
    change (float_of_Z 100) with (S754_finite false 7036874417766400 (-46)).
    reflexivity.
  - destruct Hq as (-> & Hpow & He & HeK).
    pose proof (mul_hundred_at_most 1000 m e ltac:(lia) Hpow He HeK) as Hm.
    destruct (SFmul prec emax (S754_finite false m e) (float_of_Z 100))
      as [s' | s' | | s' m' e']; try easy.
    + exists 0. split; [reflexivity | lia].
    + subst s'. unfold int_of_float. eexists. split; [reflexivity |].
      cbv beta zeta iota. destruct (Z.leb_spec 0 e').
      * apply Z.mul_nonneg_nonneg; [lia | apply Z.pow_nonneg; lia].
      * apply Z.div_pos; [lia | apply Z.pow_pos_nonneg; lia].
Qed.

End FloatBounds.

(** ** Numbers read from text *)

Lemma digit_value_nonneg (c : ascii) : is_digit c = true -> 0 <= digit_value c.
Proof.
  unfold is_digit, digit_value. intro H. apply andb_prop in H.
  destruct H as [H _]. apply Nat.leb_le in H. lia.
Qed.

Lemma digits_to_int_nonneg (text : string) :
  forall acc, 0 <= acc -> 0 <= digits_to_int acc (take_digits text).
Proof.
  induction text as [|c rest IH]; intros acc Hacc; cbn [take_digits].
  - exact Hacc.
  - destruct (is_digit c) eqn:Hc; [| exact Hacc]. cbn [digits_to_int].
    apply IH. pose proof (digit_value_nonneg c Hc). lia.
Qed.

Lemma first_number_nonneg (text : string) (n : Z) :
  first_number text = Some n -> 0 <= n.
Proof.
  unfold first_number. induction text as [|c rest IH]; cbn [search_digits].
  - discriminate.
  - destruct (is_digit c); [| exact IH].
    cbn [option_map]. intro H. injection H as <-.
    apply (digits_to_int_nonneg (String c rest)). lia.
Qed.

(** ** Traces of the loop body *)

Lemma bind_ret_l {A B} (a : A) (k : A -> proc B) : bind ([], Ok a) k = k a.
Proof. unfold bind. now destruct (k a). Qed.

Lemma bind_Stop {A B} (m : proc A) (k : A -> proc B) (tr : list event) (o : outcome) :
  bind m k = (tr, Stop o) ->
  m = (tr, Stop o)
  \/ exists tr1 a tr2, m = (tr1, Ok a) /\ k a = (tr2, Stop o) /\ tr = tr1 ++ tr2.
Proof.
  unfold bind. destruct m as [tr1 [a | o1]].
  - destruct (k a) as [tr2 r] eqn:Hk. intro H. inversion H; subst.
    right. now exists tr1, a, tr2.
  - intro H. inversion H; subst. now left.
Qed.

Lemma notified_app (tr1 tr2 : list event) :
  notified (tr1 ++ tr2) = notified tr1 ++ notified tr2.
Proof. apply flat_map_app. Qed.

Lemma alerts_app (tr1 tr2 : list event) :
  alerts (tr1 ++ tr2) = alerts tr1 ++ alerts tr2.
Proof. apply filter_app. Qed.

(** What [send_vram_warning] does, by the answer of [notify-send]. *)
Lemma send_vram_warning_cases (text : string) (r : notify_result) :
  send_vram_warning text r
  = ([Print ("Warning! " ++ text)%string; RunNotifySend text]
       ++ match r with
          | NCalledProcessError detail => [LogErr 0 (MNotifyError detail)]
          | _ => []
          end,
     match r with
     | NFileNotFound => Stop (Uncaught FileNotFoundError)
     | _ => Ok tt
     end).
Proof. now destruct r. Qed.

(** The second [if], case by case. *)
Lemma fire_check_cases (cfg : config) (T : num) (u : Z) (r : notify_result) :
  fire_check cfg T u r
  = if gtb (PyInt u) (add_int T THRESHOLD) then
      match percent u (VRAM_TOTAL cfg) with
      | inl e => ([], Stop (Uncaught e))
      | inr pct =>
          let text := warning_text u (VRAM_TOTAL cfg) pct in
          ([Print ("Warning! " ++ text)%string; RunNotifySend text]
             ++ match r with
                | NCalledProcessError detail => [LogErr 0 (MNotifyError detail)]
                | _ => []
                end,
           match r with
           | NFileNotFound => Stop (Uncaught FileNotFoundError)
           | _ => Ok (add_int T THRESHOLD)
           end)
      end
    else ([], Ok T).
Proof.
  unfold fire_check. destruct (gtb (PyInt u) (add_int T THRESHOLD)); [| reflexivity].
  destruct (percent u (VRAM_TOTAL cfg)) as [e | pct]; [reflexivity |].
  unfold lift, ret. rewrite bind_ret_l, send_vram_warning_cases.
  destruct r; unfold bind; cbn [app]; rewrite ?app_nil_r; reflexivity.
Qed.

(** The loop body when both queries answer with a number. *)
Lemma tick_sampled (cfg : config) (T : num) (i : tick_input) (u g : Z) :
  usage_of i = Some u ->
  get_temp (temp_q i) = ([], Ok g) ->
  tick cfg T i
  = (LogMess 0 (MUsageLine u g)
       :: trace (fire_check cfg (rearm cfg T u) u (notify_r i))
       ++ match outcome_of (fire_check cfg (rearm cfg T u) u (notify_r i)) with
          | Ok _ => [Sleep WAITTIME]
          | Stop _ => []
          end,
     outcome_of (fire_check cfg (rearm cfg T u) u (notify_r i))).
Proof.
  intros Hu Hg. unfold tick, usage_of in *.
  destruct (usage_q i) as [text | |]; try discriminate.
  unfold get_vram_usage. rewrite Hu, Hg. unfold ret. rewrite !bind_ret_l.
  change (log_mess (MUsageLine u g) 0) with ([LogMess 0 (MUsageLine u g)], Ok tt).
  destruct (fire_check cfg (rearm cfg T u) u (notify_r i)) as [tr [T1 | o]];
    unfold bind, emit, trace, outcome_of; cbn [fst snd app];
    rewrite ?app_nil_r; reflexivity.
Qed.

(** Either both queries of an iteration answer with a number, or the
    iteration ends the process before it looks at the sample: with an
    [AttributeError] and nothing logged when an answer holds no digit, with
    one error line and [sys.exit()] when a query fails. *)
Lemma tick_cases (cfg : config) (T : num) (i : tick_input) :
  (exists u g, usage_of i = Some u /\ get_temp (temp_q i) = ([], Ok g))
  \/ tick cfg T i = ([], Stop (Uncaught AttributeError))
  \/ exists m, metrics_failure m = true
               /\ tick cfg T i = ([LogErr 0 m], Stop (Exited 0)).
Proof.
  unfold tick, usage_of.
  destruct (usage_q i) as [text | detail |]; unfold get_vram_usage.
  - destruct (first_number text) as [u |].
    + unfold ret. rewrite bind_ret_l.
      destruct (temp_q i) as [text' | detail' |]; unfold get_temp.
      * destruct (first_number text') as [g |].
        -- left. now exists u, g.
        -- right. now left.
      * right. right. now exists (MTempFailed detail').
      * right. right. now exists MTempNoTool.
    + right. now left.
  - right. right. now exists (MUsageFailed detail).
  - right. right. now exists MUsageNoTool.
Qed.

(** A text handed to [notify-send] during an iteration is the warning for
    the sample of that iteration, which lies more than one [THRESHOLD] above
    the threshold left by the first [if]. *)
Lemma notified_tick (cfg : config) (T : num) (i : tick_input) (text : string) :
  In text (notified (trace (tick cfg T i))) ->
  exists u pct,
    usage_of i = Some u
    /\ gtb (PyInt u) (add_int (rearm cfg T u) THRESHOLD) = true
    /\ percent u (VRAM_TOTAL cfg) = inr pct
    /\ text = warning_text u (VRAM_TOTAL cfg) pct.
Proof.
  destruct (tick_cases cfg T i) as [(u & g & Hu & Hg) | [H | (m & _ & H)]];
    try (rewrite H; simpl; tauto).
  rewrite (tick_sampled cfg T i u g Hu Hg), fire_check_cases.
  unfold trace, outcome_of. cbn [fst snd].
  destruct (gtb (PyInt u) (add_int (rearm cfg T u) THRESHOLD)) eqn:Hgt;
    [| simpl; tauto].
  destruct (percent u (VRAM_TOTAL cfg)) as [e | pct] eqn:Hp; [simpl; tauto |].
  intro Hin. exists u, pct. repeat split; try assumption.
  cbv zeta in Hin. cbn [fst snd] in Hin.
  change (LogMess 0 (MUsageLine u g) :: ?l) with ([LogMess 0 (MUsageLine u g)] ++ l) in Hin.
  rewrite !notified_app in Hin. cbn [notified flat_map app] in Hin.
  destruct Hin as [Hin | Hin]; [now symmetry |].
  exfalso. destruct (notify_r i); simpl in Hin; tauto.
Qed.

Lemma all_from_spec (f : Z -> bool) (n : nat) :
  forall lo, all_from f lo n = true ->
             forall z, lo <= z < lo + Z.of_nat n -> f z = true.
Proof.
  induction n as [|n IH]; intros lo Hall z Hz.
  - simpl in Hz. lia.
  - cbn [all_from] in Hall. apply andb_prop in Hall. destruct Hall as [Hlo Hrest].
    destruct (Z.eq_dec z lo) as [-> | Hne]; [exact Hlo |].
    apply (IH (lo + 1) Hrest). lia.
Qed.

(** Under the shipped settings a sample above 3880 gives a percentage above
    100: checked one by one below 4096, by the bounds on rounding above. *)
Lemma percent_2048_over_100 (u pct : Z) :
  3880 < u -> percent u 2048 = inr pct -> 100 < pct.
Proof.
  intros Hu Hp. destruct (Z.lt_ge_cases u 4096) as [Hsmall | Hbig].
  - assert (Hall : all_from (percent_over_100 2048) 3881 215 = true)
      by (vm_compute; reflexivity).
    pose proof (all_from_spec _ _ _ Hall u ltac:(lia)) as Hc.
    unfold percent_over_100 in Hc. rewrite Hp in Hc. now apply Z.ltb_lt.
  - pose proof (FloatBounds.percent_2048_from_4096 u pct Hbig Hp). lia.
Qed.

(** ** The threshold at the start and on its way *)

(** C2 (evaluated on the code). The threshold at the start of monitoring is
    the ceiling minus 20, not the ceiling minus one step: 3780 under the
    shipped settings, where the step is 100.  A sample of 3850, above the
    ceiling of 3800, then raises no warning. *)
Theorem initial_threshold_is_ceiling_minus_20 :
  (forall ceiling capacity,
      start_monitoring (int_config ceiling capacity) []
      = ([], Ok (PyInt (ceiling - 20))))
  /\ initial_threshold default_config = PyInt 3780
  /\ PyInt 3780 <> PyInt (3800 - THRESHOLD)
  /\ alerts (trace (start_monitoring default_config [healthy 3850 60])) = [].
Proof.
  split; [reflexivity |]. split; [reflexivity |]. split; [discriminate |].
  vm_compute. reflexivity.
Qed.

(** C3 (evaluated on the code). Under the shipped settings the threshold
    after any sequence of samples, the empty one included, is an integer
    that is not of the form ceiling + k * step: it starts at 3780 and stays
    20 below that grid. *)
Theorem threshold_off_ceiling_grid (samples : list Z) :
  threshold_after default_config [] = PyInt 3780
  /\ exists t, threshold_after default_config samples = PyInt t
               /\ forall k, t <> 3800 + k * THRESHOLD.
Proof.
  split; [reflexivity |].
  change default_config with (int_config 3800 2048).
  rewrite threshold_after_int_config. eexists. split; [reflexivity |].
  destruct (fold_step_int_grid 3800 samples (3800 - 20)) as (k' & Hk' & Heq).
  - exists 0. lia.
  - rewrite Heq. unfold THRESHOLD. intros k. lia.
Qed.

(** One sample moves an integer threshold by at most one step, however far
    the sample lies. *)
Lemma threshold_moves_at_most_one_step (ceiling capacity t u : Z) :
  exists t', step (int_config ceiling capacity) (PyInt t) u = PyInt t'
             /\ Z.abs (t' - t) <= THRESHOLD.
Proof.
  rewrite step_int_config. eexists. split; [reflexivity |].
  destruct (step_int_moves ceiling t u) as [H | [H | H]]; rewrite H;
    unfold THRESHOLD; lia.
Qed.

(** ** Warnings under the shipped settings *)

Lemma default_loop_warnings (inputs : list tick_input) (text : string) :
  forall t,
    (exists k, 0 <= k /\ t = 3800 - 20 + k * THRESHOLD) ->
    In text (notified (trace (monitor_loop default_config (PyInt t) inputs))) ->
    exists u pct,
      3880 < u /\ text = warning_text u 2048 pct /\ 100 < pct.
Proof.
  induction inputs as [|i rest IH]; intros t Hgrid Hin; [contradiction |].
  cbn [monitor_loop] in Hin. rewrite trace_bind, notified_app in Hin.
  apply in_app_or in Hin. destruct Hin as [Hin | Hin].
  - apply notified_tick in Hin. destruct Hin as (u & pct & _ & Hgt & Hp & ->).
    change default_config with (int_config 3800 2048) in Hgt.
    rewrite rearm_int_config in Hgt. cbn [add_int] in Hgt.
    rewrite gtb_int in Hgt. apply Z.ltb_lt in Hgt.
    assert (Hu : 3880 < u).
    { destruct Hgrid as (k & Hk & ->). revert Hgt. split_checks. }
    exists u, pct. split; [exact Hu |]. split; [reflexivity |].
    now apply (percent_2048_over_100 u pct Hu).
  - destruct (outcome_of (tick default_config (PyInt t) i)) as [T' | o] eqn:Ho;
      [| contradiction].
    destruct (tick default_config (PyInt t) i) as [tr r] eqn:Htick.
    unfold outcome_of in Ho. cbn [snd] in Ho. subst r.
    apply tick_Ok in Htick. destruct Htick as (u & _ & ->).
    change default_config with (int_config 3800 2048) in Hin.
    rewrite step_int_config in Hin.
    apply (IH (step_int 3800 t u)); [| exact Hin].
    now apply step_int_grid.
Qed.

(** C10. Under the shipped settings of [--noauto] (capacity 2048, ceiling
    3800, step 100) the threshold never goes below 3780, and every text
    handed to [notify-send] is the warning of a sample above 3880 with a
    percentage above 100. *)
Theorem default_warnings_report_over_100 (inputs : list tick_input) (text : string) :
  In text (notified (trace (start_monitoring default_config inputs))) ->
  (exists u pct, 3880 < u /\ text = warning_text u 2048 pct /\ 100 < pct)
  /\ forall samples,
       exists t, threshold_after default_config samples = PyInt t /\ 3780 <= t.
Proof.
  intro Hin. split.
  - apply (default_loop_warnings inputs text 3780); [| exact Hin].
    exists 0. unfold THRESHOLD. lia.
  - intro samples. change default_config with (int_config 3800 2048).
    rewrite threshold_after_int_config. eexists. split; [reflexivity |].
    destruct (fold_step_int_grid 3800 samples (3800 - 20)) as (k & Hk & ->).
    + exists 0. lia.
    + unfold THRESHOLD. lia.
Qed.

Lemma default_warnings_report_over_100_witness :
  exists u pct,
    3880 < u
    /\ "VRAM usage critical! 5000/2048Mib, (244%)" = warning_text u 2048 pct
    /\ 100 < pct.
Proof.
  apply (default_warnings_report_over_100 [healthy 3000 60; healthy 5000 85]).
  vm_compute. left. reflexivity.
Defined.

(** ** Temperature *)

(** C1 (as stated, refuted). At 95 degrees, above [MAX_TEMP], with a usage
    far below the threshold, the iteration logs the sample, sleeps, and
    raises no alert at all. *)
Lemma hot_gpu_raises_no_alert :
  tick default_config (PyInt 3780) (healthy 1000 95)
  = ([LogMess 0 (MUsageLine 1000 95); Sleep WAITTIME], Ok (PyInt 3780))
  /\ ~ (forall cfg T i u g,
           usage_of i = Some u -> get_temp (temp_q i) = ([], Ok g) ->
           MAX_TEMP < g -> alerts (trace (tick cfg T i)) <> []).
Proof.
  split; [vm_compute; reflexivity |].
  intro H.
  apply (H default_config (PyInt 3780) (healthy 1000 95) 1000 95);
    vm_compute; reflexivity.
Qed.

Lemma alerts_fire_check (cfg : config) (T : num) (u : Z) (r : notify_result)
    (e : event) :
  In e (alerts (trace (fire_check cfg T u r))) ->
  exists pct,
    e = Print ("Warning! " ++ warning_text u (VRAM_TOTAL cfg) pct)%string
    \/ e = RunNotifySend (warning_text u (VRAM_TOTAL cfg) pct).
Proof.
  rewrite fire_check_cases.
  destruct (gtb (PyInt u) (add_int T THRESHOLD)); [| simpl; tauto].
  destruct (percent u (VRAM_TOTAL cfg)) as [err | pct]; [simpl; tauto |].
  intro Hin. exists pct. cbv zeta in Hin. unfold trace in Hin. cbn [fst] in Hin.
  rewrite alerts_app in Hin. apply in_app_or in Hin. destruct Hin as [Hin | Hin].
  - cbn [alerts filter is_alert] in Hin. destruct Hin as [<- | [<- | []]]; tauto.
  - exfalso. destruct r; simpl in Hin; tauto.
Qed.

(** C1 (amended). No alert depends on the temperature: two iterations that
    differ only in the temperature read raise the same alerts and leave the
    same threshold, and every alert of an iteration is the memory warning
    of its sample. *)
Theorem temperature_never_alerts (cfg : config) (T : num) :
  (forall uq r text1 text2 g1 g2,
      first_number text1 = Some g1 -> first_number text2 = Some g2 ->
      let i1 := {| usage_q := uq; temp_q := QOutput text1; notify_r := r |} in
      let i2 := {| usage_q := uq; temp_q := QOutput text2; notify_r := r |} in
      alerts (trace (tick cfg T i1)) = alerts (trace (tick cfg T i2))
      /\ outcome_of (tick cfg T i1) = outcome_of (tick cfg T i2))
  /\ (forall i e,
         In e (alerts (trace (tick cfg T i))) ->
         exists u pct,
           usage_of i = Some u
           /\ (e = Print ("Warning! " ++ warning_text u (VRAM_TOTAL cfg) pct)%string
               \/ e = RunNotifySend (warning_text u (VRAM_TOTAL cfg) pct))).
Proof.
  split.
  - intros uq r text1 text2 g1 g2 H1 H2 i1 i2.
    destruct (usage_of i1) as [u |] eqn:Hu.
    + assert (Hu2 : usage_of i2 = Some u) by exact Hu.
      rewrite (tick_sampled cfg T i1 u g1 Hu), (tick_sampled cfg T i2 u g2 Hu2).
      * split; reflexivity.
      * subst i2. simpl. now rewrite H2.
      * subst i1. simpl. now rewrite H1.
    + unfold tick, usage_of in *. subst i1 i2. cbn [usage_q] in *.
      destruct uq as [text | detail |]; unfold get_vram_usage.
      * rewrite Hu. split; reflexivity.
      * split; reflexivity.
      * split; reflexivity.
  - intros i e Hin.
    destruct (tick_cases cfg T i) as [(u & g & Hu & Hg) | [H | (m & _ & H)]];
      try (rewrite H in Hin; simpl in Hin; tauto).
    rewrite (tick_sampled cfg T i u g Hu Hg) in Hin.
    unfold trace at 1 in Hin. cbn [fst] in Hin.
    change (LogMess 0 (MUsageLine u g) :: ?l) with ([LogMess 0 (MUsageLine u g)] ++ l) in Hin.
    rewrite !alerts_app in Hin. cbn [alerts filter is_alert app] in Hin.
    apply in_app_or in Hin. destruct Hin as [Hin | Hin].
    + destruct (alerts_fire_check _ _ _ _ _ Hin) as (pct & Hcase).
      now exists u, pct.
    + exfalso. destruct (outcome_of _); simpl in Hin; tauto.
Qed.

Lemma temperature_never_alerts_witness :
  alerts (trace (tick default_config (PyInt 3780)
                   {| usage_q := smi 5000; temp_q := QOutput "95";
                      notify_r := NDelivered |}))
  = alerts (trace (tick default_config (PyInt 3780)
                     {| usage_q := smi 5000; temp_q := QOutput "40";
                        notify_r := NDelivered |})).
Proof.
  apply (proj1 (temperature_never_alerts default_config (PyInt 3780))
           (smi 5000) NDelivered "95" "40" 95 40); reflexivity.
Defined.

(** ** The notifier *)

(** When [notify-send] runs and fails, the failure is logged and the
    iteration goes on to its sleep. *)
Lemma notifier_error_is_logged (cfg : config) (T : num) (i : tick_input)
    (u g pct : Z) (detail : string) :
  usage_of i = Some u ->
  get_temp (temp_q i) = ([], Ok g) ->
  gtb (PyInt u) (add_int (rearm cfg T u) THRESHOLD) = true ->
  percent u (VRAM_TOTAL cfg) = inr pct ->
  notify_r i = NCalledProcessError detail ->
  exists tr,
    tick cfg T i
    = (tr ++ [LogErr 0 (MNotifyError detail); Sleep WAITTIME],
       Ok (add_int (rearm cfg T u) THRESHOLD)).
Proof.
  intros Hu Hg Hgt Hp Hr.
  rewrite (tick_sampled cfg T i u g Hu Hg), fire_check_cases, Hgt, Hp, Hr.
  cbv zeta. unfold trace, outcome_of. cbn [fst snd].
  eexists [_; _; _]. reflexivity.
Qed.

(** C4 (evaluated on the code). [send_vram_warning] has no handler for the
    [FileNotFoundError] of a missing [notify-send]: the exception leaves the
    loop, the process ends with a traceback, and the next iteration never
    runs. *)
Theorem missing_notifier_ends_the_loop :
  (forall text,
      send_vram_warning text NFileNotFound
      = ([Print ("Warning! " ++ text)%string; RunNotifySend text],
         Stop (Uncaught FileNotFoundError)))
  /\ start_monitoring default_config
       [ {| usage_q := smi 5000; temp_q := smi 60; notify_r := NFileNotFound |};
         healthy 5000 60 ]
     = ([LogMess 0 (MUsageLine 5000 60);
         Print "Warning! VRAM usage critical! 5000/2048Mib, (244%)";
         RunNotifySend "VRAM usage critical! 5000/2048Mib, (244%)"],
        Stop (Uncaught FileNotFoundError))
  /\ exit_code (Uncaught FileNotFoundError) = 1.
Proof.
  split; [reflexivity |]. split; [vm_compute; reflexivity | reflexivity].
Qed.

(** ** Failing queries and the end of the process *)

(** Inside the loop a failed query, of either kind and for either reading,
    is logged and ends the process, and so does a missing tool at
    start-up. *)
Lemma loop_query_errors_are_fatal (cfg : config) (T : num) (i : tick_input)
    (rest : list tick_input) :
  (forall text, usage_q i <> QOutput text)
  \/ ((exists u, usage_of i = Some u) /\ forall text, temp_q i <> QOutput text) ->
  exists m,
    metrics_failure m = true
    /\ monitor_loop cfg T (i :: rest) = ([LogErr 0 m], Stop sys_exit).
Proof.
  intro H. cbn [monitor_loop].
  destruct (tick_cases cfg T i) as [(u & g & Hu & Hg) | [Ht | (m & Hm & Ht)]].
  - exfalso. destruct H as [H | [_ H]].
    + unfold usage_of in Hu. destruct (usage_q i) as [text | |]; try discriminate.
      now apply (H text).
    + destruct (temp_q i) as [text | |]; try discriminate. now apply (H text).
  - exfalso. unfold tick in Ht. destruct H as [H | [[u Hu] H]].
    + destruct (usage_q i) as [text | |]; try discriminate. now apply (H text).
    + unfold usage_of in Hu.
      destruct (usage_q i) as [text | |]; try discriminate.
      unfold get_vram_usage in Ht. rewrite Hu in Ht. unfold ret in Ht.
      rewrite bind_ret_l in Ht.
      destruct (temp_q i) as [text' | |]; try discriminate. now apply (H text').
  - exists m. split; [exact Hm |]. now rewrite Ht.
Qed.

Lemma startup_missing_tool_is_fatal (cfg : config) (w : world) :
  name_q w = QFileNotFound
  \/ ((exists name, name_q w = QOutput name) /\ total_q w = QFileNotFound) ->
  exists tr,
    update_variables cfg w = (tr ++ [LogErr 1 MGatherNoDriver], Stop sys_exit).
Proof.
  unfold update_variables. intros [H | [[name Hn] Ht]].
  - rewrite H. now exists [LogMess 0 MAttempt].
  - rewrite Hn, Ht. now exists [LogMess 0 MAttempt; LogMess 1 (MDetectedGPU (strip name))].
Qed.

(** C7 (evaluated on the code). A start-up query that runs and fails is
    logged by [update_variables], which then returns: the settings keep
    their shipped values and [main] goes on into the loop. *)
Theorem startup_tool_error_is_not_fatal :
  (forall cfg detail tq inputs,
      update_variables cfg
        {| name_q := QCalledProcessError detail; total_q := tq; ticks := inputs |}
      = ([LogMess 0 MAttempt; LogErr 1 (MGatherFailed detail)], Ok cfg))
  /\ (forall cfg name detail inputs,
         update_variables cfg
           {| name_q := QOutput name; total_q := QCalledProcessError detail;
              ticks := inputs |}
         = ([LogMess 0 MAttempt; LogMess 1 (MDetectedGPU (strip name));
             LogErr 1 (MGatherFailed detail)], Ok cfg))
  /\ main true {| name_q := QCalledProcessError "exit status 9";
                  total_q := QCalledProcessError "exit status 9";
                  ticks := [healthy 1000 60; healthy 5000 60] |}
     = ([LogMess 0 MAttempt; LogErr 1 (MGatherFailed "exit status 9");
         LogMess 0 (MUsageLine 1000 60); Sleep 2;
         LogMess 0 (MUsageLine 5000 60);
         Print "Warning! VRAM usage critical! 5000/2048Mib, (244%)";
         RunNotifySend "VRAM usage critical! 5000/2048Mib, (244%)";
         Sleep 2],
        Ok (PyInt 3880)).
Proof.
  split; [reflexivity |]. split; [reflexivity |]. vm_compute. reflexivity.
Qed.

(** C8 (as stated, refuted). When [nvidia-smi] is missing at the first
    reading the process logs the error and ends with exit status 0. *)
Lemma missing_tool_exits_with_status_0 :
  main false {| name_q := QFileNotFound; total_q := QFileNotFound;
                ticks := [ {| usage_q := QFileNotFound; temp_q := QFileNotFound;
                              notify_r := NDelivered |} ] |}
  = ([LogWarn 0 MNoAuto; LogErr 0 MUsageNoTool], Stop (Exited 0))
  /\ ~ (forall auto w o, outcome_of (main auto w) = Stop o -> exit_code o <> 0).
Proof.
  split; [reflexivity |].
  intro H.
  apply (H false {| name_q := QFileNotFound; total_q := QFileNotFound;
                    ticks := [ {| usage_q := QFileNotFound; temp_q := QFileNotFound;
                                  notify_r := NDelivered |} ] |} (Exited 0));
    reflexivity.
Qed.

Lemma monitor_loop_exit (cfg : config) (inputs : list tick_input) :
  forall T tr status,
    monitor_loop cfg T inputs = (tr, Stop (Exited status)) ->
    status = 0
    /\ exists tr' m, tr = tr' ++ [LogErr 0 m] /\ metrics_failure m = true.
Proof.
  induction inputs as [|i rest IH]; intros T tr status H; [discriminate |].
  cbn [monitor_loop] in H. apply bind_Stop in H.
  destruct H as [H | (tr1 & T1 & tr2 & _ & H & ->)].
  - destruct (tick_cases cfg T i) as [(u & g & Hu & Hg) | [Ht | (m & Hm & Ht)]].
    + rewrite (tick_sampled cfg T i u g Hu Hg), fire_check_cases in H.
      exfalso. unfold trace, outcome_of in H.
      destruct (gtb (PyInt u) (add_int (rearm cfg T u) THRESHOLD)); [| discriminate].
      destruct (percent u (VRAM_TOTAL cfg)); [discriminate |].
      cbv zeta in H. destruct (notify_r i); discriminate.
    + rewrite Ht in H. discriminate.
    + rewrite Ht in H. inversion H; subst. split; [reflexivity |].
      now exists [], m.
  - apply IH in H. destruct H as (-> & tr' & m & -> & Hm).
    split; [reflexivity |]. exists (tr1 ++ tr'), m. now rewrite app_assoc.
Qed.

Lemma update_variables_exit (cfg : config) (w : world) (tr : list event)
    (status : Z) :
  update_variables cfg w = (tr, Stop (Exited status)) ->
  status = 0
  /\ exists tr' m, tr = tr' ++ [LogErr 1 m] /\ metrics_failure m = true.
Proof.
  unfold update_variables.
  destruct (name_q w) as [name | detail |]; try discriminate.
  - destruct (total_q w) as [text | detail |]; try discriminate.
    + destruct (int_of_str (strip text)) as [total |]; [| discriminate].
      destruct (int_mul_float total point_nine); discriminate.
    + intro H. inversion H; subst. split; [reflexivity |].
      now exists [LogMess 0 MAttempt; LogMess 1 (MDetectedGPU (strip name))],
                 MGatherNoDriver.
  - intro H. inversion H; subst. split; [reflexivity |].
    now exists [LogMess 0 MAttempt], MGatherNoDriver.
Qed.

(** C8 (amended). Whenever the process ends through [sys.exit()], its exit
    status is 0 and the last thing it did was to log the failure of an
    [nvidia-smi] query; it ends with a non-zero status only through an
    exception nobody handles, and an answer without a number is such a
    case: [AttributeError], status 1, nothing logged. *)
Theorem exit_status_by_cause :
  (forall auto w o,
      outcome_of (main auto w) = Stop o ->
      match o with
      | Exited status =>
          status = 0
          /\ exists tr layer m,
               trace (main auto w) = tr ++ [LogErr layer m]
               /\ metrics_failure m = true
      | Uncaught _ => exit_code o = 1
      end)
  /\ (forall cfg T i rest text,
         usage_q i = QOutput text -> first_number text = None ->
         monitor_loop cfg T (i :: rest) = ([], Stop (Uncaught AttributeError)))
  /\ (forall cfg T i rest u text,
         usage_of i = Some u ->
         temp_q i = QOutput text -> first_number text = None ->
         monitor_loop cfg T (i :: rest) = ([], Stop (Uncaught AttributeError))).
Proof.
  split; [| split].
  - intros auto w o H. destruct o as [status | e]; [| reflexivity].
    destruct (main auto w) as [tr r] eqn:Hmain.
    unfold outcome_of in H. cbn [snd] in H. subst r.
    unfold trace. cbn [fst]. unfold main in Hmain. apply bind_Stop in Hmain.
    destruct Hmain as [H | (tr1 & cfg & tr2 & _ & H & ->)].
    + destruct auto; [| discriminate].
      apply update_variables_exit in H. destruct H as (-> & tr' & m & -> & Hm).
      split; [reflexivity |]. now exists tr', 1%nat, m.
    + apply monitor_loop_exit in H. destruct H as (-> & tr' & m & -> & Hm).
      split; [reflexivity |]. exists (tr1 ++ tr'), 0%nat, m.
      now rewrite app_assoc.
  - intros cfg T i rest text Hq Hn. cbn [monitor_loop]. unfold tick.
    rewrite Hq. unfold get_vram_usage. now rewrite Hn.
  - intros cfg T i rest u text Hu Hq Hn. cbn [monitor_loop]. unfold tick.
    unfold usage_of in Hu. destruct (usage_q i) as [text' | |]; try discriminate.
    unfold get_vram_usage. rewrite Hu. unfold ret. rewrite bind_ret_l.
    rewrite Hq. unfold get_temp. now rewrite Hn.
Qed.

Lemma exit_status_by_cause_witness :
  0 = 0
  /\ exists tr layer m,
       trace (main true {| name_q := QOutput "GeForce";
                           total_q := QFileNotFound; ticks := [] |})
       = tr ++ [LogErr layer m]
       /\ metrics_failure m = true.
Proof.
  apply (proj1 exit_status_by_cause true
           {| name_q := QOutput "GeForce"; total_q := QFileNotFound; ticks := [] |}
           (Exited 0)).
  reflexivity.
Defined.

(** ** The loop keeps running on sound answers *)

Lemma usage_of_nonneg (i : tick_input) (u : Z) : usage_of i = Some u -> 0 <= u.
Proof.
  unfold usage_of. destruct (usage_q i) as [text | |]; try discriminate.
  apply first_number_nonneg.
Qed.

Lemma tick_runs (ceiling capacity : Z) (T : num) (i : tick_input) :
  0 < capacity -> sound i ->
  exists tr u,
    usage_of i = Some u
    /\ tick (int_config ceiling capacity) T i
       = (tr, Ok (step (int_config ceiling capacity) T u)).
Proof.
  intros Hcap ((u & Hu & Hbig) & (g & Hg) & Hr).
  pose proof (usage_of_nonneg i u Hu) as Hu0.
  destruct (FloatBounds.percent_total u capacity ltac:(lia) Hcap) as (pct & Hp & _).
  assert (Ho : outcome_of (tick (int_config ceiling capacity) T i)
               = Ok (step (int_config ceiling capacity) T u)).
  { rewrite (tick_sampled _ T i u g Hu Hg), fire_check_cases.
    cbn [VRAM_TOTAL int_config]. rewrite Hp. unfold step. cbv zeta.
    destruct (gtb (PyInt u)
                (add_int (rearm (int_config ceiling capacity) T u) THRESHOLD));
      [| reflexivity].
    unfold outcome_of. cbn [snd]. destruct (notify_r i); try contradiction; reflexivity. }
  exists (trace (tick (int_config ceiling capacity) T i)), u.
  split; [exact Hu |].
  destruct (tick (int_config ceiling capacity) T i) as [tr r].
  unfold outcome_of in Ho. cbn [snd] in Ho. now subst r.
Qed.

Lemma monitor_loop_runs (ceiling capacity : Z) (inputs : list tick_input) :
  0 < capacity -> Forall sound inputs ->
  forall T,
  exists tr samples,
    map usage_of inputs = map Some samples
    /\ monitor_loop (int_config ceiling capacity) T inputs
       = (tr, Ok (fold_left (step (int_config ceiling capacity)) samples T)).
Proof.
  intros Hcap Hall. induction Hall as [|i rest Hi _ IH]; intro T.
  - now exists [], [].
  - destruct (tick_runs ceiling capacity T i Hcap Hi) as (tr1 & u & Hu & Ht).
    destruct (IH (step (int_config ceiling capacity) T u)) as (tr2 & samples & Hs & Hl).
    exists (tr1 ++ tr2), (u :: samples). split.
    + cbn [map]. now rewrite Hu, Hs.
    + cbn [monitor_loop fold_left]. rewrite Ht. unfold bind. now rewrite Hl.
Qed.

(** ** After auto-detection

    With 8192 MiB detected the ceiling is the float 8192 * .9 and the
    threshold starts strictly between 7352 and 7353; a sample of 7500 then
    fires, one of 7400 does not. *)
Lemma autodetect_8192_example :
  let w := {| name_q := QOutput "NVIDIA GeForce"; total_q := QOutput "8192";
              ticks := [] |} in
  exists cfg,
    outcome_of (update_variables default_config w) = Ok cfg
    /\ VRAM_TOTAL cfg = 8192
    /\ ltb (PyInt 7352) (initial_threshold cfg) = true
    /\ ltb (initial_threshold cfg) (PyInt 7353) = true
    /\ notified (trace (start_monitoring cfg [healthy 7400 60])) = []
    /\ notified (trace (start_monitoring cfg [healthy 7500 60]))
       = ["VRAM usage critical! 7500/8192Mib, (91%)"].
Proof.
  eexists. split; [vm_compute; reflexivity |]. vm_compute. repeat split.
Qed.

(** On sound answers the texts handed to [notify-send] are the [warnings]
    of the samples read. *)
Lemma monitor_loop_notified (ceiling capacity : Z) (inputs : list tick_input) :
  0 < capacity -> Forall sound inputs ->
  forall T samples,
    map usage_of inputs = map Some samples ->
    notified (trace (monitor_loop (int_config ceiling capacity) T inputs))
    = warnings (int_config ceiling capacity) T samples.
Proof.
  intros Hcap Hall. induction Hall as [|i rest Hi _ IH]; intros T samples Hs.
  - destruct samples; [reflexivity | discriminate].
  - destruct samples as [|u samples]; [discriminate |].
    cbn [map] in Hs. injection Hs as Hu Hs.
    destruct (tick_runs ceiling capacity T i Hcap Hi) as (tr1 & u' & Hu' & Ht).
    assert (u' = u) by congruence. subst u'.
    cbn [monitor_loop warnings]. rewrite trace_bind, notified_app.
    unfold outcome_of at 1. rewrite Ht at 2. cbn [snd].
    rewrite (IH _ samples Hs). f_equal.
    destruct Hi as ((u0 & Hu0 & Hbig) & (g & Hg) & Hr).
    assert (u0 = u) by congruence. subst u0.
    pose proof (usage_of_nonneg i u Hu) as Hnn.
    destruct (FloatBounds.percent_total u capacity ltac:(lia) Hcap) as (pct & Hp & _).
    rewrite (tick_sampled _ T i u g Hu Hg), fire_check_cases.
    cbn [VRAM_TOTAL int_config]. rewrite Hp.
    destruct (gtb (PyInt u)
                (add_int (rearm (int_config ceiling capacity) T u) THRESHOLD));
      [| reflexivity].
    unfold trace, outcome_of. cbn [fst snd].
    destruct (notify_r i); try contradiction; reflexivity.
Qed.

Lemma sound_firstn (n : nat) (inputs : list tick_input) :
  Forall sound inputs -> Forall sound (firstn n inputs).
Proof.
  intro H. revert n. induction H as [|i rest Hi _ IH]; intro n.
  - now destruct n.
  - destruct n as [|n]; cbn [firstn]; constructor; [exact Hi | apply IH].
Qed.

(** C9. With capacity 8192, ceiling 3800 and step 100, whatever the
    temperatures read and whether or not [notify-send] succeeds when it
    runs, the samples 3000, 3850, 3950, 3700, 3650 give no warning after
    the first two samples, one warning once 3950 is read, and no further
    warning after 3700 and 3650; its text contains 3950/8192 and 48%. *)
Theorem scenario_one_warning_at_3950 (inputs : list tick_input) :
  Forall sound inputs ->
  map usage_of inputs = map Some scenario_samples ->
  let text := "VRAM usage critical! 3950/8192Mib, (48%)" in
  map (fun n => notified (trace (start_monitoring (int_config 3800 8192)
                                   (firstn n inputs))))
    [0; 1; 2; 3; 4; 5]%nat
  = [[]; []; []; [text]; [text]; [text]]
  /\ contains "3950/8192" text = true
  /\ contains "48%" text = true.
Proof.
  intros Hall Hs text. split; [| split; reflexivity].
  assert (Hn : forall n,
             notified (trace (start_monitoring (int_config 3800 8192)
                                (firstn n inputs)))
             = warnings (int_config 3800 8192)
                 (initial_threshold (int_config 3800 8192))
                 (firstn n scenario_samples)).
  { intro n. unfold start_monitoring.
    apply monitor_loop_notified; [lia | now apply sound_firstn |].
    now rewrite <- !firstn_map, Hs. }
  cbn [map]. rewrite !Hn. vm_compute. reflexivity.
Qed.

Lemma scenario_one_warning_at_3950_witness :
  map (fun n => notified (trace (scenario_run n))) [0; 1; 2; 3; 4; 5]%nat
  = [[]; []; [];
     ["VRAM usage critical! 3950/8192Mib, (48%)"];
     ["VRAM usage critical! 3950/8192Mib, (48%)"];
     ["VRAM usage critical! 3950/8192Mib, (48%)"]].
Proof.
  assert (Hsound : Forall sound (map (fun u => healthy u 60) scenario_samples)).
  { repeat constructor;
      try (eexists; split; [vm_compute; reflexivity | vm_compute; reflexivity]);
      try (eexists; vm_compute; reflexivity);
      discriminate. }
  destruct (scenario_one_warning_at_3950
              (map (fun u => healthy u 60) scenario_samples) Hsound)
    as [Hlist _].
  - vm_compute. reflexivity.
  - unfold scenario_run.
    rewrite <- Hlist. cbn [map]. rewrite <- !firstn_map. reflexivity.
Defined.

(** The same scenario on answers written out: the whole trace. *)
Lemma scenario_trace :
  scenario_run 5
  = ([LogMess 0 (MUsageLine 3000 60); Sleep 2;
      LogMess 0 (MUsageLine 3850 60); Sleep 2;
      LogMess 0 (MUsageLine 3950 60);
      Print "Warning! VRAM usage critical! 3950/8192Mib, (48%)";
      RunNotifySend "VRAM usage critical! 3950/8192Mib, (48%)";
      Sleep 2;
      LogMess 0 (MUsageLine 3700 60); Sleep 2;
      LogMess 0 (MUsageLine 3650 60); Sleep 2],
     Ok (PyInt 3780)).
Proof. vm_compute. reflexivity. Qed.

(** * Further properties of the code *)

(** ** The two checks together *)

Lemma tick_int_sampled (ceiling capacity t : Z) (i : tick_input) (u g : Z) :
  usage_of i = Some u ->
  get_temp (temp_q i) = ([], Ok g) ->
  let cfg := int_config ceiling capacity in
  let armed := rearm_int ceiling t u in
  tick cfg (PyInt t) i
  = if armed + THRESHOLD <? u then
      match percent u capacity with
      | inl e => ([LogMess 0 (MUsageLine u g)], Stop (Uncaught e))
      | inr pct =>
          let text := warning_text u capacity pct in
          match notify_r i with
          | NDelivered =>
              ([LogMess 0 (MUsageLine u g); Print ("Warning! " ++ text)%string;
                RunNotifySend text; Sleep WAITTIME],
               Ok (PyInt (armed + THRESHOLD)))
          | NCalledProcessError detail =>
              ([LogMess 0 (MUsageLine u g); Print ("Warning! " ++ text)%string;
                RunNotifySend text; LogErr 0 (MNotifyError detail); Sleep WAITTIME],
               Ok (PyInt (armed + THRESHOLD)))
          | NFileNotFound =>
              ([LogMess 0 (MUsageLine u g); Print ("Warning! " ++ text)%string;
                RunNotifySend text],
               Stop (Uncaught FileNotFoundError))
          end
      end
    else ([LogMess 0 (MUsageLine u g); Sleep WAITTIME], Ok (PyInt armed)).
Proof.
  intros Hu Hg cfg armed. subst cfg armed.
  rewrite (tick_sampled _ _ i u g Hu Hg), fire_check_cases, rearm_int_config.
  cbn [add_int VRAM_TOTAL int_config]. rewrite gtb_int.
  destruct (rearm_int ceiling t u + THRESHOLD <? u); [| reflexivity].
  destruct (percent u capacity) as [e | pct]; [reflexivity |].
  destruct (notify_r i); reflexivity.
Qed.

(** X1. On an integer threshold an iteration never both lowers the
    threshold and warns: if it raises an alert it leaves the threshold one
    step higher, if it leaves it one step lower it raised no alert, and it
    never moves it by anything else. *)
Theorem rearm_and_fire_exclusive (ceiling capacity t : Z) (i : tick_input)
    (tr : list event) (T' : num) :
  tick (int_config ceiling capacity) (PyInt t) i = (tr, Ok T') ->
  (alerts tr <> [] -> T' = PyInt (t + THRESHOLD))
  /\ (T' = PyInt (t - THRESHOLD) -> alerts tr = [])
  /\ (T' = PyInt t \/ T' = PyInt (t + THRESHOLD) \/ T' = PyInt (t - THRESHOLD)).
Proof.
  intro H.
  destruct (tick_cases (int_config ceiling capacity) (PyInt t) i)
    as [(u & g & Hu & Hg) | [Hs | (m & _ & Hs)]];
    try (rewrite Hs in H; discriminate).
  rewrite (tick_int_sampled ceiling capacity t i u g Hu Hg) in H. cbv zeta in H.
  destruct (rearm_int ceiling t u + THRESHOLD <? u) eqn:Hfire.
  - apply Z.ltb_lt in Hfire.
    assert (Harm : rearm_int ceiling t u = t) by (revert Hfire; split_checks).
    rewrite Harm in H.
    destruct (percent u capacity) as [e | pct]; [discriminate |].
    destruct (notify_r i); inversion H; subst; (split; [| split]);
      try (intros; reflexivity); try (right; left; reflexivity);
      intro Heq; injection Heq; unfold THRESHOLD; lia.
  - inversion H; subst. split; [| split].
    + intro Hne. now contradiction Hne.
    + reflexivity.
    + revert Hfire. unfold rearm_int, THRESHOLD.
      destruct ((u <? t - 100) && (ceiling <=? t)); intros _; tauto.
Qed.

(** X2. While every sample read lies within one step of an integer
    threshold, in either direction, the loop raises no alert and leaves the
    threshold where it is, however long this lasts. *)
Theorem dead_zone_is_silent (ceiling capacity t : Z) (inputs : list tick_input) :
  Forall (fun i => forall u, usage_of i = Some u ->
                             t - THRESHOLD <= u <= t + THRESHOLD) inputs ->
  let run := monitor_loop (int_config ceiling capacity) (PyInt t) inputs in
  alerts (trace run) = []
  /\ forall T', outcome_of run = Ok T' -> T' = PyInt t.
Proof.
  intro Hall. induction Hall as [|i rest Hi _ IH]; cbv zeta.
  - split; [reflexivity |]. intros T' H. now inversion H.
  - cbn [monitor_loop]. rewrite trace_bind, outcome_bind, alerts_app.
    destruct (tick_cases (int_config ceiling capacity) (PyInt t) i)
      as [(u & g & Hu & Hg) | [Hs | (m & _ & Hs)]];
      try (rewrite Hs; split; [reflexivity | discriminate]).
    rewrite (tick_int_sampled ceiling capacity t i u g Hu Hg). cbv zeta.
    specialize (Hi u Hu).
    assert (Harm : rearm_int ceiling t u = t) by (revert Hi; split_checks).
    rewrite Harm.
    destruct (Z.ltb_spec (t + THRESHOLD) u) as [Hlt | _]; [lia |].
    unfold trace at 1, outcome_of at 1 3. cbn [fst snd]. exact IH.
Qed.

(** X4. From a threshold [k] steps above its starting value, samples
    below [ceiling - 20] raise no alert and lower the threshold by exactly
    one step per iteration until it is back at [ceiling - 20], where it
    stays. *)
Theorem low_usage_rearms_step_by_step (ceiling capacity k : Z)
    (inputs : list tick_input) :
  0 <= k ->
  Forall (fun i => forall u, usage_of i = Some u -> u < ceiling - 20) inputs ->
  let run := monitor_loop (int_config ceiling capacity)
               (PyInt (ceiling - 20 + k * THRESHOLD)) inputs in
  alerts (trace run) = []
  /\ forall T', outcome_of run = Ok T' ->
                T' = PyInt (ceiling - 20
                            + Z.max 0 (k - Z.of_nat (List.length inputs)) * THRESHOLD).
Proof.
  intros Hk Hall. revert k Hk. induction Hall as [|i rest Hi _ IH]; intros k Hk; cbv zeta.
  - split; [reflexivity |]. intros T' H. inversion H. f_equal. cbn [List.length]. unfold THRESHOLD. lia.
  - cbn [monitor_loop]. rewrite trace_bind, outcome_bind, alerts_app.
    destruct (tick_cases (int_config ceiling capacity)
                (PyInt (ceiling - 20 + k * THRESHOLD)) i)
      as [(u & g & Hu & Hg) | [Hs | (m & _ & Hs)]];
      try (rewrite Hs; split; [reflexivity | discriminate]).
    rewrite (tick_int_sampled ceiling capacity _ i u g Hu Hg). cbv zeta.
    specialize (Hi u Hu).
    assert (Harm : rearm_int ceiling (ceiling - 20 + k * THRESHOLD) u
                   = ceiling - 20 + Z.max 0 (k - 1) * THRESHOLD)
      by (revert Hi; split_checks).
    rewrite Harm.
    destruct (Z.ltb_spec (ceiling - 20 + Z.max 0 (k - 1) * THRESHOLD + THRESHOLD) u)
      as [Hlt | _]; [unfold THRESHOLD in Hlt; lia |].
    unfold trace at 1, outcome_of at 1 3. cbn [fst snd app alerts filter is_alert].
    destruct (IH (Z.max 0 (k - 1)) ltac:(lia)) as [Ha Ho]. split; [exact Ha |].
    intros T' H. rewrite (Ho T' H). f_equal. cbn [List.length]. unfold THRESHOLD. lia.
Qed.

Lemma fold_step_int_grid_bound (ceiling : Z) (samples : list Z) :
  forall k, 0 <= k ->
    exists k', 0 <= k' /\ Z.abs (k' - k) <= Z.of_nat (List.length samples)
               /\ fold_left (step_int ceiling) samples (ceiling - 20 + k * THRESHOLD)
                  = ceiling - 20 + k' * THRESHOLD.
Proof.
  induction samples as [|u samples IH]; intros k Hk; cbn [fold_left List.length].
  - exists k. repeat split; lia.
  - assert (Hstep : exists k1, 0 <= k1 /\ Z.abs (k1 - k) <= 1
                               /\ step_int ceiling (ceiling - 20 + k * THRESHOLD) u
                                  = ceiling - 20 + k1 * THRESHOLD).
    { destruct (step_int_moves ceiling (ceiling - 20 + k * THRESHOLD) u)
        as [H | [H | H]]; rewrite H.
      - exists k. repeat split; lia.
      - exists (k + 1). unfold THRESHOLD. repeat split; lia.
      - exists (k - 1). revert H. split_checks. }
    destruct Hstep as (k1 & Hk1 & Hd & ->).
    destruct (IH k1 Hk1) as (k' & Hk' & Hd' & ->).
    exists k'. repeat split; lia.
Qed.

(** X5. Whenever the loop is still running on an integer ceiling, its
    threshold is [ceiling - 20 + k * THRESHOLD] for some [k] between 0 and
    the number of iterations made. *)
Theorem threshold_on_grid_below_ceiling (ceiling capacity : Z)
    (inputs : list tick_input) (tr : list event) (T : num) :
  start_monitoring (int_config ceiling capacity) inputs = (tr, Ok T) ->
  exists k, 0 <= k <= Z.of_nat (List.length inputs)
            /\ T = PyInt (ceiling - 20 + k * THRESHOLD).
Proof.
  intro H. apply monitor_loop_Ok in H. destruct H as (samples & Hs & ->).
  unfold initial_threshold. cbn [MAX_VRAM_USAGE int_config sub_int].
  rewrite fold_step_int_config.
  destruct (fold_step_int_grid_bound ceiling samples 0 ltac:(lia))
    as (k & Hk & Hd & Heq).
  replace (ceiling - 20 + 0 * THRESHOLD) with (ceiling - 20) in Heq by lia.
  assert (Hlen : List.length samples = List.length inputs).
  { rewrite <- (List.length_map Some samples), <- Hs. apply List.length_map. }
  exists k. rewrite Heq, <- Hlen. split; [lia | reflexivity].
Qed.

Lemma int_loop_warnings (ceiling capacity : Z) (inputs : list tick_input)
    (text : string) :
  forall t,
    (exists k, 0 <= k /\ t = ceiling - 20 + k * THRESHOLD) ->
    In text (notified (trace (monitor_loop (int_config ceiling capacity)
                                (PyInt t) inputs))) ->
    exists u pct,
      ceiling + 80 < u /\ In (Some u) (map usage_of inputs)
      /\ percent u capacity = inr pct /\ text = warning_text u capacity pct.
Proof.
  induction inputs as [|i rest IH]; intros t Ht Hin; [contradiction |].
  cbn [monitor_loop] in Hin. rewrite trace_bind, notified_app in Hin.
  apply in_app_or in Hin. destruct Hin as [Hin | Hin].
  - apply notified_tick in Hin. destruct Hin as (u & pct & Hu & Hgt & Hp & ->).
    rewrite rearm_int_config in Hgt. cbn [add_int] in Hgt.
    rewrite gtb_int in Hgt. apply Z.ltb_lt in Hgt.
    exists u, pct. split.
    { destruct Ht as (k & Hk & ->). revert Hgt. split_checks. }
    split; [left; now symmetry |]. now split.
  - destruct (outcome_of (tick (int_config ceiling capacity) (PyInt t) i))
      as [T' | o] eqn:Ho; [| contradiction].
    destruct (tick (int_config ceiling capacity) (PyInt t) i) as [tr r] eqn:Htick.
    unfold outcome_of in Ho. cbn [snd] in Ho. subst r.
    apply tick_Ok in Htick. destruct Htick as (u & _ & ->).
    rewrite step_int_config in Hin.
    destruct (IH (step_int ceiling t u) (step_int_grid ceiling t u Ht) Hin)
      as (u' & pct & H1 & H2 & H3 & H4).
    exists u', pct. split; [exact H1 |]. split; [right; exact H2 | now split].
Qed.

(** X6. On an integer ceiling every text handed to [notify-send] is the
    warning of a sample that was read and lies above [ceiling + 80]; usage
    between the ceiling and [ceiling + 80] is never warned about. *)
Theorem warnings_only_above_ceiling_plus_80 (ceiling capacity : Z)
    (inputs : list tick_input) (text : string) :
  In text (notified (trace (start_monitoring (int_config ceiling capacity) inputs))) ->
  exists u pct,
    ceiling + 80 < u /\ In (Some u) (map usage_of inputs)
    /\ percent u capacity = inr pct /\ text = warning_text u capacity pct.
Proof.
  apply int_loop_warnings. exists 0. lia.
Qed.

Lemma sustained_usage_steps (ceiling capacity u pct : Z) :
  percent u capacity = inr pct ->
  forall n t,
    t < ceiling \/ t - THRESHOLD <= u ->
    let k := Z.min (Z.of_nat n) (Z.max 0 ((u - t - 1) / THRESHOLD)) in
    fold_left (step_int ceiling) (repeat u n) t = t + k * THRESHOLD
    /\ warnings (int_config ceiling capacity) (PyInt t) (repeat u n)
       = repeat (warning_text u capacity pct) (Z.to_nat k).
Proof.
  intros Hp. induction n as [|n IH]; intros t Ht; cbv zeta.
  - cbn [repeat fold_left warnings].
    replace (Z.min (Z.of_nat 0) (Z.max 0 ((u - t - 1) / THRESHOLD))) with 0
      by (generalize ((u - t - 1) / THRESHOLD); intros; lia).
    split; [lia | reflexivity].
  - cbn [repeat fold_left warnings].
    rewrite rearm_int_config, step_int_config. cbn [add_int VRAM_TOTAL int_config].
    rewrite gtb_int, Hp.
    assert (Harm : rearm_int ceiling t u = t) by (revert Ht; split_checks).
    assert (Hstep : step_int ceiling t u
                    = if t + THRESHOLD <? u then t + THRESHOLD else t)
      by (unfold step_int; now rewrite Harm).
    rewrite Harm, Hstep.
    destruct (Z.ltb_spec (t + THRESHOLD) u) as [Hfire | Hquiet].
    + destruct (IH (t + THRESHOLD)) as [Hfold Hwarn]; [right; unfold THRESHOLD in *; lia |].
      cbv zeta in Hfold, Hwarn. rewrite Hfold, Hwarn.
      assert (Hq : (u - (t + THRESHOLD) - 1) / THRESHOLD = (u - t - 1) / THRESHOLD - 1)
        by (unfold THRESHOLD in *; Z.div_mod_to_equations; lia).
      assert (Hq1 : 1 <= (u - t - 1) / THRESHOLD)
        by (unfold THRESHOLD in *; Z.div_mod_to_equations; lia).
      rewrite Hq. clear Hq Hfold Hwarn.
      generalize dependent ((u - t - 1) / THRESHOLD). intros q Hq1.
      replace (Z.min (Z.of_nat (S n)) (Z.max 0 q))
        with (Z.min (Z.of_nat n) (Z.max 0 (q - 1)) + 1) by lia.
      split; [unfold THRESHOLD; lia |].
      rewrite Z2Nat.inj_add by lia. change (Z.to_nat 1) with 1%nat.
      rewrite Nat.add_1_r. reflexivity.
    + destruct (IH t Ht) as [Hfold Hwarn].
      cbv zeta in Hfold, Hwarn. rewrite Hfold, Hwarn.
      assert (Hq : (u - t - 1) / THRESHOLD <= 0)
        by (unfold THRESHOLD in *; Z.div_mod_to_equations; lia).
      clear Hfold Hwarn.
      generalize dependent ((u - t - 1) / THRESHOLD). intros q Hq.
      replace (Z.min (Z.of_nat (S n)) (Z.max 0 q)) with 0 by lia.
      replace (Z.min (Z.of_nat n) (Z.max 0 q)) with 0 by lia.
      split; [lia | reflexivity].
Qed.

(** X3. A usage [u] that stays the same is warned about once per
    iteration until the threshold has caught up, and never again: from
    the start of monitoring that is [(u - ceiling + 19) / THRESHOLD]
    warnings (none when this is negative), all with the same text, and the
    threshold ends that many steps above [ceiling - 20]. *)
Theorem sustained_usage_warnings (ceiling capacity u pct : Z)
    (inputs : list tick_input) :
  0 < capacity ->
  percent u capacity = inr pct ->
  Forall sound inputs ->
  Forall (fun i => usage_of i = Some u) inputs ->
  let k := Z.min (Z.of_nat (List.length inputs))
             (Z.max 0 ((u - ceiling + 19) / THRESHOLD)) in
  let run := start_monitoring (int_config ceiling capacity) inputs in
  notified (trace run) = repeat (warning_text u capacity pct) (Z.to_nat k)
  /\ outcome_of run = Ok (PyInt (ceiling - 20 + k * THRESHOLD)).
Proof.
  intros Hcap Hp Hsound Hall k run.
  assert (Hs : map usage_of inputs = map Some (repeat u (List.length inputs))).
  { clear Hsound k run. induction Hall as [|i rest Hi _ IH]; [reflexivity |].
    cbn [map List.length repeat]. now rewrite Hi, IH. }
  destruct (sustained_usage_steps ceiling capacity u pct Hp (List.length inputs)
              (ceiling - 20) ltac:(left; lia)) as [Hfold Hwarn].
  cbv zeta in Hfold, Hwarn.
  replace (u - (ceiling - 20) - 1) with (u - ceiling + 19) in * by lia.
  fold k in Hfold, Hwarn. subst run. unfold start_monitoring, initial_threshold.
  cbn [MAX_VRAM_USAGE int_config sub_int]. split.
  - rewrite (monitor_loop_notified ceiling capacity inputs Hcap Hsound _ _ Hs).
    exact Hwarn.
  - destruct (monitor_loop_runs ceiling capacity inputs Hcap Hsound
                (PyInt (ceiling - 20))) as (tr & samples & Hs' & Hrun).
    rewrite Hrun. unfold outcome_of. cbn [snd].
    assert (samples = repeat u (List.length inputs)).
    { rewrite Hs in Hs'. clear -Hs'. revert samples Hs'.
      induction (repeat u (List.length inputs)) as [|a l IH]; intros [|b samples] H;
        try discriminate; [reflexivity |].
      cbn [map] in H. injection H as -> H. f_equal. now apply IH. }
    subst samples. rewrite fold_step_int_config, Hfold. reflexivity.
Qed.

(** ** One pause and one usage line per iteration *)

Lemma filter_fire_check (cfg : config) (T : num) (u : Z) (r : notify_result) :
  filter is_sleep (trace (fire_check cfg T u r)) = []
  /\ filter is_usage_line (trace (fire_check cfg T u r)) = [].
Proof.
  rewrite fire_check_cases.
  destruct (gtb (PyInt u) (add_int T THRESHOLD)); [| now split].
  destruct (percent u (VRAM_TOTAL cfg)); [now split |].
  destruct r; now split.
Qed.

Lemma tick_sleep_and_line (cfg : config) (T : num) (i : tick_input) :
  match outcome_of (tick cfg T i) with
  | Ok _ =>
      filter is_sleep (trace (tick cfg T i)) = [Sleep WAITTIME]
      /\ List.length (filter is_usage_line (trace (tick cfg T i))) = 1%nat
  | Stop _ =>
      filter is_sleep (trace (tick cfg T i)) = []
      /\ (List.length (filter is_usage_line (trace (tick cfg T i))) <= 1)%nat
  end.
Proof.
  destruct (tick_cases cfg T i) as [(u & g & Hu & Hg) | [Hs | (m & _ & Hs)]];
    try (rewrite Hs; cbn; split; [reflexivity | lia]).
  rewrite (tick_sampled cfg T i u g Hu Hg).
  pose proof (filter_fire_check cfg (rearm cfg T u) u (notify_r i)) as [Hfs Hfu].
  destruct (fire_check cfg (rearm cfg T u) u (notify_r i)) as [tr [T1 | o]];
    unfold trace, outcome_of in *; cbn [fst snd] in *;
    cbn [filter is_sleep is_usage_line]; rewrite !filter_app, Hfs, Hfu;
    cbn; split; (reflexivity || lia).
Qed.

(** X8. Every pause of the loop lasts [WAITTIME] seconds; a run that is
    still alive has paused and logged the usage exactly once per
    iteration, a run that has ended has paused once per completed
    iteration and logged the usage at most once more. *)
Theorem one_sleep_per_iteration (cfg : config) (inputs : list tick_input) (T : num) :
  let run := monitor_loop cfg T inputs in
  exists n,
    filter is_sleep (trace run) = repeat (Sleep WAITTIME) n
    /\ match outcome_of run with
       | Ok _ =>
           n = List.length inputs
           /\ List.length (filter is_usage_line (trace run)) = n
       | Stop _ =>
           (n < List.length inputs)%nat
           /\ (List.length (filter is_usage_line (trace run)) = n
               \/ List.length (filter is_usage_line (trace run)) = S n)
       end.
Proof.
  cbv zeta. revert T. induction inputs as [|i rest IH]; intro T.
  - exists 0%nat. now split.
  - cbn [monitor_loop]. rewrite trace_bind, outcome_bind, !filter_app.
    pose proof (tick_sleep_and_line cfg T i) as Ht.
    destruct (outcome_of (tick cfg T i)) as [T1 | o].
    + destruct Ht as [Hsl Hul]. destruct (IH T1) as (n & Hn & Hcase).
      exists (S n). rewrite Hsl, Hn, !length_app, Hul. split; [reflexivity |].
      destruct (outcome_of (monitor_loop cfg T1 rest));
        cbn [List.length]; intuition lia.
    + destruct Ht as [Hsl Hul]. exists 0%nat.
      rewrite Hsl, !length_app. cbn [app filter List.length repeat].
      split; [reflexivity |]. split; lia.
Qed.

(** ** Console and notifier *)

(** X9. The alerts of a run are exactly, for each text handed to
    [notify-send] in turn, the console line "Warning! " followed by that
    text and then the call itself: nothing is sent that was not printed
    just before, and nothing is printed as a warning without being
    sent. *)
Theorem console_and_notifier_agree (cfg : config) (inputs : list tick_input) (T : num) :
  alerts (trace (monitor_loop cfg T inputs))
  = flat_map (fun text => [Print ("Warning! " ++ text)%string; RunNotifySend text])
      (notified (trace (monitor_loop cfg T inputs))).
Proof.
  revert T. induction inputs as [|i rest IH]; intro T; [reflexivity |].
  cbn [monitor_loop]. rewrite trace_bind, alerts_app, notified_app, flat_map_app.
  f_equal.
  - destruct (tick_cases cfg T i) as [(u & g & Hu & Hg) | [Hs | (m & _ & Hs)]];
      try (now rewrite Hs).
    rewrite (tick_sampled cfg T i u g Hu Hg), fire_check_cases.
    destruct (gtb (PyInt u) (add_int (rearm cfg T u) THRESHOLD)); [| reflexivity].
    destruct (percent u (VRAM_TOTAL cfg)); [reflexivity |].
    destruct (notify_r i); reflexivity.
  - destruct (outcome_of (tick cfg T i)); [apply IH | reflexivity].
Qed.

(** ** How the percentage can fail, and how the loop can end *)

Lemma shr_fexp_nonneg (m e : Z) (l : location) :
  0 <= m -> 0 <= shr_m (fst (shr_fexp prec emax m e l)).
Proof.
  intro Hm. unfold shr_fexp, shr.
  destruct (fexp prec emax (Zdigits2 m + e) - e) as [| n | n]; cbn [fst];
    rewrite ?FloatBounds.shr_record_of_loc_m; try exact Hm.
  rewrite FloatBounds.iter_shr_1_m by (rewrite FloatBounds.shr_record_of_loc_m; exact Hm).
  rewrite FloatBounds.shr_record_of_loc_m.
  apply Z.div_pos; [exact Hm | apply Z.pow_pos_nonneg; lia].
Qed.

Lemma binary_round_aux_not_nan (s : bool) (m e : Z) (l : location) :
  0 <= m -> binary_round_aux prec emax s m e l <> S754_nan.
Proof.
  intro Hm. unfold binary_round_aux.
  pose proof (shr_fexp_nonneg m e l Hm) as H1.
  destruct (shr_fexp prec emax m e l) as [r1 e1]. cbn [fst] in H1.
  pose proof (FloatBounds.round_nearest_even_ge (shr_m r1) (loc_of_shr_record r1)) as Hr.
  pose proof (shr_fexp_nonneg _ e1 loc_Exact (Z.le_trans _ _ _ H1 Hr)) as H2.
  destruct (shr_fexp prec emax _ e1 loc_Exact) as [r2 e2]. cbn [fst] in H2.
  destruct (shr_m r2) as [| m2 | m2]; try discriminate; try lia.
  destruct (e2 <=? emax - prec); discriminate.
Qed.

Lemma div_core_nonneg (a b : positive) :
  0 <= fst (fst (SFdiv_core_binary prec emax (Zpos a) 0 (Zpos b) 0)).
Proof.
  unfold SFdiv_core_binary.
  set (e' := Z.min _ _).
  destruct (0 - 0 - e') as [| s | s].
  - destruct (Z.div_eucl (Zpos a) (Zpos b)) as [q r] eqn:Hqr. cbn [fst].
    replace q with (Zpos a / Zpos b) by (unfold Z.div; now rewrite Hqr).
    apply Z.div_pos; lia.
  - destruct (Z.div_eucl (Z.shiftl (Zpos a) (Zpos s)) (Zpos b)) as [q r] eqn:Hqr.
    cbn [fst].
    replace q with (Z.shiftl (Zpos a) (Zpos s) / Zpos b)
      by (unfold Z.div; now rewrite Hqr).
    apply Z.div_pos; [| lia]. apply Z.shiftl_nonneg. lia.
  - destruct (Z.div_eucl 0 (Zpos b)) as [q r] eqn:Hqr. cbn [fst].
    replace q with (0 / Zpos b) by (unfold Z.div; now rewrite Hqr).
    apply Z.div_pos; lia.
Qed.

Lemma true_div_errors (u c : Z) (e : exn) :
  true_div u c = inl e ->
  (c = 0 /\ e = ZeroDivisionError) \/ (c <> 0 /\ e = OverflowError).
Proof.
  unfold true_div. destruct c as [| c | c].
  - destruct u; intro H; inversion H; now left.
  - destruct u as [| u | u]; try discriminate;
      destruct (SFdiv _ _ _ _); try discriminate;
      intro H; inversion H; right; split; (discriminate || reflexivity).
  - destruct u as [| u | u]; try discriminate;
      destruct (SFdiv _ _ _ _); try discriminate;
      intro H; inversion H; right; split; (discriminate || reflexivity).
Qed.

Lemma true_div_not_nan (u c : Z) : true_div u c <> inr S754_nan.
Proof.
  unfold true_div. destruct c as [| c | c]; try discriminate.
  all: destruct u as [| u | u]; try discriminate.
  all: unfold SFdiv; cbn [Z.abs Z.to_pos];
    pose proof (div_core_nonneg u c) as Hq;
    destruct (SFdiv_core_binary prec emax (Z.pos u) 0 (Z.pos c) 0) as [[mz ez] lz];
    cbn [fst] in Hq;
    match goal with
    | |- context [binary_round_aux prec emax ?s mz ez lz] =>
        pose proof (binary_round_aux_not_nan s mz ez lz Hq) as Hn;
        destruct (binary_round_aux prec emax s mz ez lz)
    end; congruence.
Qed.

Lemma true_div_by_zero (u : Z) : true_div u 0 = inl ZeroDivisionError.
Proof. now destruct u. Qed.

Lemma true_div_zero_percent (u : Z) : percent u 0 = inl ZeroDivisionError.
Proof. unfold percent. now rewrite true_div_by_zero. Qed.

Lemma percent_error_cases (u c : Z) (e : exn) :
  percent u c = inl e ->
  (c = 0 /\ e = ZeroDivisionError) \/ (c <> 0 /\ e = OverflowError).
Proof.
  unfold percent. pose proof (true_div_errors u c) as Herr.
  pose proof (true_div_not_nan u c) as Hnan.
  destruct (true_div u c) as [e' | q] eqn:Hd;
    [intro H; inversion H; subst; now apply Herr |].
  assert (Hc : c <> 0) by (intros ->; rewrite true_div_by_zero in Hd; discriminate).
  change (float_of_Z 100) with (S754_finite false 7036874417766400 (-46)).
  destruct q as [s | s | | s m ex]; cbn [SFmul int_of_float]; try discriminate.
  - intro H. inversion H. now right.
  - congruence.
  - pose proof (binary_round_aux_not_nan (xorb s false)
                  (Zpos (m * 7036874417766400)) (ex + -46) loc_Exact ltac:(lia)) as Hn.
    destruct (binary_round_aux prec emax (xorb s false)
                (Zpos (m * 7036874417766400)) (ex + -46) loc_Exact);
      cbn [int_of_float]; try discriminate; try congruence.
    intro H. inversion H. now right.
Qed.

(** X10. The percentage can fail in two ways only: [ZeroDivisionError],
    exactly when the capacity is 0, and [OverflowError]; it never fails
    with [ValueError].  With a positive capacity it overflows only for a
    usage that is negative or at least [2^1000]. *)
Theorem percent_errors (u c : Z) (e : exn) :
  percent u c = inl e ->
  (c = 0 /\ e = ZeroDivisionError)
  \/ (c <> 0 /\ e = OverflowError /\ (0 < c -> u < 0 \/ 2 ^ 1000 <= u)).
Proof.
  intro H. destruct (percent_error_cases u c e H) as [Hz | [Hc He]]; [now left |].
  right. split; [exact Hc |]. split; [exact He |]. intro Hpos.
  destruct (Z.lt_ge_cases u 0) as [Hneg | Hnn]; [now left |].
  destruct (Z.lt_ge_cases u (2 ^ 1000)) as [Hlt | Hge]; [| now right].
  exfalso. destruct (FloatBounds.percent_total u c ltac:(lia) Hpos) as (pct & Hp & _).
  congruence.
Qed.

(** X11. With [VRAM_TOTAL = 0] no alert is ever raised: the first
    iteration whose sample calls for a warning logs the usage and ends the
    process with [ZeroDivisionError] before anything is printed or
    sent. *)
Theorem zero_capacity_silences_warnings (cfg : config) (inputs : list tick_input)
    (T : num) :
  VRAM_TOTAL cfg = 0 ->
  alerts (trace (monitor_loop cfg T inputs)) = []
  /\ forall i rest u g,
       inputs = i :: rest ->
       usage_of i = Some u -> get_temp (temp_q i) = ([], Ok g) ->
       gtb (PyInt u) (add_int (rearm cfg T u) THRESHOLD) = true ->
       monitor_loop cfg T inputs
       = ([LogMess 0 (MUsageLine u g)], Stop (Uncaught ZeroDivisionError)).
Proof.
  intro Hzero. split.
  - revert T. induction inputs as [|i rest IH]; intro T; [reflexivity |].
    cbn [monitor_loop]. rewrite trace_bind, alerts_app.
    destruct (tick_cases cfg T i) as [(u & g & Hu & Hg) | [Hs | (m & _ & Hs)]];
      try (now rewrite Hs).
    rewrite (tick_sampled cfg T i u g Hu Hg), fire_check_cases, Hzero, true_div_zero_percent.
    destruct (gtb (PyInt u) (add_int (rearm cfg T u) THRESHOLD)); [reflexivity |].
    unfold trace at 1 2, outcome_of. cbn [fst snd]. apply IH.
  - intros i rest u g -> Hu Hg Hgt. cbn [monitor_loop].
    rewrite (tick_sampled cfg T i u g Hu Hg), fire_check_cases, Hgt, Hzero,
      true_div_zero_percent.
    reflexivity.
Qed.

(** ** Reading numbers *)

Lemma string_app_assoc (a b c : string) :
  (a ++ (b ++ c))%string = ((a ++ b) ++ c)%string.
Proof.
  induction a as [|x a IH]; cbn [String.append]; [reflexivity | now rewrite IH].
Qed.

Lemma all_chars_app (f : ascii -> bool) (s1 s2 : string) :
  all_chars f (s1 ++ s2)%string = all_chars f s1 && all_chars f s2.
Proof.
  induction s1 as [|c s1 IH]; cbn [String.append all_chars]; [reflexivity |].
  now rewrite IH, andb_assoc.
Qed.

Lemma all_chars_impl (f g : ascii -> bool) (s : string) :
  (forall c, f c = true -> g c = true) ->
  all_chars f s = true -> all_chars g s = true.
Proof.
  intro Hfg. induction s as [|c s IH]; cbn [all_chars]; [reflexivity |].
  intro H. apply andb_prop in H. destruct H as [Hc Hs].
  now rewrite (Hfg c Hc), (IH Hs).
Qed.

Lemma digits_of_uint_acc (d : Decimal.uint) :
  forall acc : positive,
    digits_to_int (Zpos acc) (NilEmpty.string_of_uint d)
    = Zpos (Pos.of_uint_acc d acc).
Proof.
  induction d as [| d IH | d IH | d IH | d IH | d IH | d IH | d IH | d IH | d IH | d IH];
    intro acc; cbn [NilEmpty.string_of_uint digits_to_int Pos.of_uint_acc];
    [reflexivity | ..];
    rewrite <- IH; f_equal;
    match goal with
    | |- context [digit_value ?c] =>
        let v := eval vm_compute in (digit_value c) in
        change (digit_value c) with v
    end; lia.
Qed.

Lemma digits_of_uint (d : Decimal.uint) :
  digits_to_int 0 (NilEmpty.string_of_uint d) = Z.of_N (Pos.of_uint d).
Proof.
  induction d as [| d IH | d IH | d IH | d IH | d IH | d IH | d IH | d IH | d IH | d IH];
    cbn [NilEmpty.string_of_uint digits_to_int Pos.of_uint]; [reflexivity | exact IH | ..];
    cbn [Z.of_N]; rewrite <- digits_of_uint_acc; f_equal.
Qed.

Lemma all_digits_of_uint (d : Decimal.uint) :
  all_chars is_digit (NilEmpty.string_of_uint d) = true.
Proof.
  induction d; cbn [NilEmpty.string_of_uint all_chars]; try reflexivity;
    rewrite IHd; reflexivity.
Qed.

Lemma take_digits_app (s post : string) :
  all_chars is_digit s = true -> starts_with_digit post = false ->
  take_digits (s ++ post)%string = s.
Proof.
  intros Hs Hpost. induction s as [|c s IH]; cbn [String.append].
  - destruct post as [|c post]; [reflexivity |]. cbn [take_digits].
    cbn [starts_with_digit] in Hpost. now rewrite Hpost.
  - cbn [all_chars] in Hs. apply andb_prop in Hs. destruct Hs as [Hc Hs].
    cbn [take_digits]. now rewrite Hc, (IH Hs).
Qed.

Lemma search_digits_skip (pre s : string) :
  all_chars (fun c => negb (is_digit c)) pre = true ->
  search_digits (pre ++ s)%string = search_digits s.
Proof.
  induction pre as [|c pre IH]; cbn [String.append all_chars]; [reflexivity |].
  intro H. apply andb_prop in H. destruct H as [Hc Hpre].
  cbn [search_digits]. apply negb_true_iff in Hc. now rewrite Hc, (IH Hpre).
Qed.

Lemma search_digits_found (s : string) :
  starts_with_digit s = true -> search_digits s = Some (take_digits s).
Proof.
  destruct s as [|c s]; cbn [starts_with_digit search_digits]; [discriminate |].
  now intros ->.
Qed.

Lemma uint_text_starts_with_digit (d : Decimal.uint) (post : string) :
  d <> Decimal.Nil ->
  starts_with_digit (NilEmpty.string_of_uint d ++ post)%string = true.
Proof. destruct d; intro H; try reflexivity. now contradiction H. Qed.

Lemma first_number_uint (d : Decimal.uint) (pre post : string) :
  d <> Decimal.Nil ->
  all_chars (fun c => negb (is_digit c)) pre = true ->
  starts_with_digit post = false ->
  first_number (pre ++ NilEmpty.string_of_uint d ++ post)%string
  = Some (Z.of_N (Pos.of_uint d)).
Proof.
  intros Hd Hpre Hpost. unfold first_number.
  rewrite (search_digits_skip _ _ Hpre),
    (search_digits_found _ (uint_text_starts_with_digit d post Hd)),
    (take_digits_app _ _ (all_digits_of_uint d) Hpost).
  cbn [option_map]. now rewrite digits_of_uint.
Qed.

Lemma str_of_int_pos (p : positive) :
  str_of_int (Zpos p) = NilEmpty.string_of_uint (Pos.to_uint p).
Proof.
  unfold str_of_int. cbn [Z.to_int NilZero.string_of_int].
  pose proof (Unsigned.to_uint_nonnil p) as Hn.
  unfold NilZero.string_of_uint. destruct (Pos.to_uint p); try reflexivity.
  now contradiction Hn.
Qed.

Lemma str_of_int_neg (p : positive) :
  str_of_int (Zneg p) = String "-" (NilEmpty.string_of_uint (Pos.to_uint p)).
Proof.
  unfold str_of_int. cbn [Z.to_int NilZero.string_of_int]. f_equal.
  change (NilZero.string_of_uint (Pos.to_uint p)) with (str_of_int (Zpos p)).
  apply str_of_int_pos.
Qed.

Lemma first_number_decimal (n : Z) (pre post : string) :
  all_chars (fun c => negb (is_digit c)) pre = true ->
  starts_with_digit post = false ->
  first_number (pre ++ str_of_int n ++ post)%string = Some (Z.abs n).
Proof.
  intros Hpre Hpost. destruct n as [| p | p].
  - change (str_of_int 0) with (NilEmpty.string_of_uint (Decimal.D0 Decimal.Nil)).
    now rewrite first_number_uint.
  - rewrite str_of_int_pos, first_number_uint; auto using Unsigned.to_uint_nonnil.
    now rewrite Unsigned.of_to.
  - rewrite str_of_int_neg.
    change (pre ++ String "-" (NilEmpty.string_of_uint (Pos.to_uint p)) ++ post)%string
      with (pre ++ ("-" ++ (NilEmpty.string_of_uint (Pos.to_uint p) ++ post)))%string.
    rewrite string_app_assoc.
    rewrite first_number_uint; auto using Unsigned.to_uint_nonnil.
    + now rewrite Unsigned.of_to.
    + rewrite all_chars_app, Hpre. reflexivity.
Qed.

(** X13. On a plain answer (ASCII, at most 4300 characters) the two
    queries return the first run of digits: for the decimal text of [n],
    after any text without a digit and before any text that does not go on
    with a digit, both return the absolute value of [n] -- a minus sign is
    dropped -- and log nothing. *)
Theorem first_number_of_decimal (n : Z) (pre post : string) :
  plain_answer (pre ++ str_of_int n ++ post)%string = true ->
  all_chars (fun c => negb (is_digit c)) pre = true ->
  starts_with_digit post = false ->
  get_vram_usage (QOutput (pre ++ str_of_int n ++ post)%string) = ([], Ok (Z.abs n))
  /\ get_temp (QOutput (pre ++ str_of_int n ++ post)%string) = ([], Ok (Z.abs n)).
Proof.
  intros _ Hpre Hpost. unfold get_vram_usage, get_temp.
  rewrite (first_number_decimal n pre post Hpre Hpost). split; reflexivity.
Qed.

Lemma first_number_none_iff (text : string) :
  first_number text = None <-> has_digit text = false.
Proof.
  unfold first_number, has_digit. rewrite negb_false_iff.
  induction text as [|c text IH]; cbn [search_digits all_chars]; [tauto |].
  destruct (is_digit c); cbn [negb andb option_map]; [| exact IH].
  split; discriminate.
Qed.

(** X14. A plain answer of [nvidia-smi] (ASCII, at most 4300 characters)
    is read as a number exactly when it contains a digit, the same for
    usage and temperature, and the number is never negative; a plain answer
    without a digit ends the process with [AttributeError] and nothing
    logged. *)
Theorem query_answer_read (text : string) :
  plain_answer text = true ->
  (has_digit text = true ->
   exists n, 0 <= n
             /\ get_vram_usage (QOutput text) = ([], Ok n)
             /\ get_temp (QOutput text) = ([], Ok n))
  /\ (has_digit text = false ->
      get_vram_usage (QOutput text) = ([], Stop (Uncaught AttributeError))
      /\ get_temp (QOutput text) = ([], Stop (Uncaught AttributeError))).
Proof.
  intros _. unfold get_vram_usage, get_temp. split; intro H.
  - destruct (first_number text) as [n |] eqn:Hn.
    + exists n. split; [now apply (first_number_nonneg text) | now split].
    + apply first_number_none_iff in Hn. congruence.
  - apply first_number_none_iff in H. now rewrite H.
Qed.

Lemma digit_not_space (c : ascii) : is_digit c = true -> is_space c = false.
Proof.
  unfold is_digit, is_space. cbv zeta. intro H. apply andb_prop in H. destruct H as [H1 H2].
  apply Nat.leb_le in H1. apply Nat.leb_le in H2.
  apply orb_false_iff. split; apply andb_false_iff.
  - right. apply Nat.leb_gt. lia.
  - right. apply Nat.leb_gt. lia.
Qed.

Lemma lstrip_spaces (ws s : string) :
  all_chars is_space ws = true -> lstrip (ws ++ s)%string = lstrip s.
Proof.
  induction ws as [|c ws IH]; cbn [String.append all_chars]; [reflexivity |].
  intro H. apply andb_prop in H. destruct H as [Hc Hws].
  cbn [lstrip]. now rewrite Hc, (IH Hws).
Qed.

Lemma rstrip_spaces (ws : string) :
  all_chars is_space ws = true -> rstrip ws = EmptyString.
Proof.
  induction ws as [|c ws IH]; cbn [all_chars rstrip]; [reflexivity |].
  intro H. apply andb_prop in H. destruct H as [Hc Hws]. now rewrite (IH Hws), Hc.
Qed.

Lemma rstrip_app_spaces (s ws : string) :
  all_chars (fun c => negb (is_space c)) s = true ->
  all_chars is_space ws = true ->
  rstrip (s ++ ws)%string = s.
Proof.
  intros Hs Hws. induction s as [|c s IH]; cbn [String.append].
  - now apply rstrip_spaces.
  - cbn [all_chars] in Hs. apply andb_prop in Hs. destruct Hs as [Hc Hs].
    cbn [rstrip]. rewrite (IH Hs). apply negb_true_iff in Hc. rewrite Hc.
    now destruct s.
Qed.

Lemma lstrip_not_space (s : string) :
  all_chars (fun c => negb (is_space c)) s = true -> lstrip s = s.
Proof.
  destruct s as [|c s]; cbn [all_chars lstrip]; [reflexivity |].
  intro H. apply andb_prop in H. destruct H as [Hc _].
  apply negb_true_iff in Hc. now rewrite Hc.
Qed.

Lemma strip_padded (ws1 s ws2 : string) :
  s <> EmptyString ->
  all_chars is_space ws1 = true -> all_chars is_space ws2 = true ->
  all_chars (fun c => negb (is_space c)) s = true ->
  strip (ws1 ++ s ++ ws2)%string = s.
Proof.
  intros Hne H1 H2 Hs. unfold strip. rewrite (lstrip_spaces _ _ H1).
  assert (Hl : lstrip (s ++ ws2)%string = (s ++ ws2)%string).
  { destruct s as [|c s]; [now contradiction Hne |].
    cbn [String.append all_chars lstrip] in *.
    apply andb_prop in Hs. destruct Hs as [Hc _].
    apply negb_true_iff in Hc. now rewrite Hc. }
  rewrite Hl. now apply rstrip_app_spaces.
Qed.

Lemma int_body_digits (s : string) :
  all_chars is_digit s = true ->
  forall acc b, s <> EmptyString \/ b = true ->
                int_body acc b s = Some (digits_to_int acc s).
Proof.
  induction s as [|c s IH]; intros Hs acc b Hb; cbn [int_body digits_to_int].
  - destruct Hb as [Hb | ->]; [now contradiction Hb | reflexivity].
  - cbn [all_chars] in Hs. apply andb_prop in Hs. destruct Hs as [Hc Hs].
    rewrite Hc. apply (IH Hs). now right.
Qed.

Lemma uint_text_nonempty (d : Decimal.uint) :
  d <> Decimal.Nil -> NilEmpty.string_of_uint d <> EmptyString.
Proof. destruct d; intro H; try discriminate. now contradiction H. Qed.

Lemma int_of_str_uint (d : Decimal.uint) (ws1 ws2 : string) :
  d <> Decimal.Nil ->
  all_chars is_space ws1 = true -> all_chars is_space ws2 = true ->
  int_of_str (ws1 ++ NilEmpty.string_of_uint d ++ ws2)%string
  = Some (Z.of_N (Pos.of_uint d)).
Proof.
  intros Hd H1 H2. unfold int_of_str.
  rewrite strip_padded; auto using uint_text_nonempty.
  - rewrite <- digits_of_uint.
    rewrite <- (int_body_digits _ (all_digits_of_uint d) 0 false)
      by (left; now apply uint_text_nonempty).
    destruct d; reflexivity.
  - apply (all_chars_impl is_digit); [| apply all_digits_of_uint].
    intros c Hc. now rewrite (digit_not_space c Hc).
Qed.

Lemma int_body_chars (s : string) :
  forall acc b n,
    int_body acc b s = Some n ->
    all_chars (fun c => is_digit c || Ascii.eqb c "_") s = true.
Proof.
  induction s as [|c s IH]; intros acc b n; cbn [int_body all_chars]; [reflexivity |].
  destruct (is_digit c); cbn [orb andb].
  - apply IH.
  - destruct (Ascii.eqb c "_" && b) eqn:Hu; [| discriminate].
    apply andb_prop in Hu. destruct Hu as [-> _]. apply IH.
Qed.

Lemma int_of_str_cases (text : string) :
  int_of_str text
  = match strip text with
    | String c rest =>
        if Ascii.eqb c "+" then int_body 0 false rest
        else if Ascii.eqb c "-" then option_map Z.opp (int_body 0 false rest)
        else int_body 0 false (String c rest)
    | EmptyString => None
    end.
Proof.
  unfold int_of_str. destruct (strip text) as [|c rest]; [reflexivity |].
  destruct c as [[] [] [] [] [] [] [] []]; reflexivity.
Qed.

Lemma int_of_str_chars (text : string) (n : Z) :
  int_of_str text = Some n -> all_chars int_char (strip text) = true.
Proof.
  rewrite int_of_str_cases. destruct (strip text) as [|c rest]; [discriminate |].
  assert (Himpl : forall s, all_chars (fun c => is_digit c || Ascii.eqb c "_") s = true ->
                            all_chars int_char s = true).
  { intro s. apply all_chars_impl. intros x Hx. unfold int_char. now rewrite Hx. }
  cbn [all_chars]. unfold int_char at 1.
  destruct (Ascii.eqb c "+") eqn:Hplus.
  - intro H. apply int_body_chars in H. rewrite (Himpl _ H).
    now rewrite !orb_true_r.
  - destruct (Ascii.eqb c "-") eqn:Hminus.
    + destruct (int_body 0 false rest) as [k |] eqn:Hb; [| discriminate].
      intros _. apply int_body_chars in Hb. rewrite (Himpl _ Hb).
      now rewrite !orb_true_r.
    + intro H. apply int_body_chars in H. apply Himpl in H.
      cbn [all_chars] in H. unfold int_char at 1 in H.
      now rewrite Hplus, Hminus in H.
Qed.

Lemma lstrip_chars (g : ascii -> bool) (s : string) :
  all_chars g (lstrip s) = true ->
  all_chars (fun c => g c || is_space c) s = true.
Proof.
  induction s as [|c s IH]; cbn [lstrip all_chars]; [reflexivity |].
  destruct (is_space c) eqn:Hc.
  - intro H. rewrite (IH H). now rewrite orb_true_r.
  - cbn [all_chars]. intro H. apply andb_prop in H. destruct H as [Hg Hs].
    rewrite Hg. cbn [orb andb]. apply (all_chars_impl g); [| exact Hs].
    intros x Hx. now rewrite Hx.
Qed.

Lemma rstrip_chars (g : ascii -> bool) (s : string) :
  all_chars g (rstrip s) = true ->
  all_chars (fun c => g c || is_space c) s = true.
Proof.
  induction s as [|c s IH]; cbn [rstrip all_chars]; [reflexivity |].
  destruct (rstrip s) as [|k kept] eqn:Hr.
  - destruct (is_space c) eqn:Hc; cbn [all_chars]; intro H.
    + rewrite orb_true_r. now apply IH.
    + apply andb_prop in H. destruct H as [Hg _]. rewrite Hg. now apply IH.
  - cbn [all_chars]. intro H. apply andb_prop in H. destruct H as [Hg Hk].
    rewrite Hg. cbn [orb andb]. apply IH. exact Hk.
Qed.

Lemma strip_chars (g : ascii -> bool) (s : string) :
  all_chars g (strip s) = true ->
  all_chars (fun c => g c || is_space c) s = true.
Proof.
  unfold strip. intro H. apply rstrip_chars in H. apply lstrip_chars in H.
  revert H. apply all_chars_impl. intros c Hc.
  now destruct (g c), (is_space c).
Qed.

(** X16. When both start-up answers are ASCII text and the answer to the
    [memory.total] query contains a character that is neither white space
    nor a digit, a sign or an underscore (a unit, for instance),
    [update_variables] ends the process with [ValueError] right after
    logging the GPU name, without logging an error. *)
Theorem autodetect_rejects_other_text (cfg : config) (w : world)
    (name text : string) :
  name_q w = QOutput name ->
  total_q w = QOutput text ->
  all_chars is_ascii name = true ->
  all_chars is_ascii text = true ->
  all_chars int_char_or_space text = false ->
  update_variables cfg w
  = ([LogMess 0 MAttempt; LogMess 1 (MDetectedGPU (strip name))],
     Stop (Uncaught ValueError)).
Proof.
  intros Hn Ht _ _ Hbad. unfold update_variables. rewrite Hn, Ht.
  destruct (int_of_str (strip text)) as [n |] eqn:Hparse; [| reflexivity].
  exfalso. apply int_of_str_chars in Hparse.
  apply strip_chars in Hparse. apply strip_chars in Hparse.
  assert (Hall : all_chars int_char_or_space text = true).
  { revert Hparse. apply all_chars_impl. intros c Hc. unfold int_char_or_space.
    now destruct (int_char c), (is_space c). }
  congruence.
Qed.

Ltac each_input tac := repeat (apply Forall_cons; [tac |]); apply Forall_nil.

Lemma rearm_and_fire_exclusive_witness :
  PyInt 3880 = PyInt (3780 + THRESHOLD).
Proof.
  refine (proj1 (rearm_and_fire_exclusive 3800 8192 3780 (healthy 3950 60)
                   (fst (tick (int_config 3800 8192) (PyInt 3780) (healthy 3950 60)))
                   (PyInt 3880) _) _).
  - vm_compute. reflexivity.
  - vm_compute. discriminate.
Defined.

Lemma dead_zone_is_silent_witness :
  alerts (trace (monitor_loop (int_config 3800 8192) (PyInt 3880)
                   [healthy 3800 60; healthy 3980 60; healthy 3780 60]))
  = [].
Proof.
  refine (proj1 (dead_zone_is_silent 3800 8192 3880
                   [healthy 3800 60; healthy 3980 60; healthy 3780 60] _)).
  each_input ltac:(intros u Hu; vm_compute in Hu; injection Hu as <-;
                    unfold THRESHOLD; lia).
Defined.

Lemma low_usage_rearms_step_by_step_witness :
  alerts (trace (monitor_loop (int_config 3800 8192) (PyInt (3800 - 20 + 2 * THRESHOLD))
                   [healthy 1000 60; healthy 1200 60; healthy 900 60]))
  = [].
Proof.
  refine (proj1 (low_usage_rearms_step_by_step 3800 8192 2
                   [healthy 1000 60; healthy 1200 60; healthy 900 60] _ _)).
  - lia.
  - each_input ltac:(intros u Hu; vm_compute in Hu; injection Hu as <-; lia).
Defined.

Lemma threshold_on_grid_below_ceiling_witness :
  exists k, 0 <= k <= 2 /\ PyInt 3880 = PyInt (3800 - 20 + k * THRESHOLD).
Proof.
  refine (threshold_on_grid_below_ceiling 3800 8192
            [healthy 3000 60; healthy 3950 60]
            (fst (start_monitoring (int_config 3800 8192)
                    [healthy 3000 60; healthy 3950 60]))
            (PyInt 3880) _).
  vm_compute. reflexivity.
Defined.

Lemma warnings_only_above_ceiling_plus_80_witness :
  exists u pct,
    3800 + 80 < u
    /\ In (Some u) (map usage_of [healthy 3000 60; healthy 3950 60])
    /\ percent u 8192 = inr pct
    /\ "VRAM usage critical! 3950/8192Mib, (48%)" = warning_text u 8192 pct.
Proof.
  apply (warnings_only_above_ceiling_plus_80 3800 8192
           [healthy 3000 60; healthy 3950 60]).
  vm_compute. left. reflexivity.
Defined.

Lemma healthy_is_sound_example :
  Forall sound [healthy 4200 60; healthy 4200 61; healthy 4200 62;
                healthy 4200 63; healthy 4200 64].
Proof.
  each_input ltac:(split; [| split];
                   [eexists; split; [vm_compute; reflexivity | vm_compute; reflexivity]
                   | eexists; vm_compute; reflexivity
                   | discriminate]).
Defined.

Lemma sustained_usage_warnings_witness :
  notified (trace (start_monitoring (int_config 3800 8192)
                     [healthy 4200 60; healthy 4200 61; healthy 4200 62;
                      healthy 4200 63; healthy 4200 64]))
  = repeat (warning_text 4200 8192 51) 4.
Proof.
  refine (proj1 (sustained_usage_warnings 3800 8192 4200 51
                   [healthy 4200 60; healthy 4200 61; healthy 4200 62;
                    healthy 4200 63; healthy 4200 64] _ _ _ _)).
  - lia.
  - vm_compute. reflexivity.
  - exact healthy_is_sound_example.
  - each_input ltac:(vm_compute; reflexivity).
Defined.

Lemma percent_errors_witness :
  (1 = 0 /\ OverflowError = ZeroDivisionError)
  \/ (1 <> 0 /\ OverflowError = OverflowError
      /\ (0 < 1 -> 2 ^ 1030 < 0 \/ 2 ^ 1000 <= 2 ^ 1030)).
Proof.
  apply (percent_errors (2 ^ 1030) 1 OverflowError). vm_compute. reflexivity.
Defined.

Lemma zero_capacity_silences_warnings_witness :
  alerts (trace (monitor_loop {| MAX_VRAM_USAGE := PyInt 3800; VRAM_TOTAL := 0 |}
                   (PyInt 3780) [healthy 5000 60; healthy 6000 60]))
  = [].
Proof.
  refine (proj1 (zero_capacity_silences_warnings
                   {| MAX_VRAM_USAGE := PyInt 3800; VRAM_TOTAL := 0 |}
                   [healthy 5000 60; healthy 6000 60] (PyInt 3780) _)).
  reflexivity.
Defined.

Lemma first_number_of_decimal_witness :
  get_vram_usage (QOutput ("temperature: " ++ str_of_int (-5) ++ " C")%string)
  = ([], Ok (Z.abs (-5)))
  /\ get_temp (QOutput ("temperature: " ++ str_of_int (-5) ++ " C")%string)
     = ([], Ok (Z.abs (-5))).
Proof.
  apply (first_number_of_decimal (-5) "temperature: " " C"); reflexivity.
Defined.

Lemma query_answer_read_witness :
  get_vram_usage (QOutput "[N/A]") = ([], Stop (Uncaught AttributeError))
  /\ get_temp (QOutput "[N/A]") = ([], Stop (Uncaught AttributeError)).
Proof.
  apply (proj2 (query_answer_read "[N/A]" eq_refl)). reflexivity.
Defined.

Lemma autodetect_rejects_other_text_witness :
  update_variables default_config
    {| name_q := QOutput "NVIDIA GeForce"; total_q := QOutput "8192 MiB";
       ticks := [] |}
  = ([LogMess 0 MAttempt; LogMess 1 (MDetectedGPU (strip "NVIDIA GeForce"))],
     Stop (Uncaught ValueError)).
Proof.
  apply (autodetect_rejects_other_text default_config _ "NVIDIA GeForce" "8192 MiB");
    reflexivity.
Defined.

(** ** Rounding to 53 bits, within one unit in the last place *)

Module Rounding.
Import FloatBounds.

Lemma digits_upper (m k : Z) : 0 < m -> 0 <= k -> m < 2 ^ k -> Zdigits2 m <= k.
Proof.
  intros Hm Hk Hlt. destruct m as [| p |]; try lia. unfold Zdigits2.
  pose proof (digits2_pos_bounds p) as [Hlo _].
  destruct (Z.le_gt_cases (Zpos (digits2_pos p)) k) as [H | H]; [exact H |].
  assert (2 ^ k <= 2 ^ (Zpos (digits2_pos p) - 1)) by (apply Z.pow_le_mono_r; lia).
  lia.
Qed.

Lemma digits_lower (m k : Z) : 2 ^ (k - 1) <= m -> 1 <= k -> k <= Zdigits2 m.
Proof.
  intros Hle Hk.
  assert (Hm : 0 < m).
  { apply Z.lt_le_trans with (2 ^ (k - 1)); [apply Z.pow_pos_nonneg; lia | exact Hle]. }
  destruct m as [| p |]; try lia. unfold Zdigits2.
  pose proof (digits2_pos_bounds p) as [_ Hhi].
  destruct (Z.le_gt_cases k (Zpos (digits2_pos p))) as [H | H]; [exact H |].
  assert (2 ^ Zpos (digits2_pos p) <= 2 ^ (k - 1)) by (apply Z.pow_le_mono_r; lia).
  lia.
Qed.

Lemma digits_bounds (m : Z) :
  0 < m -> 2 ^ (Zdigits2 m - 1) <= m < 2 ^ Zdigits2 m.
Proof.
  intro Hm. destruct m as [| p |]; try lia. apply digits2_pos_bounds.
Qed.

Lemma digits_pos (m : Z) : 0 < m -> 1 <= Zdigits2 m.
Proof. intro Hm. destruct m as [| p |]; try lia. unfold Zdigits2. lia. Qed.

(** One truncation step: the mantissa is cut down to at most 53 bits. *)
Lemma shr_fexp_trunc (m e : Z) (l : location) :
  0 < m -> -1021 <= Zdigits2 m + e ->
  exists n,
    0 <= n
    /\ snd (shr_fexp prec emax m e l) = e + n
    /\ shr_m (fst (shr_fexp prec emax m e l)) * 2 ^ n <= m
    /\ m < (shr_m (fst (shr_fexp prec emax m e l)) + 1) * 2 ^ n
    /\ 0 < shr_m (fst (shr_fexp prec emax m e l)) < 2 ^ 53
    /\ (2 ^ 52 <= m -> 2 ^ 52 <= shr_m (fst (shr_fexp prec emax m e l)))
    /\ (m < 2 ^ 53 -> fst (shr_fexp prec emax m e l) = shr_record_of_loc m l /\ n = 0)
    /\ Zdigits2 m + e <= Zdigits2 (shr_m (fst (shr_fexp prec emax m e l))) + (e + n).
Proof.
  intros Hm Hrange. pose proof (digits_bounds m Hm) as [Hlo Hhi].
  pose proof (digits_pos m Hm) as Hd1.
  unfold shr_fexp, fexp, emin, prec, emax.
  replace (Z.max (Zdigits2 m + e - 53) (3 - 1024 - 53) - e)
    with (Zdigits2 m - 53) by lia.
  destruct (Zdigits2 m - 53) as [| n | n] eqn:Hn; cbn [shr fst snd].
  - exists 0. rewrite shr_record_of_loc_m.
    replace (Zdigits2 m) with 53 in * by lia.
    change (2 ^ 0) with 1. repeat split; try lia.
  - exists (Zpos n).
    rewrite iter_shr_1_m by (rewrite shr_record_of_loc_m; lia).
    rewrite shr_record_of_loc_m.
    assert (H2n : 0 < 2 ^ Zpos n) by (apply Z.pow_pos_nonneg; lia).
    assert (Hsplit : 2 ^ Zdigits2 m = 2 ^ 53 * 2 ^ Zpos n).
    { rewrite <- Z.pow_add_r by lia. f_equal. lia. }
    assert (Hsplit' : 2 ^ (Zdigits2 m - 1) = 2 ^ 52 * 2 ^ Zpos n).
    { rewrite <- Z.pow_add_r by lia. f_equal. lia. }
    pose proof (Z.mul_div_le m (2 ^ Zpos n) H2n) as Hdl.
    pose proof (Z.mul_succ_div_gt m (2 ^ Zpos n) H2n) as Hdu.
    assert (Hq53 : m / 2 ^ Zpos n < 2 ^ 53)
      by (apply Z.div_lt_upper_bound; [exact H2n | lia]).
    assert (Hq52 : 2 ^ 52 <= m / 2 ^ Zpos n)
      by (apply Z.div_le_lower_bound; [exact H2n | lia]).
    assert (H52 : 0 < 2 ^ 52) by (apply Z.pow_pos_nonneg; lia).
    split; [lia |]. split; [reflexivity |]. split; [lia |]. split; [lia |].
    split; [lia |]. split; [intros _; exact Hq52 |]. split.
    + intro Hlt. exfalso.
      assert (2 ^ 53 <= 2 ^ (Zdigits2 m - 1)) by (apply Z.pow_le_mono_r; lia). lia.
    + pose proof (digits_lower (m / 2 ^ Zpos n) 53 Hq52 ltac:(lia)). lia.
  - exists 0. rewrite shr_record_of_loc_m.
    assert (m < 2 ^ 53).
    { apply Z.lt_le_trans with (2 ^ Zdigits2 m); [exact Hhi |].
      apply Z.pow_le_mono_r; lia. }
    change (2 ^ 0) with 1. repeat split; try lia.
Qed.

Lemma round_nearest_even_exact (m : Z) : round_nearest_even m loc_Exact = m.
Proof. reflexivity. Qed.

Lemma digits_mono (a b : Z) : 0 < a -> a <= b -> Zdigits2 a <= Zdigits2 b.
Proof.
  intros Ha Hab. pose proof (digits_bounds a Ha) as [Hlo _].
  apply digits_lower; [lia | now apply digits_pos].
Qed.

(** The result of rounding [m * 2^e]: a mantissa below [2^53] at an exponent
    [N] places up, at most one unit above and less than one unit below. *)
Lemma round_close (s : bool) (m e : Z) (l : location) :
  0 < m -> -1021 <= Zdigits2 m + e ->
  exists (m' : positive) (N : Z),
    0 <= N
    /\ Zpos m' * 2 ^ N <= m + 2 ^ N
    /\ m < (Zpos m' + 1) * 2 ^ N
    /\ Zpos m' < 2 ^ 53
    /\ (2 ^ 52 <= m -> 2 ^ 52 <= Zpos m')
    /\ (l = loc_Exact -> m < 2 ^ 53 -> N = 0 /\ Zpos m' = m)
    /\ binary_round_aux prec emax s m e l
       = if e + N <=? emax - prec then S754_finite s m' (e + N)
         else S754_infinity s.
Proof.
  intros Hm Hrange. unfold binary_round_aux.
  destruct (shr_fexp_trunc m e l Hm Hrange)
    as (n1 & Hn1 & He1 & Hl1 & Hu1 & Hb1 & Hn52 & Hex1 & Hd1).
  destruct (shr_fexp prec emax m e l) as [r1 e1]. cbn [fst snd] in *. subst e1.
  pose proof (round_nearest_even_ge (shr_m r1) (loc_of_shr_record r1)) as Hge.
  pose proof (round_nearest_even_le (shr_m r1) (loc_of_shr_record r1)) as Hle.
  assert (Hexact : l = loc_Exact -> m < 2 ^ 53 ->
                   round_nearest_even (shr_m r1) (loc_of_shr_record r1) = m).
  { intros -> Hlt. destruct (Hex1 Hlt) as [-> _]. reflexivity. }
  set (m2 := round_nearest_even (shr_m r1) (loc_of_shr_record r1)) in *.
  assert (Hm2 : 0 < m2) by lia.
  assert (Hrange2 : -1021 <= Zdigits2 m2 + (e + n1)).
  { pose proof (digits_mono (shr_m r1) m2 ltac:(lia) Hge). lia. }
  destruct (shr_fexp_trunc m2 (e + n1) loc_Exact Hm2 Hrange2)
    as (n2 & Hn2 & He2 & Hl2 & Hu2 & Hb2 & Hn52' & Hex2 & _).
  destruct (shr_fexp prec emax m2 (e + n1) loc_Exact) as [r2 e2].
  cbn [fst snd] in *. subst e2.
  destruct (shr_m r2) as [| m3 |] eqn:Hm3; try lia.
  assert (H1 : 0 < 2 ^ n1) by (apply Z.pow_pos_nonneg; lia).
  assert (H2 : 0 < 2 ^ n2) by (apply Z.pow_pos_nonneg; lia).
  exists m3, (n1 + n2). rewrite Z.pow_add_r by lia.
  split; [lia |].
  assert (E1 : Z.pos m3 * 2 ^ n2 * 2 ^ n1 <= (shr_m r1 + 1) * 2 ^ n1)
    by (apply Z.mul_le_mono_nonneg_r; lia).
  assert (E2 : 2 ^ n1 * 1 <= 2 ^ n1 * 2 ^ n2)
    by (apply Z.mul_le_mono_nonneg_l; lia).
  assert (E3 : (shr_m r1 + 1) * 2 ^ n1 <= (Z.pos m3 + 1) * 2 ^ n2 * 2 ^ n1)
    by (apply Z.mul_le_mono_nonneg_r; lia).
  split; [lia |]. split; [lia |].
  split; [lia |]. split; [intro H52; apply Hn52'; lia |].
  split.
  - intros Hl Hlt. destruct (Hex1 Hlt) as [_ ->].
    rewrite (Hexact Hl Hlt) in *. destruct (Hex2 Hlt) as [Hr2 ->]. subst r2.
    rewrite shr_record_of_loc_m in Hm3. split; [reflexivity | now symmetry].
  - rewrite Z.add_assoc. reflexivity.
Qed.
End Rounding.

(** ** The accuracy of the percentage *)

Module PercentAccuracy.
Import FloatBounds Rounding.

Lemma percent_arith_upper (c u q mx my A B1 B2 D F : Z) :
  0 < c -> 0 < u -> 0 < A -> 0 < B1 -> 0 < B2 -> 0 < D ->
  q * c <= u * A ->
  mx * B1 <= q + B1 ->
  my * B2 <= mx * (100 * 2 ^ 46) + B2 ->
  2 ^ 52 <= mx -> 2 ^ 52 <= my -> B2 <= 2 ^ 53 ->
  D * (B1 * B2) = A * 2 ^ 46 ->
  100 * u < c * (F + 1) ->
  228 * u < 2 ^ 52 - 1 ->
  my < (F + 1) * D.
Proof.
  intros Hc Hu HA HB1 HB2 HD Hq Hx Hy Hmx Hmy HB2' HDB HF Hsmall.
  change (2 ^ 46) with 70368744177664 in *.
  change (2 ^ 52) with 4503599627370496 in *.
  change (2 ^ 53) with 9007199254740992 in *.
  assert (H1 : c * B1 * 4503599627370495 <= u * A).
  { assert (c * (mx * B1) <= c * q + c * B1) by nia.
    assert (c * B1 * (mx - 1) <= u * A) by nia.
    assert (c * B1 * 4503599627370495 <= c * B1 * (mx - 1)) by nia.
    lia. }
  assert (H2 : c * B1 * (my * B2)
               <= 100 * 70368744177664 * (u * A)
                  + c * B1 * (100 * 70368744177664 + B2)).
  { assert (c * B1 * (my * B2) <= c * B1 * (mx * (100 * 70368744177664) + B2)) by nia.
    assert (c * (mx * B1) <= u * A + c * B1) by nia.
    nia. }
  assert (H3 : c * B1 * (100 * 70368744177664 + B2) * 4503599627370495
               <= u * A * (228 * 70368744177664)).
  { assert (100 * 70368744177664 + B2 <= 228 * 70368744177664) by lia.
    nia. }
  assert (H4 : u * A * (228 * 70368744177664) < 4503599627370495 * (A * 70368744177664)).
  { assert (228 * u * (A * 70368744177664) < 4503599627370495 * (A * 70368744177664))
      by (apply Z.mul_lt_mono_pos_r; lia).
    lia. }
  assert (H5 : c * B1 * (100 * 70368744177664 + B2) < A * 70368744177664) by nia.
  destruct (Z.lt_ge_cases my ((F + 1) * D)) as [Hlt | Hge]; [exact Hlt | exfalso].
  assert (H6 : c * B1 * ((F + 1) * D * B2) <= c * B1 * (my * B2)) by nia.
  assert (H7 : c * B1 * ((F + 1) * D * B2) = c * (F + 1) * (A * 70368744177664)) by nia.
  assert (H8 : (100 * u + 1) * (A * 70368744177664) <= c * (F + 1) * (A * 70368744177664))
    by nia.
  nia.
Qed.

Lemma percent_arith_lower (c u q mx my A B1 B2 D F : Z) :
  0 < c -> 0 < u -> 0 < A -> 0 < B1 -> 0 < B2 -> 0 < D -> 0 < my ->
  u * A < (q + 1) * c ->
  q < (mx + 1) * B1 ->
  mx * (100 * 2 ^ 46) < (my + 1) * B2 ->
  1024 * B1 <= A ->
  D * (B1 * B2) = A * 2 ^ 46 ->
  F * c <= 100 * u ->
  (F - 1) * D <= my.
Proof.
  intros Hc Hu HA HB1 HB2 HD Hmy Hq Hx Hy HAB HDB HF.
  change (2 ^ 46) with 70368744177664 in *.
  destruct (Z.le_gt_cases ((F - 1) * D) my) as [Hle | Hgt]; [exact Hle | exfalso].
  assert (H1 : my + 1 <= (F - 1) * D) by lia.
  assert (H2 : c * B1 * ((my + 1) * B2) <= c * B1 * ((F - 1) * D * B2)) by nia.
  assert (H3 : c * B1 * ((F - 1) * D * B2) = c * (F - 1) * (A * 70368744177664)) by nia.
  assert (H4 : c * (F - 1) * (A * 70368744177664)
               <= (100 * u - c) * (A * 70368744177664)) by nia.
  assert (H5 : c * B1 * (mx * (100 * 70368744177664)) < c * B1 * ((my + 1) * B2)) by nia.
  assert (H6 : q + 1 <= (mx + 1) * B1) by lia.
  assert (H7 : u * A < c * (mx * B1) + c * B1) by nia.
  assert (H8 : (u * A - c * B1) * (100 * 70368744177664)
               < c * B1 * (mx * (100 * 70368744177664))) by nia.
  nia.
Qed.

(** The integer quotient that the division rounds: at least 53 bits of
    [u * 2^s / c]. *)
Lemma div_core_facts (u c : positive) :
  Zpos c < 2 ^ 1000 ->
  exists s,
    0 <= s <= 1053
    /\ snd (fst (SFdiv_core_binary prec emax (Zpos u) 0 (Zpos c) 0)) = - s
    /\ fst (fst (SFdiv_core_binary prec emax (Zpos u) 0 (Zpos c) 0)) * Zpos c
       <= Zpos u * 2 ^ s
    /\ Zpos u * 2 ^ s
       < (fst (fst (SFdiv_core_binary prec emax (Zpos u) 0 (Zpos c) 0)) + 1) * Zpos c
    /\ 2 ^ 52 <= fst (fst (SFdiv_core_binary prec emax (Zpos u) 0 (Zpos c) 0)).
Proof.
  intro Hc. unfold SFdiv_core_binary.
  pose proof (digits_bounds (Zpos u) ltac:(lia)) as [Hulo Huhi].
  pose proof (digits_bounds (Zpos c) ltac:(lia)) as [Hclo Hchi].
  pose proof (digits_pos (Zpos u) ltac:(lia)) as Hdu.
  pose proof (digits_pos (Zpos c) ltac:(lia)) as Hdc.
  pose proof (digits_upper (Zpos c) 1000 ltac:(lia) ltac:(lia) Hc) as Hdc'.
  set (d1 := Zdigits2 (Zpos u)) in *. set (d2 := Zdigits2 (Zpos c)) in *.
  unfold fexp, emin, prec, emax.
  replace (Z.min (Z.max (d1 + 0 - (d2 + 0) - 53) (3 - 1024 - 53)) (0 - 0))
    with (Z.min (d1 - d2 - 53) 0) by lia.
  set (e' := Z.min (d1 - d2 - 53) 0).
  assert (He' : e' <= 0) by (subst e'; lia).
  assert (Hbig : forall s, s = - e' -> 0 <= s -> Zpos c * 2 ^ 52 <= Zpos u * 2 ^ s).
  { intros s Hs Hs0.
    apply Z.le_trans with (2 ^ d2 * 2 ^ 52); [nia |].
    apply Z.le_trans with (2 ^ (d1 - 1) * 2 ^ s).
    - rewrite <- !Z.pow_add_r by lia. apply Z.pow_le_mono_r; subst e'; lia.
    - assert (0 < 2 ^ s) by (apply Z.pow_pos_nonneg; lia). nia. }
  assert (Hdiv : forall a, 0 <= a ->
                   let '(q, r) := Z.div_eucl a (Zpos c) in
                   q * Zpos c <= a /\ a < (q + 1) * Zpos c
                   /\ (Zpos c * 2 ^ 52 <= a -> 2 ^ 52 <= q)).
  { intros a Ha. destruct (Z.div_eucl a (Zpos c)) as [q r] eqn:Hqr.
    assert (Hq : q = a / Zpos c) by (unfold Z.div; now rewrite Hqr).
    pose proof (Z.mul_div_le a (Zpos c) ltac:(lia)).
    pose proof (Z.mul_succ_div_gt a (Zpos c) ltac:(lia)).
    subst q. split; [lia |]. split; [lia |].
    intro H52. apply Z.div_le_lower_bound; lia. }
  destruct (0 - 0 - e') as [| s | s] eqn:Hs; try lia.
  - exists 0. specialize (Hdiv (Zpos u) ltac:(lia)).
    destruct (Z.div_eucl (Zpos u) (Zpos c)) as [q r]. cbn [fst snd].
    destruct Hdiv as (H1 & H2 & H3). specialize (Hbig 0 ltac:(lia) ltac:(lia)).
    change (2 ^ 0) with 1 in *. rewrite Z.mul_1_r in *.
    split; [lia |]. split; [lia |]. split; [lia |]. split; [lia | now apply H3].
  - exists (Zpos s). rewrite Z.shiftl_mul_pow2 by lia.
    assert (Hs2 : 0 < 2 ^ Zpos s) by (apply Z.pow_pos_nonneg; lia).
    specialize (Hdiv (Zpos u * 2 ^ Zpos s) ltac:(nia)).
    destruct (Z.div_eucl (Zpos u * 2 ^ Zpos s) (Zpos c)) as [q r]. cbn [fst snd].
    destruct Hdiv as (H1 & H2 & H3). specialize (Hbig (Zpos s) ltac:(lia) ltac:(lia)).
    split; [lia |]. split; [lia |]. split; [lia |]. split; [lia | now apply H3].
Qed.

(** The percentage is the exact quotient truncated, or one less. *)
Lemma percent_within_one (u c pct : Z) :
  0 <= u < 2 ^ 42 -> 0 < c < 2 ^ 1000 ->
  percent u c = inr pct ->
  100 * u / c - 1 <= pct <= 100 * u / c.
Proof.
  intros Hu Hc. destruct c as [| c |]; try lia.
  destruct u as [| u |]; try lia.
  { intro H. vm_compute in H. injection H as <-. rewrite Z.mul_0_r, Z.div_0_l; lia. }
  unfold percent, true_div, SFdiv.
  change (Z.pos u <? 0) with false. change (Z.pos c <? 0) with false.
  change (Z.to_pos (Z.abs (Z.pos u))) with u.
  change (Z.to_pos (Z.abs (Z.pos c))) with c.
  destruct (div_core_facts u c ltac:(lia)) as (s & Hs & Hez & Hq1 & Hq2 & Hq52).
  destruct (SFdiv_core_binary prec emax (Z.pos u) 0 (Z.pos c) 0) as [[mz ez] lz].
  cbn [fst snd] in *. subst ez.
  assert (Hmz : 0 < mz) by (assert (0 < 2 ^ 52) by (apply Z.pow_pos_nonneg; lia); lia).
  pose proof (digits_lower mz 53 Hq52 ltac:(lia)) as Hdz.
  destruct (round_close (xorb false false) mz (- s) lz Hmz ltac:(lia))
    as (mx & N1 & HN1 & Hxu & Hxl & Hx53 & Hx52 & _ & ->).
  specialize (Hx52 Hq52).
  destruct (- s + N1 <=? emax - prec); [| discriminate].
  change (float_of_Z 100) with (S754_finite false 7036874417766400 (-46)).
  unfold SFmul. rewrite Pos2Z.inj_mul.
  change (Z.pos 7036874417766400) with (100 * 2 ^ 46).
  assert (H52 : 0 < 2 ^ 52) by (apply Z.pow_pos_nonneg; lia).
  assert (HP104 : 2 ^ 104 <= Z.pos mx * (100 * 2 ^ 46)).
  { change (2 ^ 104) with (2 ^ 52 * 2 ^ 52). change (2 ^ 46) with 70368744177664.
    change (2 ^ 52) with 4503599627370496 in *. nia. }
  pose proof (digits_lower _ 105 HP104 ltac:(lia)) as HdP.
  destruct (round_close (xorb (xorb false false) false) (Z.pos mx * (100 * 2 ^ 46))
              (- s + N1 + -46) loc_Exact ltac:(lia) ltac:(lia))
    as (my & N2 & HN2 & Hyu & Hyl & Hy53 & Hy52 & _ & ->).
  assert (HP52 : 2 ^ 52 <= Z.pos mx * (100 * 2 ^ 46)).
  { apply Z.le_trans with (2 ^ 104); [apply Z.pow_le_mono_r; lia | exact HP104]. }
  specialize (Hy52 HP52).
  destruct (- s + N1 + -46 + N2 <=? emax - prec); [| discriminate].
  cbn [int_of_float xorb].
  set (A := 2 ^ s) in *. set (B1 := 2 ^ N1) in *. set (B2 := 2 ^ N2) in *.
  assert (HA : 0 < A) by (apply Z.pow_pos_nonneg; lia).
  assert (HB1 : 0 < B1) by (apply Z.pow_pos_nonneg; lia).
  assert (HB2 : 0 < B2) by (apply Z.pow_pos_nonneg; lia).
  (* the first rounding shifts by at least ten places less than [s] *)
  assert (HcB : Z.pos c * B1 * (2 ^ 52 - 1) <= Z.pos u * A).
  { assert (Z.pos c * (Z.pos mx * B1) <= Z.pos c * mz + Z.pos c * B1) by nia.
    assert (Z.pos c * B1 * (Z.pos mx - 1) <= Z.pos u * A) by nia.
    assert (Z.pos c * B1 * (2 ^ 52 - 1) <= Z.pos c * B1 * (Z.pos mx - 1)) by nia.
    lia. }
  assert (HsN : N1 + 10 <= s).
  { destruct (Z.le_gt_cases (N1 + 10) s) as [H | H]; [exact H | exfalso].
    assert (HA9 : A <= 2 ^ 9 * B1).
    { subst A B1. rewrite <- Z.pow_add_r by lia. apply Z.pow_le_mono_r; lia. }
    change (2 ^ 52) with 4503599627370496 in *. change (2 ^ 9) with 512 in *.
    change (2 ^ 42) with 4398046511104 in *.
    assert (Z.pos u * A <= Z.pos u * (512 * B1))
      by (apply Z.mul_le_mono_nonneg_l; lia).
    assert (Z.pos u * (512 * B1) < 4398046511104 * (512 * B1))
      by (apply Z.mul_lt_mono_pos_r; lia).
    assert (1 * (B1 * 4503599627370495) <= Z.pos c * (B1 * 4503599627370495))
      by (apply Z.mul_le_mono_nonneg_r; lia).
    lia. }
  assert (HAB : 1024 * B1 <= A).
  { subst A B1. change 1024 with (2 ^ 10). rewrite <- Z.pow_add_r by lia.
    apply Z.pow_le_mono_r; lia. }
  assert (HN2' : N2 <= 53).
  { destruct (Z.le_gt_cases N2 53) as [H | H]; [exact H | exfalso].
    assert (HB54 : 2 ^ 54 <= B2) by (subst B2; apply Z.pow_le_mono_r; lia).
    change (2 ^ 52) with 4503599627370496 in *.
    change (2 ^ 53) with 9007199254740992 in *.
    change (2 ^ 54) with 18014398509481984 in *.
    change (2 ^ 46) with 70368744177664 in *.
    assert (4503599627370495 * 18014398509481984 <= (Z.pos my - 1) * B2)
      by (apply Z.mul_le_mono_nonneg; lia).
    assert (Z.pos mx * (100 * 70368744177664)
            < 9007199254740992 * (100 * 70368744177664))
      by (apply Z.mul_lt_mono_pos_r; lia).
    lia. }
  assert (HB2' : B2 <= 2 ^ 53) by (subst B2; apply Z.pow_le_mono_r; lia).
  set (E := s + 46 - N1 - N2).
  assert (HE : 0 < E) by (subst E; lia).
  replace (- s + N1 + -46 + N2) with (- E) by (subst E; lia).
  destruct (Z.leb_spec 0 (- E)) as [Hbad | _]; [lia |].
  rewrite Z.opp_involutive. intro H. injection H as <-.
  set (D := 2 ^ E).
  assert (HD : 0 < D) by (apply Z.pow_pos_nonneg; lia).
  assert (HDB : D * (B1 * B2) = A * 2 ^ 46).
  { subst D B1 B2 A E. rewrite <- !Z.pow_add_r by lia. f_equal. lia. }
  pose proof (Z.mul_div_le (100 * Z.pos u) (Z.pos c) ltac:(lia)) as HF1.
  pose proof (Z.mul_succ_div_gt (100 * Z.pos u) (Z.pos c) ltac:(lia)) as HF2.
  set (F := 100 * Z.pos u / Z.pos c) in *.
  split.
  - apply Z.div_le_lower_bound; [exact HD |]. rewrite Z.mul_comm.
    apply (percent_arith_lower (Z.pos c) (Z.pos u) mz (Z.pos mx) (Z.pos my)
             A B1 B2 D F); try lia.
  - apply Z.lt_succ_r. apply Z.div_lt_upper_bound; [exact HD |].
    rewrite Z.mul_comm. unfold Z.succ.
    apply (percent_arith_upper (Z.pos c) (Z.pos u) mz (Z.pos mx) (Z.pos my)
             A B1 B2 D F); try lia.
Qed.
End PercentAccuracy.

(** X17. For a usage below [2^42] and a positive capacity below [2^1000],
    the percentage of the warning, [(int)((vram_usage / VRAM_TOTAL) * 100)],
    is computed without an error and is either the exact percentage
    [100 * vram_usage / VRAM_TOTAL] truncated to an integer, or one less:
    the two float roundings never add to it and never take more than one
    from it. *)
Theorem percentage_is_floor_or_one_less (u c : Z) :
  0 <= u < 2 ^ 42 -> 0 < c < 2 ^ 1000 ->
  exists pct, percent u c = inr pct /\ 100 * u / c - 1 <= pct <= 100 * u / c.
Proof.
  intros Hu Hc.
  assert (Hu' : 0 <= u < 2 ^ 1000).
  { split; [lia |]. apply Z.lt_trans with (2 ^ 42); [lia |].
    apply Z.pow_lt_mono_r; lia. }
  destruct (FloatBounds.percent_total u c Hu' ltac:(lia)) as (pct & Hp & _).
  exists pct. split; [exact Hp |].
  exact (PercentAccuracy.percent_within_one u c pct Hu Hc Hp).
Qed.

Lemma percentage_is_floor_or_one_less_witness :
  exists pct, percent 29 100 = inr pct /\ 100 * 29 / 100 - 1 <= pct <= 100 * 29 / 100.
Proof.
  apply (percentage_is_floor_or_one_less 29 100); split; vm_compute;
    (reflexivity || discriminate).
Defined.

(** ** Normal floats and their values *)

Module FloatValue.
Import FloatBounds Rounding.


Lemma exp_lower (m e S K : Z) :
  0 < m < 2 ^ 53 -> 0 <= e + S ->
  2 ^ (K + S) <= m * 2 ^ (e + S) -> K < e + 53.
Proof.
  intros Hm He Hle.
  assert (H0 : 0 < 2 ^ (e + S)) by (apply Z.pow_pos_nonneg; lia).
  assert (H1 : m * 2 ^ (e + S) < 2 ^ 53 * 2 ^ (e + S))
    by (apply Z.mul_lt_mono_pos_r; lia).
  rewrite <- Z.pow_add_r in H1 by lia.
  assert (K + S < 53 + (e + S)) by (apply (Z.pow_lt_mono_r_iff 2); lia).
  lia.
Qed.

(** The digits of a mantissa whose value lies between 1 and [2^K]. *)
Lemma digits_range (p e S K : Z) :
  0 < p -> 0 <= S -> 0 <= e + S -> 0 <= K ->
  2 ^ S <= p * 2 ^ (e + S) < 2 ^ (K + S) ->
  0 < Zdigits2 p + e <= K.
Proof.
  intros Hp HS He HK [Hlo Hhi].
  pose proof (digits_bounds p Hp) as [Hdl Hdh].
  pose proof (digits_pos p Hp) as Hd.
  assert (H0 : 0 < 2 ^ (e + S)) by (apply Z.pow_pos_nonneg; lia).
  assert (H1 : 2 ^ (Zdigits2 p - 1) * 2 ^ (e + S) <= p * 2 ^ (e + S))
    by (apply Z.mul_le_mono_nonneg_r; lia).
  assert (H2 : p * 2 ^ (e + S) < 2 ^ Zdigits2 p * 2 ^ (e + S))
    by (apply Z.mul_lt_mono_pos_r; lia).
  rewrite <- Z.pow_add_r in H1, H2 by lia.
  assert (Zdigits2 p - 1 + (e + S) < K + S) by (apply (Z.pow_lt_mono_r_iff 2); lia).
  assert (S < Zdigits2 p + (e + S)) by (apply (Z.pow_lt_mono_r_iff 2); lia).
  lia.
Qed.

(** Rounding a mantissa of at least 53 bits: the result is normal and within
    one unit in its last place, that is, within [2^-52] of itself. *)
Lemma round_aux_worth (S : Z) (m : positive) (e : Z) :
  0 <= e + S -> 2 ^ 52 <= Zpos m ->
  -1021 <= Zdigits2 (Zpos m) + e <= 1000 ->
  exists V,
    worth S (binary_round_aux prec emax false (Zpos m) e loc_Exact) V
    /\ 2 ^ 52 * (V - Zpos m * 2 ^ (e + S)) <= V
    /\ 2 ^ 52 * (Zpos m * 2 ^ (e + S) - V) <= V
    /\ (Zpos m < 2 ^ 53 -> V = Zpos m * 2 ^ (e + S)).
Proof.
  intros He Hm [Hr1 Hr2].
  destruct (round_close false (Zpos m) e loc_Exact ltac:(lia) Hr1)
    as (m' & N & HN & Hu & Hl & H53 & H52 & Hex & ->).
  specialize (H52 Hm).
  pose proof (digits_bounds (Zpos m) ltac:(lia)) as [Hdl Hdh].
  pose proof (digits_lower (Zpos m) 53 Hm ltac:(lia)) as Hd.
  set (d := Zdigits2 (Zpos m)) in *.
  assert (HP : 0 < 2 ^ N) by (apply Z.pow_pos_nonneg; lia).
  assert (HNd : N <= d - 52).
  { destruct (Z.le_gt_cases N (d - 52)) as [H | H]; [exact H | exfalso].
    assert (H1 : 2 ^ (d - 51) <= 2 ^ N) by (apply Z.pow_le_mono_r; lia).
    assert (H2 : 2 ^ d = 2 ^ 51 * 2 ^ (d - 51))
      by (rewrite <- Z.pow_add_r by lia; f_equal; lia).
    assert (H3 : (2 ^ 52 - 1) * 2 ^ N <= (Zpos m' - 1) * 2 ^ N)
      by (apply Z.mul_le_mono_nonneg_r; lia).
    assert (H4 : 0 < 2 ^ (d - 51)) by (apply Z.pow_pos_nonneg; lia).
    change (2 ^ 52) with 4503599627370496 in *.
    change (2 ^ 51) with 2251799813685248 in *. lia. }
  destruct (Z.leb_spec (e + N) (emax - prec)) as [_ | Hbad];
    [| unfold emax, prec in Hbad; lia].
  assert (HE : 0 < 2 ^ (e + S)) by (apply Z.pow_pos_nonneg; lia).
  exists (Zpos m' * 2 ^ (e + N + S)).
  replace (e + N + S) with (N + (e + S)) by lia.
  rewrite Z.pow_add_r by lia.
  split; [| split; [| split]].
  - exists m', (e + N). split; [reflexivity |]. split; [lia |]. split; [lia |].
    replace (e + N + S) with (N + (e + S)) by lia.
    now rewrite (Z.pow_add_r 2 N (e + S)) by lia.
  - assert (H1 : Zpos m' * 2 ^ N * 2 ^ (e + S) <= (Zpos m + 2 ^ N) * 2 ^ (e + S))
      by (apply Z.mul_le_mono_nonneg_r; lia).
    assert (H2 : 2 ^ 52 * (2 ^ N * 2 ^ (e + S)) <= Zpos m' * (2 ^ N * 2 ^ (e + S)))
      by (apply Z.mul_le_mono_nonneg_r; [apply Z.mul_nonneg_nonneg |]; lia).
    lia.
  - assert (H1 : Zpos m * 2 ^ (e + S) <= (Zpos m' + 1) * 2 ^ N * 2 ^ (e + S))
      by (apply Z.mul_le_mono_nonneg_r; lia).
    assert (H2 : 2 ^ 52 * (2 ^ N * 2 ^ (e + S)) <= Zpos m' * (2 ^ N * 2 ^ (e + S)))
      by (apply Z.mul_le_mono_nonneg_r; [apply Z.mul_nonneg_nonneg |]; lia).
    lia.
  - intro Hlt. destruct (Hex eq_refl Hlt) as [-> ->]. change (2 ^ 0) with 1. lia.
Qed.

Lemma shl_align_fst (m : positive) (e e' : Z) :
  e' <= e -> Zpos (fst (shl_align m e e')) = Zpos m * 2 ^ (e - e')
             /\ snd (shl_align m e e') = e'.
Proof.
  intro Hle. unfold shl_align.
  destruct (e' - e) as [| d | d] eqn:Hd; cbn [fst snd]; try lia.
  - replace (e - e') with 0 by lia. change (2 ^ 0) with 1. lia.
  - change (Pos.iter xO m d) with (shift_pos d m).
    rewrite shift_pos_correct, Z.pow_pos_fold.
    replace (e - e') with (Zpos d) by lia. lia.
Qed.

(** [binary_round] on a value between 1 and [2^1000]. *)
Lemma binary_round_worth (S : Z) (m : positive) (e : Z) :
  52 <= e + S ->
  -1021 <= Zdigits2 (Zpos m) + e <= 1000 ->
  exists V,
    worth S (binary_round prec emax false m e) V
    /\ 2 ^ 52 * (V - Zpos m * 2 ^ (e + S)) <= V
    /\ 2 ^ 52 * (Zpos m * 2 ^ (e + S) - V) <= V
    /\ (Zpos m < 2 ^ 53 -> V = Zpos m * 2 ^ (e + S)).
Proof.
  intros He [Hr1 Hr2]. unfold binary_round.
  change (Zpos (digits2_pos m)) with (Zdigits2 (Zpos m)).
  pose proof (digits_bounds (Zpos m) ltac:(lia)) as [Hdl Hdh].
  pose proof (digits_pos (Zpos m) ltac:(lia)) as Hd1.
  set (d := Zdigits2 (Zpos m)) in *.
  assert (Hf : fexp prec emax (d + e) = d + e - 53) by (unfold fexp, emin, prec, emax; lia).
  rewrite Hf.
  destruct (Z.le_gt_cases 53 d) as [Hbig | Hsmall].
  - (* no shift *)
    assert (Hs : shl_align m e (d + e - 53) = (m, e)).
    { unfold shl_align. destruct (d + e - 53 - e) eqn:Hx; try reflexivity; lia. }
    rewrite Hs.
    assert (H52 : 2 ^ 52 <= Zpos m).
    { apply Z.le_trans with (2 ^ (d - 1)); [apply Z.pow_le_mono_r; lia | exact Hdl]. }
    apply round_aux_worth; fold d; lia.
  - destruct (shl_align_fst m e (d + e - 53) ltac:(lia)) as [Hm2 He2].
    destruct (shl_align m e (d + e - 53)) as [m2 e2]. cbn [fst snd] in *. subst e2.
    replace (e - (d + e - 53)) with (53 - d) in Hm2 by lia.
    assert (HP : 0 < 2 ^ (53 - d)) by (apply Z.pow_pos_nonneg; lia).
    assert (Hlo : 2 ^ 52 <= Zpos m2).
    { rewrite Hm2. replace 52 with ((d - 1) + (53 - d)) at 1 by lia.
      rewrite Z.pow_add_r by lia. apply Z.mul_le_mono_nonneg_r; lia. }
    assert (Hhi : Zpos m2 < 2 ^ 53).
    { rewrite Hm2. replace 53 with (d + (53 - d)) at 2 by lia.
      rewrite Z.pow_add_r by lia. apply Z.mul_lt_mono_pos_r; lia. }
    assert (Hd2 : Zdigits2 (Zpos m2) = 53).
    { apply Z.le_antisymm; [apply digits_upper | apply digits_lower]; lia. }
    destruct (round_aux_worth S m2 (d + e - 53) ltac:(lia) Hlo ltac:(lia))
      as (V & HV & _ & _ & Hex).
    specialize (Hex Hhi).
    assert (HVP : V = Zpos m * 2 ^ (e + S)).
    { rewrite Hex, Hm2, <- Z.mul_assoc, <- Z.pow_add_r by lia. do 2 f_equal. lia. }
    exists V. split; [exact HV |]. rewrite <- HVP.
    destruct HV as (m' & e' & _ & Hm' & He' & HVm).
    assert (0 < V).
    { rewrite HVm. apply Z.mul_pos_pos; [lia | apply Z.pow_pos_nonneg; lia]. }
    repeat split; intros; lia.
Qed.

Lemma float_of_Z_worth (S n : Z) :
  52 <= S -> 0 < n < 2 ^ 53 -> worth S (float_of_Z n) (n * 2 ^ S).
Proof.
  intros HS [Hn Hlt]. destruct n as [| p |]; try lia.
  unfold float_of_Z, binary_normalize.
  pose proof (digits_pos (Zpos p) ltac:(lia)) as Hd.
  pose proof (digits_upper (Zpos p) 53 ltac:(lia) ltac:(lia) Hlt) as Hd'.
  destruct (binary_round_worth S p 0 ltac:(lia) ltac:(lia)) as (V & HV & _ & _ & Hex).
  rewrite (Hex Hlt) in HV. exact HV.
Qed.

End FloatValue.

(** ** Float operations on values of at least 1 *)

Module FloatOps.
Import FloatBounds Rounding FloatValue.

Lemma digits_hi (p e S K : Z) :
  0 < p -> 0 <= e + S -> 0 <= K + S ->
  p * 2 ^ (e + S) < 2 ^ (K + S) -> Zdigits2 p + e <= K.
Proof.
  intros Hp He HK Hhi.
  pose proof (digits_bounds p Hp) as [Hdl _].
  pose proof (digits_pos p Hp) as Hd.
  assert (H1 : 2 ^ (Zdigits2 p - 1) * 2 ^ (e + S) <= p * 2 ^ (e + S))
    by (apply Z.mul_le_mono_nonneg_r; [apply Z.pow_nonneg |]; lia).
  rewrite <- Z.pow_add_r in H1 by lia.
  assert (Zdigits2 p - 1 + (e + S) < K + S) by (apply (Z.pow_lt_mono_r_iff 2); lia).
  lia.
Qed.

Lemma worth_pos (S : Z) (f : spec_float) (V : Z) : worth S f V -> 0 < V.
Proof.
  intros (m & e & _ & _ & He & ->).
  apply Z.mul_pos_pos; [lia | apply Z.pow_pos_nonneg; lia].
Qed.

(** The product of two normal floats. *)
Lemma SFmul_worth (S1 S2 : Z) (x y : spec_float) (Vx Vy : Z) :
  worth S1 x Vx -> worth S2 y Vy -> 0 <= S1 + S2 <= 1000 ->
  Vx * Vy < 2 ^ (900 + (S1 + S2)) ->
  exists V,
    worth (S1 + S2) (SFmul prec emax x y) V
    /\ 2 ^ 52 * (V - Vx * Vy) <= V
    /\ 2 ^ 52 * (Vx * Vy - V) <= V.
Proof.
  intros (mx & ex & -> & Hmx & Hex & ->) (my & ey & -> & Hmy & Hey & ->) HS Hlt.
  unfold SFmul. cbn [xorb].
  assert (HP : Zpos mx * 2 ^ (ex + S1) * (Zpos my * 2 ^ (ey + S2))
               = Zpos (mx * my) * 2 ^ (ex + ey + (S1 + S2))).
  { rewrite Pos2Z.inj_mul.
    replace (ex + ey + (S1 + S2)) with ((ex + S1) + (ey + S2)) by lia.
    rewrite (Z.pow_add_r 2 (ex + S1) (ey + S2)) by lia. ring. }
  rewrite HP in *.
  assert (H52 : 0 < 2 ^ 52) by (apply Z.pow_pos_nonneg; lia).
  assert (Hm : 2 ^ 52 <= Zpos (mx * my)).
  { rewrite Pos2Z.inj_mul.
    assert (2 ^ 52 * 1 <= Zpos mx * Zpos my) by (apply Z.mul_le_mono_nonneg; lia).
    lia. }
  pose proof (digits_hi (Zpos (mx * my)) (ex + ey) (S1 + S2) 900
                ltac:(lia) ltac:(lia) ltac:(lia) Hlt) as Hd.
  pose proof (digits_pos (Zpos (mx * my)) ltac:(lia)) as Hd1.
  destruct (round_aux_worth (S1 + S2) (mx * my) (ex + ey) ltac:(lia) Hm ltac:(lia))
    as (V & HV & Hu & Hl & _).
  exists V. auto.
Qed.

(** Normalising a positive integer mantissa worth between 1 and [2^900]. *)
Lemma normalize_worth (S D ez P : Z) :
  52 <= ez + S -> 0 <= S <= 1000 ->
  D * 2 ^ (ez + S) = P -> 2 ^ S <= P < 2 ^ (900 + S) ->
  exists V,
    worth S (binary_normalize prec emax D ez false) V
    /\ 2 ^ 52 * (V - P) <= V
    /\ 2 ^ 52 * (P - V) <= V.
Proof.
  intros He HS HP [Hlo Hhi].
  assert (H0 : 0 < 2 ^ (ez + S)) by (apply Z.pow_pos_nonneg; lia).
  assert (HS0 : 0 < 2 ^ S) by (apply Z.pow_pos_nonneg; lia).
  assert (HD : 0 < D) by nia.
  destruct D as [| p |]; try lia.
  pose proof (digits_range (Zpos p) ez S 900 ltac:(lia) ltac:(lia) ltac:(lia)
                ltac:(lia) ltac:(lia)) as Hd.
  unfold binary_normalize.
  destruct (binary_round_worth S p ez He ltac:(lia)) as (V & HV & Hu & Hl & _).
  exists V. rewrite <- HP. auto.
Qed.

Lemma worth_exp (S : Z) (m : positive) (e V : Z) :
  2 ^ 52 <= Zpos m < 2 ^ 53 -> 0 <= e + S -> V = Zpos m * 2 ^ (e + S) ->
  0 <= S -> 2 ^ S <= V -> -52 <= e.
Proof.
  intros Hm He -> HS Hlo.
  pose proof (exp_lower (Zpos m) e S 0 ltac:(lia) He Hlo). lia.
Qed.

Lemma aligned_value (m : positive) (e ez S : Z) :
  ez <= e -> 0 <= ez + S ->
  Zpos (fst (shl_align m e ez)) * 2 ^ (ez + S) = Zpos m * 2 ^ (e + S).
Proof.
  intros Hle He. destruct (shl_align_fst m e ez Hle) as [-> _].
  rewrite <- Z.mul_assoc, <- Z.pow_add_r by lia. do 2 f_equal. lia.
Qed.

(** The sum of two normal floats that are at least 1. *)
Lemma SFadd_worth (S : Z) (x y : spec_float) (Vx Vy : Z) :
  104 <= S <= 1000 -> worth S x Vx -> worth S y Vy ->
  2 ^ S <= Vx -> 2 ^ S <= Vy -> Vx + Vy < 2 ^ (900 + S) ->
  exists V,
    worth S (SFadd prec emax x y) V
    /\ 2 ^ 52 * (V - (Vx + Vy)) <= V
    /\ 2 ^ 52 * (Vx + Vy - V) <= V.
Proof.
  intros HS (mx & ex & -> & Hmx & Hex & HVx) (my & ey & -> & Hmy & Hey & HVy)
    Hx1 Hy1 Hlt.
  pose proof (worth_exp S mx ex Vx Hmx Hex HVx ltac:(lia) Hx1) as Hex'.
  pose proof (worth_exp S my ey Vy Hmy Hey HVy ltac:(lia) Hy1) as Hey'.
  unfold SFadd. cbv zeta. unfold cond_Zopp.
  set (ez := Z.min ex ey).
  pose proof (aligned_value mx ex ez S ltac:(lia) ltac:(lia)) as Hax.
  pose proof (aligned_value my ey ez S ltac:(lia) ltac:(lia)) as Hay.
  assert (HS0 : 0 < 2 ^ S) by (apply Z.pow_pos_nonneg; lia).
  apply normalize_worth; lia.
Qed.

(** The difference of two normal floats, when it is at least 1. *)
Lemma SFsub_worth (S : Z) (x y : spec_float) (Vx Vy : Z) :
  104 <= S <= 1000 -> worth S x Vx -> worth S y Vy ->
  2 ^ S <= Vy -> Vy + 2 ^ S <= Vx -> Vx < 2 ^ (900 + S) ->
  exists V,
    worth S (SFsub prec emax x y) V
    /\ 2 ^ 52 * (V - (Vx - Vy)) <= V
    /\ 2 ^ 52 * (Vx - Vy - V) <= V.
Proof.
  intros HS (mx & ex & -> & Hmx & Hex & HVx) (my & ey & -> & Hmy & Hey & HVy)
    Hy1 Hd1 Hlt.
  assert (HS0 : 0 < 2 ^ S) by (apply Z.pow_pos_nonneg; lia).
  pose proof (worth_exp S mx ex Vx Hmx Hex HVx ltac:(lia) ltac:(lia)) as Hex'.
  pose proof (worth_exp S my ey Vy Hmy Hey HVy ltac:(lia) Hy1) as Hey'.
  unfold SFsub. cbv zeta. unfold cond_Zopp.
  set (ez := Z.min ex ey).
  pose proof (aligned_value mx ex ez S ltac:(lia) ltac:(lia)) as Hax.
  pose proof (aligned_value my ey ez S ltac:(lia) ltac:(lia)) as Hay.
  apply normalize_worth; lia.
Qed.

(** Normal floats compare as their values do. *)
Lemma SFcompare_worth_lt (S : Z) (x y : spec_float) (Vx Vy : Z) :
  worth S x Vx -> worth S y Vy -> Vx < Vy -> SFcompare x y = Some Lt.
Proof.
  intros (mx & ex & -> & Hmx & Hex & ->) (my & ey & -> & Hmy & Hey & ->) Hlt.
  unfold SFcompare. f_equal.
  assert (Hpx : 0 < 2 ^ (ex + S)) by (apply Z.pow_pos_nonneg; lia).
  assert (Hpy : 0 < 2 ^ (ey + S)) by (apply Z.pow_pos_nonneg; lia).
  destruct (Z.compare_spec ex ey) as [Heq | Hl | Hg].
  - subst ey. change (Pos.compare_cont Eq mx my) with (Zpos mx ?= Zpos my).
    apply Z.compare_lt_iff.
    apply (Z.mul_lt_mono_pos_r (2 ^ (ex + S))); [exact Hpx | exact Hlt].
  - reflexivity.
  - exfalso.
    assert (H1 : 2 ^ (ex + S) = 2 ^ (ex - ey) * 2 ^ (ey + S))
      by (rewrite <- Z.pow_add_r by lia; f_equal; lia).
    assert (H2 : 2 ^ 1 <= 2 ^ (ex - ey)) by (apply Z.pow_le_mono_r; lia).
    change (2 ^ 1) with 2 in H2.
    assert (H3 : 2 * 2 ^ (ey + S) <= 2 ^ (ex + S))
      by (rewrite H1; apply Z.mul_le_mono_nonneg_r; lia).
    assert (H4 : 2 ^ 52 * 2 ^ (ex + S) <= Zpos mx * 2 ^ (ex + S))
      by (apply Z.mul_le_mono_nonneg_r; lia).
    assert (H5 : Zpos my * 2 ^ (ey + S) < 2 ^ 53 * 2 ^ (ey + S))
      by (apply Z.mul_lt_mono_pos_r; lia).
    change (2 ^ 52) with 4503599627370496 in *.
    change (2 ^ 53) with 9007199254740992 in *. lia.
Qed.

(** An integer compares with a normal float as with its value. *)
Lemma compare_int_float_worth (S : Z) (f : spec_float) (V u : Z) :
  worth S f V -> 0 <= S -> compare_int_float u f = Some (u * 2 ^ S ?= V).
Proof.
  intros (m & e & -> & Hm & He & ->) HS. unfold compare_int_float. f_equal.
  destruct (Z.leb_spec 0 e) as [Hpos | Hneg].
  - rewrite Z.pow_add_r by lia. rewrite Z.mul_assoc.
    rewrite (Z.mul_comm (Zpos m * 2 ^ e)), (Z.mul_comm u).
    assert (Hp : 2 ^ S > 0) by (apply Z.lt_gt, Z.pow_pos_nonneg; lia).
    destruct (2 ^ S) as [| p |] eqn:Hq; try lia.
    now rewrite Zcompare_mult_compat.
  - assert (HSe : 2 ^ S = 2 ^ (- e) * 2 ^ (e + S))
      by (rewrite <- Z.pow_add_r by lia; f_equal; lia).
    rewrite HSe, Z.mul_assoc.
    rewrite (Z.mul_comm (u * 2 ^ (- e))), (Z.mul_comm (Zpos m)).
    assert (Hp : 2 ^ (e + S) > 0) by (apply Z.lt_gt, Z.pow_pos_nonneg; lia).
    destruct (2 ^ (e + S)) as [| p |] eqn:Hq; try lia.
    now rewrite Zcompare_mult_compat.
Qed.

End FloatOps.

(** ** The thresholds after auto-detection *)

Module AutoMode.
Import FloatBounds Rounding FloatValue FloatOps.

Lemma point_nine_worth : worth 53 point_nine 8106479329266893.
Proof.
  exists 8106479329266893%positive, (-53).
  split; [vm_compute; reflexivity |]. split; [lia |]. split; [lia | reflexivity].
Qed.

Ltac literal t := let v := eval vm_compute in t in change t with v in *.

Lemma below_pow_1100 (V : Z) : V < 2 ^ 300 -> V < 2 ^ (900 + 200).
Proof.
  intro H. apply Z.lt_trans with (2 ^ 300); [exact H |].
  apply Z.pow_lt_mono_r; lia.
Qed.

(** The ceiling, the first threshold and the first firing level after
    auto-detection, as multiples of [2^-200]. *)
Lemma auto_thresholds (n : Z) :
  24 <= n < 2 ^ 40 ->
  exists Vc V0 V1,
    worth 200 (auto_ceiling n) Vc
    /\ worth 200 (SFsub prec emax (auto_ceiling n) (float_of_Z 20)) V0
    /\ worth 200 (SFadd prec emax (SFsub prec emax (auto_ceiling n) (float_of_Z 20))
                    (float_of_Z 100)) V1
    /\ V0 < Vc
    /\ (9 * n + 799) * 2 ^ 200 <= 10 * V1 < (9 * n + 801) * 2 ^ 200.
Proof.
  intros [Hlo Hhi].
  assert (Hn53 : 0 < n < 2 ^ 53).
  { split; [lia |]. apply Z.lt_trans with (2 ^ 40); [exact Hhi | lia]. }
  pose proof (float_of_Z_worth 147 n ltac:(lia) Hn53) as Hg.
  pose proof (float_of_Z_worth 200 20 ltac:(lia) ltac:(lia)) as H20.
  pose proof (float_of_Z_worth 200 100 ltac:(lia) ltac:(lia)) as H100.
  literal (2 ^ 40). literal (2 ^ 147). literal (2 ^ 200). literal (2 ^ 52).
  destruct (SFmul_worth 147 53 _ _ _ _ Hg point_nine_worth ltac:(lia))
    as (Vc & HVc & Hcu & Hcl).
  { apply below_pow_1100. literal (2 ^ 300). lia. }
  change (147 + 53) with 200 in HVc. fold (auto_ceiling n) in HVc.
  literal (2 ^ 52).
  destruct (SFsub_worth 200 _ _ _ _ ltac:(lia) HVc H20) as (V0 & HV0 & H0u & H0l).
  { literal (2 ^ 200). lia. }
  { literal (2 ^ 200). lia. }
  { apply below_pow_1100. literal (2 ^ 300). lia. }
  literal (2 ^ 52).
  destruct (SFadd_worth 200 _ _ _ _ ltac:(lia) HV0 H100) as (V1 & HV1 & H1u & H1l).
  { literal (2 ^ 200). lia. }
  { literal (2 ^ 200). lia. }
  { apply below_pow_1100. literal (2 ^ 300). lia. }
  literal (2 ^ 52).
  exists Vc, V0, V1. repeat split; try assumption; lia.
Qed.

End AutoMode.

Module AutoLoop.
Import FloatBounds Rounding FloatValue FloatOps AutoMode.

Lemma float_of_int_finite (n : Z) :
  0 < n < 2 ^ 53 -> float_of_int n = inr (float_of_Z n).
Proof.
  intro Hn. destruct (float_of_Z_worth 52 n ltac:(lia) Hn) as (m & e & Hf & _).
  unfold float_of_int. now rewrite Hf.
Qed.

Lemma capacity_below_2_53 (n : Z) : 24 <= n < 2 ^ 40 -> 0 < n < 2 ^ 53.
Proof. intros [Hlo Hhi]. split; [lia |]. apply Z.lt_trans with (2 ^ 40); [exact Hhi | lia]. Qed.

(** What auto-detection does when both start-up queries answer and the
    second answer is an integer. *)
Lemma update_variables_auto (cfg : config) (w : world) (name text : string) (n : Z) :
  name_q w = QOutput name -> total_q w = QOutput text ->
  int_of_str (strip text) = Some n -> 0 < n < 2 ^ 53 ->
  update_variables cfg w
  = ([LogMess 0 MAttempt; LogMess 1 (MDetectedGPU (strip name));
      LogMess 1 (MDetectedVRAM n);
      LogMess 1 (MMaxUsageSet (PyFloat (auto_ceiling n)));
      LogMess 1 (MUpdateEvery WAITTIME); LogMess 1 (MMaxTemp MAX_TEMP)],
     Ok (auto_config n)).
Proof.
  intros Hname Htotal Hint Hn. unfold update_variables.
  rewrite Hname, Htotal, Hint. unfold int_mul_float.
  rewrite (float_of_int_finite n Hn). reflexivity.
Qed.

Lemma initial_threshold_auto (n : Z) :
  initial_threshold (auto_config n)
  = PyFloat (SFsub prec emax (auto_ceiling n) (float_of_Z 20)).
Proof. reflexivity. Qed.

(** The first [if] leaves the threshold of the start where it is. *)
Lemma auto_rearm_idle (n u : Z) :
  24 <= n < 2 ^ 40 ->
  rearm (auto_config n) (initial_threshold (auto_config n)) u
  = initial_threshold (auto_config n).
Proof.
  intro Hn. destruct (auto_thresholds n Hn) as (Vc & V0 & V1 & HVc & HV0 & _ & Hlt & _).
  unfold rearm. rewrite initial_threshold_auto.
  assert (Hge : geb (PyFloat (SFsub prec emax (auto_ceiling n) (float_of_Z 20)))
                  (MAX_VRAM_USAGE (auto_config n)) = false).
  { unfold geb, compare_num, auto_config, MAX_VRAM_USAGE.
    now rewrite (SFcompare_worth_lt 200 _ _ V0 Vc HV0 HVc Hlt). }
  rewrite Hge, andb_false_r. reflexivity.
Qed.

(** The second [if] at the threshold of the start: the sample is compared
    with nine tenths of the capacity plus 80. *)
Lemma auto_fire_test (n u : Z) :
  24 <= n < 2 ^ 40 ->
  (10 * u < 9 * n + 800 ->
   gtb (PyInt u) (add_int (initial_threshold (auto_config n)) THRESHOLD) = false)
  /\ (9 * n + 800 < 10 * u ->
      gtb (PyInt u) (add_int (initial_threshold (auto_config n)) THRESHOLD) = true).
Proof.
  intro Hn. destruct (auto_thresholds n Hn) as (Vc & V0 & V1 & _ & _ & HV1 & _ & Hb).
  rewrite initial_threshold_auto. unfold gtb, add_int, compare_num.
  change THRESHOLD with 100.
  rewrite (compare_int_float_worth 200 _ V1 u HV1 ltac:(lia)).
  assert (HX : 0 < 2 ^ 200) by (apply Z.pow_pos_nonneg; lia).
  split; intro Hu.
  - assert (10 * u * 2 ^ 200 <= (9 * n + 799) * 2 ^ 200)
      by (apply Z.mul_le_mono_nonneg_r; lia).
    destruct (Z.compare_spec (u * 2 ^ 200) V1); try reflexivity. lia.
  - assert ((9 * n + 801) * 2 ^ 200 <= 10 * u * 2 ^ 200)
      by (apply Z.mul_le_mono_nonneg_r; lia).
    destruct (Z.compare_spec (u * 2 ^ 200) V1); try reflexivity; lia.
Qed.

Lemma auto_tick_quiet (n : Z) (i : tick_input) :
  24 <= n < 2 ^ 40 -> below_auto_limit n i ->
  exists u g,
    tick (auto_config n) (initial_threshold (auto_config n)) i
    = ([LogMess 0 (MUsageLine u g); Sleep WAITTIME],
       Ok (initial_threshold (auto_config n))).
Proof.
  intros Hn (u & g & Hu & Hg & Hlt). exists u, g.
  rewrite (tick_sampled _ _ i u g Hu Hg), fire_check_cases, (auto_rearm_idle n u Hn).
  destruct (auto_fire_test n u Hn) as [Hq _]. rewrite (Hq Hlt). reflexivity.
Qed.

(** Samples below the limit change nothing: the loop goes on from the
    threshold of the start, having raised no alert. *)
Lemma auto_loop_quiet (n : Z) (quiet rest : list tick_input) :
  24 <= n < 2 ^ 40 -> Forall (below_auto_limit n) quiet ->
  alerts (trace (monitor_loop (auto_config n) (initial_threshold (auto_config n))
                   (quiet ++ rest)))
  = alerts (trace (monitor_loop (auto_config n) (initial_threshold (auto_config n))
                     rest))
  /\ outcome_of (monitor_loop (auto_config n) (initial_threshold (auto_config n))
                   (quiet ++ rest))
     = outcome_of (monitor_loop (auto_config n) (initial_threshold (auto_config n))
                     rest).
Proof.
  intros Hn Hq. induction Hq as [| i quiet Hi _ IH]; [now split |].
  destruct (auto_tick_quiet n i Hn Hi) as (u & g & Ht).
  cbn [app monitor_loop]. rewrite Ht. unfold bind.
  destruct (monitor_loop (auto_config n) (initial_threshold (auto_config n))
              (quiet ++ rest)) as [tr r].
  unfold trace, outcome_of in *. cbn [fst snd] in *.
  destruct IH as [IHa IHo]. split; [| exact IHo].
  rewrite alerts_app. exact IHa.
Qed.

End AutoLoop.

Module AutoCeiling.
Import FloatBounds Rounding FloatValue FloatOps AutoMode.

(** The detected ceiling lies within a tenth of nine tenths of the
    capacity. *)
Lemma auto_ceiling_worth (n : Z) :
  0 < n < 2 ^ 40 ->
  exists Vc,
    worth 200 (auto_ceiling n) Vc
    /\ (9 * n - 1) * 2 ^ 200 < 10 * Vc < (9 * n + 1) * 2 ^ 200.
Proof.
  intros [Hlo Hhi].
  assert (Hn53 : 0 < n < 2 ^ 53).
  { split; [lia |]. apply Z.lt_trans with (2 ^ 40); [exact Hhi | lia]. }
  pose proof (float_of_Z_worth 147 n ltac:(lia) Hn53) as Hg.
  literal (2 ^ 40). literal (2 ^ 147). literal (2 ^ 200). literal (2 ^ 52).
  destruct (SFmul_worth 147 53 _ _ _ _ Hg point_nine_worth ltac:(lia))
    as (Vc & HVc & Hcu & Hcl).
  { apply below_pow_1100. literal (2 ^ 300). lia. }
  change (147 + 53) with 200 in HVc. fold (auto_ceiling n) in HVc.
  literal (2 ^ 52).
  exists Vc. split; [exact HVc | lia].
Qed.

End AutoCeiling.

(** X18. When both start-up queries answer and the second answer reads as
    an integer [n] with [0 < n < 2^40], [update_variables] logs six lines
    and returns with [VRAM_TOTAL = n] and the float [n * .9] as the
    ceiling.  That float separates the integers as nine tenths of [n] do:
    an integer [k] with [10 * k < 9 * n] compares below it, one with
    [9 * n < 10 * k] above it. *)
Theorem autodetect_sets_nine_tenths (cfg : config) (w : world)
    (name text : string) (n : Z) :
  name_q w = QOutput name -> total_q w = QOutput text ->
  int_of_str (strip text) = Some n -> 0 < n < 2 ^ 40 ->
  update_variables cfg w
  = ([LogMess 0 MAttempt; LogMess 1 (MDetectedGPU (strip name));
      LogMess 1 (MDetectedVRAM n);
      LogMess 1 (MMaxUsageSet (PyFloat (auto_ceiling n)));
      LogMess 1 (MUpdateEvery WAITTIME); LogMess 1 (MMaxTemp MAX_TEMP)],
     Ok (auto_config n))
  /\ forall k,
       (10 * k < 9 * n -> ltb (PyInt k) (MAX_VRAM_USAGE (auto_config n)) = true)
       /\ (9 * n < 10 * k -> gtb (PyInt k) (MAX_VRAM_USAGE (auto_config n)) = true).
Proof.
  intros Hname Htotal Hint Hn. split.
  - apply (AutoLoop.update_variables_auto cfg w name text n Hname Htotal Hint).
    destruct Hn as [Hlo Hhi]. split; [lia |].
    apply Z.lt_trans with (2 ^ 40); [exact Hhi | lia].
  - intro k. destruct (AutoCeiling.auto_ceiling_worth n Hn) as (Vc & HVc & Hb).
    unfold ltb, gtb, compare_num, auto_config, MAX_VRAM_USAGE.
    rewrite (FloatOps.compare_int_float_worth 200 _ Vc k HVc ltac:(lia)).
    assert (HX : 0 < 2 ^ 200) by (apply Z.pow_pos_nonneg; lia).
    split; intro Hk.
    + assert (10 * k * 2 ^ 200 <= (9 * n - 1) * 2 ^ 200)
        by (apply Z.mul_le_mono_nonneg_r; lia).
      destruct (Z.compare_spec (k * 2 ^ 200) Vc); try reflexivity; lia.
    + assert ((9 * n + 1) * 2 ^ 200 <= 10 * k * 2 ^ 200)
        by (apply Z.mul_le_mono_nonneg_r; lia).
      destruct (Z.compare_spec (k * 2 ^ 200) Vc); try reflexivity; lia.
Qed.

(** X19. After auto-detection of a capacity [n] with [24 <= n < 2^40], no
    alert is raised for as long as every sample [u] read stays below nine
    tenths of the capacity plus 80 ([10 * u < 9 * n + 800]): the run raises
    no alert at all and leaves the threshold where it started, at
    [n * .9 - 20]. *)
Theorem auto_mode_silent_below_limit (w : world) (name text : string) (n : Z) :
  name_q w = QOutput name -> total_q w = QOutput text ->
  int_of_str (strip text) = Some n -> 24 <= n < 2 ^ 40 ->
  Forall (below_auto_limit n) (ticks w) ->
  alerts (trace (main true w)) = []
  /\ outcome_of (main true w) = Ok (initial_threshold (auto_config n)).
Proof.
  intros Hname Htotal Hint Hn Hq. unfold main.
  rewrite (AutoLoop.update_variables_auto default_config w name text n Hname Htotal Hint
             (AutoLoop.capacity_below_2_53 n Hn)).
  rewrite trace_bind, outcome_bind. unfold start_monitoring.
  destruct (AutoLoop.auto_loop_quiet n (ticks w) [] Hn Hq) as [Ha Ho].
  rewrite app_nil_r in Ha, Ho.
  unfold trace, outcome_of in *. cbn [fst snd] in *.
  rewrite alerts_app, Ha, Ho. split; reflexivity.
Qed.

(** X20. After auto-detection of a capacity [n] with [24 <= n < 2^40], the
    first sample [u] above nine tenths of the capacity plus 80
    ([9 * n + 800 < 10 * u]), coming after samples that all stayed below,
    raises the first and only alert of the run: one console line and one
    call of [notify-send] with the warning for [u], and the threshold moves
    up by one [THRESHOLD]. *)
Theorem auto_mode_first_warning (w : world) (name text : string) (n : Z)
    (quiet : list tick_input) (i : tick_input) (u : Z) :
  name_q w = QOutput name -> total_q w = QOutput text ->
  int_of_str (strip text) = Some n -> 24 <= n < 2 ^ 40 ->
  ticks w = quiet ++ [i] -> Forall (below_auto_limit n) quiet ->
  sound i -> usage_of i = Some u -> 9 * n + 800 < 10 * u ->
  exists pct,
    percent u n = inr pct
    /\ alerts (trace (main true w))
       = [Print ("Warning! " ++ warning_text u n pct)%string;
          RunNotifySend (warning_text u n pct)]
    /\ outcome_of (main true w)
       = Ok (add_int (initial_threshold (auto_config n)) THRESHOLD).
Proof.
  intros Hname Htotal Hint Hn Hticks Hq ((u' & Hu' & Hbig) & (g & Hg) & Hnot) Hu Hlim.
  assert (u' = u) by congruence. subst u'.
  pose proof (usage_of_nonneg i u Hu) as Hnn.
  destruct (FloatBounds.percent_total u n ltac:(lia) ltac:(lia)) as (pct & Hp & _).
  exists pct. split; [exact Hp |]. unfold main.
  rewrite (AutoLoop.update_variables_auto default_config w name text n Hname Htotal Hint
             (AutoLoop.capacity_below_2_53 n Hn)).
  rewrite trace_bind, outcome_bind. unfold start_monitoring. rewrite Hticks.
  destruct (AutoLoop.auto_loop_quiet n quiet [i] Hn Hq) as [Ha Ho].
  unfold trace, outcome_of in *. cbn [fst snd] in *.
  rewrite alerts_app, Ha, Ho. cbn [monitor_loop].
  rewrite (tick_sampled _ _ i u g Hu Hg), fire_check_cases,
    (AutoLoop.auto_rearm_idle n u Hn).
  destruct (AutoLoop.auto_fire_test n u Hn) as [_ Hf]. rewrite (Hf Hlim).
  cbn [VRAM_TOTAL auto_config]. rewrite Hp. cbv zeta.
  unfold bind, ret, trace, outcome_of. cbn [fst snd].
  destruct (notify_r i); try contradiction; split; reflexivity.
Qed.

Lemma autodetect_sets_nine_tenths_witness :
  ltb (PyInt 7372) (MAX_VRAM_USAGE (auto_config 8192)) = true
  /\ gtb (PyInt 7373) (MAX_VRAM_USAGE (auto_config 8192)) = true.
Proof.
  pose proof (autodetect_sets_nine_tenths default_config
                {| name_q := QOutput "NVIDIA GeForce"; total_q := QOutput "8192";
                   ticks := [] |}
                "NVIDIA GeForce" "8192" 8192 eq_refl eq_refl eq_refl ltac:(lia))
    as [_ H].
  split; [apply (H 7372) | apply (H 7373)]; lia.
Defined.

Lemma auto_mode_silent_below_limit_witness :
  alerts (trace (main true
                   {| name_q := QOutput "NVIDIA GeForce"; total_q := QOutput "8192";
                      ticks := [healthy 7000 60; healthy 7452 61] |})) = []
  /\ outcome_of (main true
                   {| name_q := QOutput "NVIDIA GeForce"; total_q := QOutput "8192";
                      ticks := [healthy 7000 60; healthy 7452 61] |})
     = Ok (initial_threshold (auto_config 8192)).
Proof.
  apply (auto_mode_silent_below_limit _ "NVIDIA GeForce" "8192" 8192);
    [reflexivity | reflexivity | reflexivity | lia |].
  each_input ltac:(eexists; eexists;
                   split; [vm_compute; reflexivity
                          | split; [vm_compute; reflexivity | lia]]).
Defined.

Lemma auto_mode_first_warning_witness :
  exists pct,
    percent 7453 8192 = inr pct
    /\ alerts (trace (main true
                        {| name_q := QOutput "NVIDIA GeForce"; total_q := QOutput "8192";
                           ticks := [healthy 7000 60] ++ [healthy 7453 61] |}))
       = [Print ("Warning! " ++ warning_text 7453 8192 pct)%string;
          RunNotifySend (warning_text 7453 8192 pct)]
    /\ outcome_of (main true
                     {| name_q := QOutput "NVIDIA GeForce"; total_q := QOutput "8192";
                        ticks := [healthy 7000 60] ++ [healthy 7453 61] |})
       = Ok (add_int (initial_threshold (auto_config 8192)) THRESHOLD).
Proof.
  apply (auto_mode_first_warning _ "NVIDIA GeForce" "8192" 8192
           [healthy 7000 60] (healthy 7453 61) 7453);
    [reflexivity | reflexivity | reflexivity | lia | reflexivity | | |
     vm_compute; reflexivity | lia].
  - each_input ltac:(eexists; eexists;
                     split; [vm_compute; reflexivity
                            | split; [vm_compute; reflexivity | lia]]).
  - split; [| split];
      [eexists; split; [vm_compute; reflexivity | vm_compute; reflexivity]
      | eexists; vm_compute; reflexivity
      | discriminate].
Defined.

(** * Thresholds of either kind

    The two checks of the loop body on integer and on float thresholds. *)

(** ** Values that round to themselves *)

Module Exactness.
Import FloatBounds Rounding FloatValue.

(** Shifting out zeros leaves no trace in the rounding bits. *)
Lemma iter_shr_1_exact (n : positive) :
  forall k, 0 <= k ->
    iter_pos shr_1 n (Build_shr_record (k * 2 ^ Zpos n) false false)
    = Build_shr_record k false false.
Proof.
  assert (Hone : forall k, 0 <= k ->
            shr_1 (Build_shr_record (k * 2) false false) = Build_shr_record k false false).
  { intros k Hk. rewrite Z.mul_comm. destruct k as [| p | p]; try lia; reflexivity. }
  induction n as [n IH | n IH |]; intros k Hk.
  - replace (k * 2 ^ Zpos n~1) with (k * 2 ^ Zpos n * 2 ^ Zpos n * 2).
    + assert (H0 : 0 < 2 ^ Zpos n) by (apply Z.pow_pos_nonneg; lia).
      cbn [iter_pos]. rewrite Hone by (repeat apply Z.mul_nonneg_nonneg; lia).
      rewrite IH by (apply Z.mul_nonneg_nonneg; lia).
      now rewrite IH.
    + replace (Zpos n~1) with (1 + Zpos n + Zpos n) by lia.
      rewrite !Z.pow_add_r by lia. change (2 ^ 1) with 2. ring.
  - replace (k * 2 ^ Zpos n~0) with (k * 2 ^ Zpos n * 2 ^ Zpos n).
    + assert (H0 : 0 < 2 ^ Zpos n) by (apply Z.pow_pos_nonneg; lia).
      cbn [iter_pos]. rewrite IH by (apply Z.mul_nonneg_nonneg; lia).
      now rewrite IH.
    + replace (Zpos n~0) with (Zpos n + Zpos n) by lia.
      rewrite Z.pow_add_r by lia. ring.
  - change (2 ^ 1) with 2. cbn [iter_pos]. now apply Hone.
Qed.

(** The first truncation of a value that fits in 53 bits is exact. *)
Lemma shr_fexp_exact (k j e : Z) :
  0 < k < 2 ^ 53 -> 0 <= j -> -1021 <= Zdigits2 (k * 2 ^ j) + e ->
  exists q N,
    0 <= N <= j
    /\ q * 2 ^ N = k * 2 ^ j
    /\ 0 < q < 2 ^ 53
    /\ (2 ^ 52 <= k * 2 ^ j -> 2 ^ 52 <= q)
    /\ shr_fexp prec emax (k * 2 ^ j) e loc_Exact
       = (Build_shr_record q false false, e + N).
Proof.
  intros [Hk Hk53] Hj Hrange.
  assert (Hpj : 0 < 2 ^ j) by (apply Z.pow_pos_nonneg; lia).
  remember (k * 2 ^ j) as m eqn:Hmdef.
  assert (Hm : 0 < m) by (subst m; apply Z.mul_pos_pos; lia).
  pose proof (digits_bounds m Hm) as [Hdl Hdh].
  pose proof (digits_pos m Hm) as Hd1.
  assert (Hdj : Zdigits2 m <= 53 + j).
  { apply digits_upper; [exact Hm | lia |]. subst m.
    rewrite Z.pow_add_r by lia. apply Z.mul_lt_mono_pos_r; lia. }
  assert (Hsmall : Zdigits2 m <= 53 -> m < 2 ^ 53).
  { intro H. apply Z.lt_le_trans with (2 ^ Zdigits2 m); [exact Hdh |].
    apply Z.pow_le_mono_r; lia. }
  unfold shr_fexp, fexp, emin, prec, emax.
  replace (Z.max (Zdigits2 m + e - 53) (3 - 1024 - 53) - e)
    with (Zdigits2 m - 53) by lia.
  destruct (Zdigits2 m - 53) as [| n | n] eqn:Hn; cbn [shr shr_record_of_loc].
  - exists m, 0. change (2 ^ 0) with 1. rewrite Z.add_0_r.
    specialize (Hsmall ltac:(lia)). repeat split; try lia.
  - assert (Hnj : Zpos n <= j) by lia.
    assert (Hpn : 0 < 2 ^ Zpos n) by (apply Z.pow_pos_nonneg; lia).
    assert (Hfact : m = k * 2 ^ (j - Zpos n) * 2 ^ Zpos n).
    { rewrite Hmdef, <- Z.mul_assoc, <- Z.pow_add_r by lia. do 2 f_equal. lia. }
    remember (k * 2 ^ (j - Zpos n)) as q eqn:Hqdef.
    assert (Hq : 0 < q).
    { subst q. apply Z.mul_pos_pos; [lia | apply Z.pow_pos_nonneg; lia]. }
    assert (Hq53 : q < 2 ^ 53).
    { assert (Hsplit : 2 ^ Zdigits2 m = 2 ^ 53 * 2 ^ Zpos n)
        by (rewrite <- Z.pow_add_r by lia; f_equal; lia).
      apply (Z.mul_lt_mono_pos_r (2 ^ Zpos n)); lia. }
    assert (Hq52 : 2 ^ 52 <= q).
    { assert (Hsplit : 2 ^ (Zdigits2 m - 1) = 2 ^ 52 * 2 ^ Zpos n)
        by (rewrite <- Z.pow_add_r by lia; f_equal; lia).
      apply (Z.mul_le_mono_pos_r _ _ (2 ^ Zpos n)); lia. }
    exists q, (Zpos n).
    split; [lia |]. split; [lia |]. split; [lia |]. split; [intros _; exact Hq52 |].
    rewrite Hfact, iter_shr_1_exact by lia. reflexivity.
  - exists m, 0. change (2 ^ 0) with 1. rewrite Z.add_0_r.
    specialize (Hsmall ltac:(lia)). repeat split; try lia.
Qed.

(** A value that fits in 53 bits is rounded to itself. *)
Lemma round_aux_exact (s : bool) (k j e : Z) :
  0 < k < 2 ^ 53 -> 0 <= j -> -1021 <= Zdigits2 (k * 2 ^ j) + e ->
  exists (m' : positive) (N : Z),
    0 <= N <= j
    /\ Zpos m' * 2 ^ N = k * 2 ^ j
    /\ Zpos m' < 2 ^ 53
    /\ (2 ^ 52 <= k * 2 ^ j -> 2 ^ 52 <= Zpos m')
    /\ binary_round_aux prec emax s (k * 2 ^ j) e loc_Exact
       = if e + N <=? emax - prec then S754_finite s m' (e + N)
         else S754_infinity s.
Proof.
  intros Hk Hj Hrange.
  destruct (shr_fexp_exact k j e Hk Hj Hrange)
    as (q & N & HN & Hval & Hq & Hq52 & Hshr).
  unfold binary_round_aux. rewrite Hshr.
  cbn [shr_m loc_of_shr_record round_nearest_even].
  assert (HpN : 0 < 2 ^ N) by (apply Z.pow_pos_nonneg; lia).
  assert (Hrange2 : -1021 <= Zdigits2 q + (e + N)).
  { pose proof (digits_bounds q ltac:(lia)) as [_ Hqh].
    pose proof (digits_pos q ltac:(lia)) as Hq1.
    pose proof (digits_upper (k * 2 ^ j) (Zdigits2 q + N) ltac:(lia) ltac:(lia)) as Hup.
    rewrite <- Hval in Hup at 1. rewrite Z.pow_add_r in Hup by lia.
    specialize (Hup ltac:(apply Z.mul_lt_mono_pos_r; lia)). lia. }
  destruct (shr_fexp_trunc q (e + N) loc_Exact ltac:(lia) Hrange2)
    as (n2 & _ & He2 & _ & _ & _ & _ & Hex2 & _).
  destruct (Hex2 ltac:(lia)) as [Hr2 ->].
  destruct (shr_fexp prec emax q (e + N) loc_Exact) as [r2 e2].
  cbn [fst snd] in *. subst r2 e2. cbn [shr_record_of_loc shr_m].
  destruct q as [| p |] eqn:Hp; try lia.
  exists p, N. rewrite Z.add_0_r. repeat split; try lia.
Qed.

End Exactness.

(** ** Rounding floats of either sign *)

Module SignedValue.
Import FloatBounds Rounding FloatValue FloatOps Exactness.

(** Rounding a mantissa of at least 53 bits, of either sign: the result is
    normal, within [2^-52] of itself from the exact value, and equal to it
    when that value fits in 53 bits. *)
Lemma round_aux_value (S : Z) (s : bool) (m : positive) (e : Z) :
  0 <= e + S -> 2 ^ 52 <= Zpos m ->
  -1021 <= Zdigits2 (Zpos m) + e <= 1000 ->
  exists (m' : positive) (e' : Z),
    binary_round_aux prec emax s (Zpos m) e loc_Exact = S754_finite s m' e'
    /\ 2 ^ 52 <= Zpos m' < 2 ^ 53
    /\ e <= e'
    /\ 2 ^ 52 * (Zpos m' * 2 ^ (e' + S) - Zpos m * 2 ^ (e + S))
       <= Zpos m' * 2 ^ (e' + S)
    /\ 2 ^ 52 * (Zpos m * 2 ^ (e + S) - Zpos m' * 2 ^ (e' + S))
       <= Zpos m' * 2 ^ (e' + S)
    /\ (forall k j, 0 <= j -> Zpos m = k * 2 ^ j -> k < 2 ^ 53 ->
        Zpos m' * 2 ^ (e' + S) = Zpos m * 2 ^ (e + S)).
Proof.
  intros He Hm [Hr1 Hr2].
  destruct (round_close s (Zpos m) e loc_Exact ltac:(lia) Hr1)
    as (m' & N & HN & Hu & Hl & H53 & H52 & Hex & Hres).
  specialize (H52 Hm).
  pose proof (digits_bounds (Zpos m) ltac:(lia)) as [Hdl Hdh].
  pose proof (digits_lower (Zpos m) 53 Hm ltac:(lia)) as Hd.
  set (d := Zdigits2 (Zpos m)) in *.
  assert (HP : 0 < 2 ^ N) by (apply Z.pow_pos_nonneg; lia).
  assert (HNd : N <= d - 52).
  { destruct (Z.le_gt_cases N (d - 52)) as [H | H]; [exact H | exfalso].
    assert (H1 : 2 ^ (d - 51) <= 2 ^ N) by (apply Z.pow_le_mono_r; lia).
    assert (H2 : 2 ^ d = 2 ^ 51 * 2 ^ (d - 51))
      by (rewrite <- Z.pow_add_r by lia; f_equal; lia).
    assert (H3 : (2 ^ 52 - 1) * 2 ^ N <= (Zpos m' - 1) * 2 ^ N)
      by (apply Z.mul_le_mono_nonneg_r; lia).
    assert (H4 : 0 < 2 ^ (d - 51)) by (apply Z.pow_pos_nonneg; lia).
    change (2 ^ 52) with 4503599627370496 in *.
    change (2 ^ 51) with 2251799813685248 in *. lia. }
  destruct (Z.leb_spec (e + N) (emax - prec)) as [_ | Hbad];
    [| unfold emax, prec in Hbad; lia].
  assert (HE : 0 < 2 ^ (e + S)) by (apply Z.pow_pos_nonneg; lia).
  assert (Hpow : 2 ^ (e + N + S) = 2 ^ N * 2 ^ (e + S)).
  { rewrite <- Z.pow_add_r by lia. f_equal. lia. }
  exists m', (e + N). split; [exact Hres |]. split; [lia |]. split; [lia |].
  rewrite Hpow.
  assert (H1 : Zpos m' * 2 ^ N * 2 ^ (e + S) <= (Zpos m + 2 ^ N) * 2 ^ (e + S))
    by (apply Z.mul_le_mono_nonneg_r; lia).
  assert (H2 : 2 ^ 52 * (2 ^ N * 2 ^ (e + S)) <= Zpos m' * (2 ^ N * 2 ^ (e + S)))
    by (apply Z.mul_le_mono_nonneg_r; [apply Z.mul_nonneg_nonneg |]; lia).
  assert (H3 : Zpos m * 2 ^ (e + S) <= (Zpos m' + 1) * 2 ^ N * 2 ^ (e + S))
    by (apply Z.mul_le_mono_nonneg_r; lia).
  split; [lia |]. split; [lia |].
  intros k j Hj Hk Hk53.
  assert (Hk0 : 0 < k).
  { destruct (Z.lt_ge_cases 0 k) as [H | H]; [exact H | exfalso].
    assert (k * 2 ^ j <= 0 * 2 ^ j)
      by (apply Z.mul_le_mono_nonneg_r; [apply Z.pow_nonneg |]; lia).
    lia. }
  destruct (round_aux_exact s k j e ltac:(lia) Hj ltac:(rewrite <- Hk; exact Hr1))
    as (m2 & N2 & HN2 & Hval & _ & _ & Hres2).
  rewrite <- Hk, Hres in Hres2.
  destruct (Z.leb_spec (e + N2) (emax - prec)); [| discriminate].
  injection Hres2 as Hmm Hee. subst m2. assert (N2 = N) by lia. subst N2.
  rewrite Z.mul_assoc, Hval, Hk. reflexivity.
Qed.

(** [binary_round] of either sign.  The mantissa is shifted left to 53
    bits first when it is shorter, which needs room below the exponent. *)
Lemma binary_round_value (S : Z) (s : bool) (p : positive) (e : Z) :
  0 <= e + S ->
  -1021 <= Zdigits2 (Zpos p) + e <= 1000 ->
  52 <= e + S \/ 2 ^ 52 <= Zpos p ->
  exists (m' : positive) (e' : Z),
    binary_round prec emax s p e = S754_finite s m' e'
    /\ 2 ^ 52 <= Zpos m' < 2 ^ 53
    /\ 0 <= e' + S
    /\ 2 ^ 52 * (Zpos m' * 2 ^ (e' + S) - Zpos p * 2 ^ (e + S))
       <= Zpos m' * 2 ^ (e' + S)
    /\ 2 ^ 52 * (Zpos p * 2 ^ (e + S) - Zpos m' * 2 ^ (e' + S))
       <= Zpos m' * 2 ^ (e' + S)
    /\ (forall k j, 0 <= j -> Zpos p = k * 2 ^ j -> k < 2 ^ 53 ->
        Zpos m' * 2 ^ (e' + S) = Zpos p * 2 ^ (e + S)).
Proof.
  intros He [Hr1 Hr2] Hroom. unfold binary_round.
  change (Zpos (digits2_pos p)) with (Zdigits2 (Zpos p)).
  pose proof (digits_bounds (Zpos p) ltac:(lia)) as [Hdl Hdh].
  pose proof (digits_pos (Zpos p) ltac:(lia)) as Hd1.
  set (d := Zdigits2 (Zpos p)) in *.
  assert (Hf : fexp prec emax (d + e) = d + e - 53)
    by (unfold fexp, emin, prec, emax; lia).
  rewrite Hf.
  destruct (Z.le_gt_cases 53 d) as [Hbig | Hsmall].
  - assert (Hs : shl_align p e (d + e - 53) = (p, e)).
    { unfold shl_align. destruct (d + e - 53 - e) eqn:Hx; try reflexivity; lia. }
    rewrite Hs.
    assert (H52 : 2 ^ 52 <= Zpos p).
    { apply Z.le_trans with (2 ^ (d - 1)); [apply Z.pow_le_mono_r; lia | exact Hdl]. }
    destruct (round_aux_value S s p e He H52 ltac:(fold d; lia))
      as (m' & e' & Hres & Hm' & Hee & Hu & Hl & Hex).
    exists m', e'. repeat split; try assumption; lia.
  - assert (Hroom' : 52 <= e + S).
    { destruct Hroom as [H | H]; [exact H | exfalso].
      assert (2 ^ d <= 2 ^ 52) by (apply Z.pow_le_mono_r; lia). lia. }
    destruct (shl_align_fst p e (d + e - 53) ltac:(lia)) as [Hm2 He2].
    destruct (shl_align p e (d + e - 53)) as [m2 e2]. cbn [fst snd] in *. subst e2.
    replace (e - (d + e - 53)) with (53 - d) in Hm2 by lia.
    assert (HP : 0 < 2 ^ (53 - d)) by (apply Z.pow_pos_nonneg; lia).
    assert (Hlo : 2 ^ 52 <= Zpos m2).
    { rewrite Hm2. replace 52 with ((d - 1) + (53 - d)) at 1 by lia.
      rewrite Z.pow_add_r by lia. apply Z.mul_le_mono_nonneg_r; lia. }
    assert (Hhi : Zpos m2 < 2 ^ 53).
    { rewrite Hm2. replace 53 with (d + (53 - d)) at 2 by lia.
      rewrite Z.pow_add_r by lia. apply Z.mul_lt_mono_pos_r; lia. }
    assert (Hd2 : Zdigits2 (Zpos m2) = 53).
    { apply Z.le_antisymm; [apply digits_upper | apply digits_lower]; lia. }
    destruct (round_aux_value S s m2 (d + e - 53) ltac:(lia) Hlo ltac:(lia))
      as (m' & e' & Hres & Hm' & Hee & _ & _ & Hex).
    specialize (Hex (Zpos m2) 0 ltac:(lia) ltac:(change (2 ^ 0) with 1; lia) Hhi).
    assert (HVP : Zpos m2 * 2 ^ (d + e - 53 + S) = Zpos p * 2 ^ (e + S)).
    { rewrite Hm2, <- Z.mul_assoc, <- Z.pow_add_r by lia. do 2 f_equal. lia. }
    rewrite HVP in Hex.
    assert (0 < Zpos p * 2 ^ (e + S))
      by (apply Z.mul_pos_pos; [lia | apply Z.pow_pos_nonneg; lia]).
    exists m', e'. split; [exact Hres |]. split; [exact Hm' |]. split; [lia |].
    rewrite Hex. repeat split; intros; lia.
Qed.

Lemma has_value_unique (S : Z) (f : spec_float) (V V' : Z) :
  has_value S f V -> has_value S f V' -> V = V'.
Proof.
  destruct f as [s | s | | s m e]; cbn [has_value]; try tauto; try congruence.
  intros (_ & _ & ->) (_ & _ & ->). reflexivity.
Qed.


(** [binary_normalize] of an integer mantissa of either sign. *)
Lemma normalize_value (S D ez P : Z) :
  0 <= ez + S -> 0 <= S <= 1000 ->
  D * 2 ^ (ez + S) = P -> Z.abs P < 2 ^ (900 + S) ->
  52 <= ez + S \/ 2 ^ 52 <= Z.abs D ->
  exists V,
    has_value S (binary_normalize prec emax D ez false) V
    /\ 2 ^ 52 * Z.abs (V - P) <= Z.abs V
    /\ (forall k j, 0 <= j -> Z.abs D = k * 2 ^ j -> k < 2 ^ 53 -> V = P).
Proof.
  intros He HS HP Hlt Hroom.
  assert (H0 : 0 < 2 ^ (ez + S)) by (apply Z.pow_pos_nonneg; lia).
  assert (H52 : 0 < 2 ^ 52) by (apply Z.pow_pos_nonneg; lia).
  destruct D as [| p | p]; unfold binary_normalize.
  - exists 0. cbn [has_value]. rewrite Z.mul_0_l in HP. subst P.
    repeat split; intros; lia.
  - assert (Hd : Zdigits2 (Zpos p) + ez <= 900).
    { apply (digits_hi (Zpos p) ez S 900); try lia. }
    pose proof (digits_pos (Zpos p) ltac:(lia)) as Hd1.
    destruct (binary_round_value S false p ez He ltac:(lia) ltac:(lia))
      as (m' & e' & -> & Hm' & He' & Hu & Hl & Hex).
    exists (Zpos m' * 2 ^ (e' + S)). cbn [has_value].
    assert (0 < Zpos m' * 2 ^ (e' + S))
      by (apply Z.mul_pos_pos; [lia | apply Z.pow_pos_nonneg; lia]).
    rewrite <- HP. split; [auto |]. split; [lia |].
    intros k j Hj Hk Hk53. apply (Hex k j Hj); [lia | exact Hk53].
  - assert (Hd : Zdigits2 (Zpos p) + ez <= 900).
    { apply (digits_hi (Zpos p) ez S 900); try lia. }
    pose proof (digits_pos (Zpos p) ltac:(lia)) as Hd1.
    destruct (binary_round_value S true p ez He ltac:(lia) ltac:(lia))
      as (m' & e' & -> & Hm' & He' & Hu & Hl & Hex).
    exists (- Zpos m' * 2 ^ (e' + S)). cbn [has_value].
    assert (0 < Zpos m' * 2 ^ (e' + S))
      by (apply Z.mul_pos_pos; [lia | apply Z.pow_pos_nonneg; lia]).
    rewrite <- HP. split; [auto |]. split; [lia |].
    intros k j Hj Hk Hk53.
    specialize (Hex k j Hj ltac:(lia) Hk53). lia.
Qed.

End SignedValue.

Module SignedOps.
Import FloatBounds Rounding FloatValue FloatOps Exactness SignedValue.

Lemma float_of_Z_value (S n : Z) :
  52 <= S <= 1000 -> Z.abs n < 2 ^ 53 -> has_value S (float_of_Z n) (n * 2 ^ S).
Proof.
  intros HS Hn. unfold float_of_Z.
  assert (HS0 : 0 < 2 ^ S) by (apply Z.pow_pos_nonneg; lia).
  assert (Hb : Z.abs (n * 2 ^ S) < 2 ^ (900 + S)).
  { assert (Z.abs n * 2 ^ S < 2 ^ 53 * 2 ^ S) by (apply Z.mul_lt_mono_pos_r; lia).
    assert (2 ^ 53 * 2 ^ S <= 2 ^ (900 + S)).
    { rewrite <- Z.pow_add_r by lia. apply Z.pow_le_mono_r; lia. }
    rewrite Z.abs_mul, (Z.abs_eq (2 ^ S)) by lia. lia. }
  destruct (normalize_value S n 0 (n * 2 ^ S) ltac:(lia) ltac:(lia) eq_refl Hb
              ltac:(lia)) as (V & HV & _ & Hex).
  rewrite (Hex (Z.abs n) 0) in HV; try lia. exact HV.
Qed.


Lemma signed_product (sx sy : bool) (a b : Z) :
  (if sx then - a else a) * (if sy then - b else b)
  = (if xorb sx sy then - (a * b) else a * b).
Proof. destruct sx, sy; cbn [xorb]; ring. Qed.


Lemma has_value_exp (S : Z) (s : bool) (m : positive) (e V : Z) :
  has_value S (S754_finite s m e) V -> 0 <= S -> 2 ^ (S - 1) <= Z.abs V -> -53 <= e.
Proof.
  cbn [has_value]. intros (Hm & He & ->) HS Hlo.
  assert (H0 : 0 < 2 ^ (e + S)) by (apply Z.pow_pos_nonneg; lia).
  assert (Habs : Z.abs ((if s then - Zpos m else Zpos m) * 2 ^ (e + S))
                 = Zpos m * 2 ^ (e + S)).
  { rewrite Z.abs_mul, (Z.abs_eq (2 ^ (e + S))) by lia. destruct s; f_equal; lia. }
  rewrite Habs in Hlo.
  pose proof (exp_lower (Zpos m) e S (-1) ltac:(lia) He
                ltac:(replace (-1 + S) with (S - 1) by lia; exact Hlo)).
  lia.
Qed.

(** The aligned sum or difference of [x] and a float [y] of magnitude at
    least one half leaves room for normalisation. *)
Lemma aligned_room (S : Z) (sx sy : bool) (mx my : positive) (ex ey : Z) (sub : bool) :
  106 <= S -> 2 ^ 52 <= Zpos mx < 2 ^ 53 -> 2 ^ 52 <= Zpos my < 2 ^ 53 ->
  0 <= ex + S -> -53 <= ey ->
  let ez := Z.min ex ey in
  let a := cond_Zopp sx (Zpos (fst (shl_align mx ex ez))) in
  let b := cond_Zopp sy (Zpos (fst (shl_align my ey ez))) in
  52 <= ez + S \/ 2 ^ 52 <= Z.abs (if sub then a - b else a + b).
Proof.
  intros HS Hmx Hmy Hex Hey ez a b.
  destruct (Z.le_gt_cases (ey - 1) ex) as [Hnear | Hfar]; [left; unfold ez; lia |].
  right. subst a b. unfold ez.
  replace (Z.min ex ey) with ex by lia.
  destruct (shl_align_fst mx ex ex ltac:(lia)) as [-> _].
  destruct (shl_align_fst my ey ex ltac:(lia)) as [-> _].
  replace (ex - ex) with 0 by lia. change (2 ^ 0) with 1.
  assert (H4 : 2 ^ 2 <= 2 ^ (ey - ex)) by (apply Z.pow_le_mono_r; lia).
  change (2 ^ 2) with 4 in H4.
  assert (Hb : 2 ^ 52 * 4 <= Zpos my * 2 ^ (ey - ex))
    by (apply Z.mul_le_mono_nonneg; lia).
  change (2 ^ 52) with 4503599627370496 in *.
  change (2 ^ 53) with 9007199254740992 in *.
  unfold cond_Zopp. destruct sub, sx, sy; lia.
Qed.

Lemma aligned_signed (S : Z) (s : bool) (m : positive) (e ez : Z) :
  ez <= e -> 0 <= ez + S ->
  cond_Zopp s (Zpos (fst (shl_align m e ez))) * 2 ^ (ez + S)
  = (if s then - Zpos m else Zpos m) * 2 ^ (e + S).
Proof.
  intros Hle He. pose proof (aligned_value m e ez S Hle He) as H.
  unfold cond_Zopp. destruct s; lia.
Qed.

(** Sum with a float of magnitude at least one half. *)
Lemma SFadd_value (S : Z) (x y : spec_float) (Vx Vy : Z) :
  106 <= S <= 1000 -> has_value S x Vx -> has_value S y Vy ->
  2 ^ (S - 1) <= Z.abs Vy -> Z.abs (Vx + Vy) < 2 ^ (900 + S) ->
  exists V,
    has_value S (SFadd prec emax x y) V
    /\ 2 ^ 52 * Z.abs (V - (Vx + Vy)) <= Z.abs V.
Proof.
  intros HS Hx Hy Hbig Hlt.
  assert (HS1 : 0 < 2 ^ (S - 1)) by (apply Z.pow_pos_nonneg; lia).
  destruct y as [sy | sy | | sy my ey]; cbn [has_value] in Hy; try tauto; [lia |].
  pose proof (has_value_exp S sy my ey Vy Hy ltac:(lia) Hbig) as Hey.
  destruct x as [sx | sx | | sx mx ex]; cbn [has_value] in Hx; try tauto.
  - subst Vx. exists Vy. cbn [SFadd]. split; [exact Hy |].
    replace (Vy - (0 + Vy)) with 0 by lia. cbn [Z.abs]. lia.
  - destruct Hx as (Hmx & Hex & HVx). destruct Hy as (Hmy & Hey' & HVy).
    unfold SFadd. cbv zeta.
    pose proof (aligned_room S sx sy mx my ex ey false ltac:(lia) Hmx Hmy Hex Hey)
      as Hroom. cbv zeta in Hroom.
    pose proof (aligned_signed S sx mx ex (Z.min ex ey) ltac:(lia) ltac:(lia)) as Hax.
    pose proof (aligned_signed S sy my ey (Z.min ex ey) ltac:(lia) ltac:(lia)) as Hay.
    destruct (normalize_value S
                (cond_Zopp sx (Zpos (fst (shl_align mx ex (Z.min ex ey))))
                 + cond_Zopp sy (Zpos (fst (shl_align my ey (Z.min ex ey)))))
                (Z.min ex ey) (Vx + Vy)) as (V & HV & Hrel & _); try lia.
    exists V. auto.
Qed.


End SignedOps.

Module SignedCompare.
Import FloatBounds Rounding FloatValue FloatOps Exactness SignedValue SignedOps.


Lemma canon_order (m1 m2 : positive) (e1 e2 S : Z) :
  2 ^ 52 <= Zpos m1 < 2 ^ 53 -> 2 ^ 52 <= Zpos m2 < 2 ^ 53 ->
  0 <= e1 + S -> e1 < e2 ->
  Zpos m1 * 2 ^ (e1 + S) < Zpos m2 * 2 ^ (e2 + S).
Proof.
  intros H1 H2 He Hlt.
  assert (Hp1 : 0 < 2 ^ (e1 + S)) by (apply Z.pow_pos_nonneg; lia).
  assert (Hsplit : 2 ^ (e2 + S) = 2 ^ (e2 - e1) * 2 ^ (e1 + S))
    by (rewrite <- Z.pow_add_r by lia; f_equal; lia).
  assert (Hd : 2 ^ 1 <= 2 ^ (e2 - e1)) by (apply Z.pow_le_mono_r; lia).
  change (2 ^ 1) with 2 in Hd.
  assert (Ha : Zpos m1 * 2 ^ (e1 + S) < 2 ^ 53 * 2 ^ (e1 + S))
    by (apply Z.mul_lt_mono_pos_r; lia).
  assert (Hb : 2 * 2 ^ (e1 + S) <= 2 ^ (e2 - e1) * 2 ^ (e1 + S))
    by (apply Z.mul_le_mono_nonneg_r; lia).
  assert (Hc : 2 ^ 52 * 2 ^ (e2 + S) <= Zpos m2 * 2 ^ (e2 + S))
    by (apply Z.mul_le_mono_nonneg_r; [apply Z.pow_nonneg |]; lia).
  change (2 ^ 52) with 4503599627370496 in *.
  change (2 ^ 53) with 9007199254740992 in *. lia.
Qed.

Lemma same_exp_compare (m1 m2 : positive) (A : Z) :
  0 < A -> (Zpos m1 * A ?= Zpos m2 * A) = Pos.compare_cont Eq m1 m2.
Proof.
  intro HA. change (Pos.compare_cont Eq m1 m2) with (Zpos m1 ?= Zpos m2).
  symmetry. apply Zmult_compare_compat_r. lia.
Qed.

Lemma compare_opp (a b : Z) : (- a ?= - b) = CompOpp (a ?= b).
Proof. rewrite Z.compare_opp. apply Z.compare_antisym. Qed.

(** Two normal or zero floats compare as their values do. *)
Lemma SFcompare_value (S : Z) (x y : spec_float) (Vx Vy : Z) :
  has_value S x Vx -> has_value S y Vy -> SFcompare x y = Some (Vx ?= Vy).
Proof.
  destruct x as [sx | sx | | sx mx ex]; cbn [has_value]; try tauto;
    destruct y as [sy | sy | | sy my ey]; cbn [has_value]; try tauto.
  - intros -> ->. reflexivity.
  - intros -> (Hm & He & ->). cbn [SFcompare]. f_equal. symmetry.
    assert (0 < Zpos my * 2 ^ (ey + S))
      by (apply Z.mul_pos_pos; [lia | apply Z.pow_pos_nonneg; lia]).
    destruct sy; [apply Z.compare_gt_iff | apply Z.compare_lt_iff]; lia.
  - intros (Hm & He & ->) ->. cbn [SFcompare]. f_equal. symmetry.
    assert (0 < Zpos mx * 2 ^ (ex + S))
      by (apply Z.mul_pos_pos; [lia | apply Z.pow_pos_nonneg; lia]).
    destruct sx; [apply Z.compare_lt_iff | apply Z.compare_gt_iff]; lia.
  - intros (Hmx & Hex & ->) (Hmy & Hey & ->). cbn [SFcompare]. f_equal. symmetry.
    assert (Hpx : 0 < 2 ^ (ex + S)) by (apply Z.pow_pos_nonneg; lia).
    assert (Hpy : 0 < 2 ^ (ey + S)) by (apply Z.pow_pos_nonneg; lia).
    assert (Hx : 0 < Zpos mx * 2 ^ (ex + S)) by (apply Z.mul_pos_pos; lia).
    assert (Hy : 0 < Zpos my * 2 ^ (ey + S)) by (apply Z.mul_pos_pos; lia).
    destruct sx, sy.
    + rewrite !Z.mul_opp_l, compare_opp.
      destruct (Z.compare_spec ex ey) as [Heq | Hl | Hg].
      * subst ey. now rewrite same_exp_compare.
      * pose proof (canon_order mx my ex ey S Hmx Hmy Hex Hl) as Hlt.
        apply Z.compare_lt_iff in Hlt. now rewrite Hlt.
      * pose proof (canon_order my mx ey ex S Hmy Hmx Hey ltac:(lia)) as Hlt.
        apply Z.compare_gt_iff in Hlt. now rewrite Hlt.
    + apply Z.compare_lt_iff. lia.
    + apply Z.compare_gt_iff. lia.
    + destruct (Z.compare_spec ex ey) as [Heq | Hl | Hg].
      * subst ey. now rewrite same_exp_compare.
      * pose proof (canon_order mx my ex ey S Hmx Hmy Hex Hl) as Hlt.
        now apply Z.compare_lt_iff.
      * pose proof (canon_order my mx ey ex S Hmy Hmx Hey ltac:(lia)) as Hlt.
        now apply Z.compare_gt_iff.
Qed.

(** An integer compares with a normal or zero float as with its value. *)
Lemma compare_int_float_value (S : Z) (f : spec_float) (V u : Z) :
  has_value S f V -> 0 <= S -> compare_int_float u f = Some (u * 2 ^ S ?= V).
Proof.
  intros Hf HS.
  assert (HS0 : 0 < 2 ^ S) by (apply Z.pow_pos_nonneg; lia).
  destruct f as [s | s | | s m e]; cbn [has_value] in Hf; try tauto.
  - subst V. cbn [compare_int_float]. f_equal.
    rewrite (Zmult_compare_compat_r u 0 (2 ^ S)) by lia. reflexivity.
  - destruct Hf as (Hm & He & ->). unfold compare_int_float. f_equal.
    replace (if s then - Zpos m else Zpos m) with (if s then Zneg m else Zpos m)
      by (destruct s; reflexivity).
    set (v := if s then Zneg m else Zpos m).
    destruct (Z.leb_spec 0 e) as [Hpos | Hneg].
    + rewrite (Zmult_compare_compat_r u (v * 2 ^ e) (2 ^ S)) by lia.
      f_equal. rewrite <- Z.mul_assoc, <- Z.pow_add_r by lia. reflexivity.
    + assert (Hp : 0 < 2 ^ (e + S)) by (apply Z.pow_pos_nonneg; lia).
      rewrite (Zmult_compare_compat_r (u * 2 ^ (- e)) v (2 ^ (e + S))) by lia.
      f_equal. rewrite <- Z.mul_assoc, <- Z.pow_add_r by lia. do 2 f_equal. lia.
Qed.

End SignedCompare.

(** ** The two checks on float thresholds *)

Module FloatThreshold.
Import FloatBounds Rounding FloatValue FloatOps Exactness SignedValue SignedOps
  SignedCompare.

Ltac literal t := let v := eval vm_compute in t in change t with v in *.

Lemma hundred_value : has_value 200 (float_of_Z THRESHOLD) (100 * 2 ^ 200).
Proof. apply (float_of_Z_value 200 100); lia. Qed.


Lemma below_2_1100 (V : Z) : Z.abs V < 2 ^ 1001 -> Z.abs V < 2 ^ (900 + 200).
Proof.
  intro H. apply Z.lt_trans with (2 ^ 1001); [exact H |].
  apply Z.pow_lt_mono_r; lia.
Qed.

Lemma gtb_int_float (u : Z) (f : spec_float) (V : Z) :
  has_value 200 f V -> gtb (PyInt u) (PyFloat f) = (V <? u * 2 ^ 200).
Proof.
  intro Hf. unfold gtb, compare_num.
  rewrite (compare_int_float_value 200 f V u Hf ltac:(lia)).
  unfold Z.ltb. rewrite (Z.compare_antisym (u * 2 ^ 200) V).
  now destruct (u * 2 ^ 200 ?= V).
Qed.



Lemma ltb_float_float (f g : spec_float) (V W : Z) :
  has_value 200 f V -> has_value 200 g W ->
  ltb (PyFloat f) (PyFloat g) = (V <? W).
Proof.
  intros Hf Hg. unfold ltb, compare_num.
  rewrite (SFcompare_value 200 f g V W Hf Hg).
  unfold Z.ltb. now destruct (V ?= W).
Qed.

(** [last_warning_vram + THRESHOLD] on a float: the sum, rounded once. *)
Lemma add_threshold_value (f : spec_float) (V : Z) :
  has_value 200 f V -> Z.abs V < 2 ^ 1000 ->
  exists V',
    has_value 200 (SFadd prec emax f (float_of_Z THRESHOLD)) V'
    /\ 2 ^ 52 * Z.abs (V' - (V + 100 * 2 ^ 200)) <= Z.abs V'.
Proof.
  intros Hf Hlt.
  apply (SFadd_value 200 f _ V (100 * 2 ^ 200) ltac:(lia) Hf hundred_value).
  - literal (2 ^ (200 - 1)). literal (2 ^ 200). lia.
  - apply below_2_1100. literal (2 ^ 1000). literal (2 ^ 1001). literal (2 ^ 200). lia.
Qed.







End FloatThreshold.

(** ** The first check: lowering the threshold *)




(** ** The second check: warning and raising the threshold *)

(** C5 (as stated, refuted). For 3901 MiB of 8192 the warning carries 47,
    the truncated quotient, where rounding gives 48.  After auto-detection
    of 9101 MiB the threshold is a float and the first warning raises it by
    [100 + 2^-40], not by exactly one step.  With a capacity of 0 a sample
    above the threshold raises no alert: the process ends with
    [ZeroDivisionError].  With [notify-send] missing the warning is printed
    and the process ends with [FileNotFoundError]. *)
Lemma fire_check_not_as_claimed :
  (fire_check (int_config 3800 8192) (PyInt 3780) 3901 NDelivered
   = ([Print "Warning! VRAM usage critical! 3901/8192Mib, (47%)";
       RunNotifySend "VRAM usage critical! 3901/8192Mib, (47%)"],
      Ok (PyInt 3880))
   /\ percent 3901 8192 = inr 47
   /\ spec_percentage 3901 8192 = 48)
  /\ (initial_threshold (auto_config 9101)
      = PyFloat (S754_finite false 8983999559394919 (-40))
      /\ outcome_of (fire_check (auto_config 9101) (initial_threshold (auto_config 9101))
                       9000 NDelivered)
         = Ok (PyFloat (S754_finite false 4546975361086260 (-39)))
      /\ 4546975361086260 * 2 - 8983999559394919 = THRESHOLD * 2 ^ 40 + 1)
  /\ fire_check {| MAX_VRAM_USAGE := PyInt 3800; VRAM_TOTAL := 0 |} (PyInt 3780)
       5000 NDelivered
     = ([], Stop (Uncaught ZeroDivisionError))
  /\ fire_check default_config (PyInt 3780) 3950 NFileNotFound
     = ([Print "Warning! VRAM usage critical! 3950/2048Mib, (192%)";
         RunNotifySend "VRAM usage critical! 3950/2048Mib, (192%)"],
        Stop (Uncaught FileNotFoundError)).
Proof.
  repeat split; vm_compute; reflexivity.
Qed.

(** C5 (amended). For every configuration and every threshold, integer or
    float: when [u > T + THRESHOLD], the sum and the comparison being those
    of Python, the second check warns with [u], the capacity and the
    percentage [int((u / capacity) * 100)] and leaves [T + THRESHOLD]; the
    process ends instead, before the warning when that percentage cannot be
    computed and after it is printed when [notify-send] is missing.
    Otherwise the check does nothing and leaves [T].  On an integer [t] the
    sum is [t + THRESHOLD] and the test is [t + THRESHOLD < u].  On a float
    that [has_value 200] describes (a zero, or a normal float of magnitude
    at least [2^-148]) and of magnitude below [2^800], the sum is a float
    within [2^-52] of itself from the exact sum, and the test compares its
    exact value with [u].
    The percentage is computed for every usage below [2^1000] and every
    positive capacity, and for a usage below [2^42] it is the exact
    percentage truncated, or one less. *)
Theorem fire_check_every_threshold :
  (forall cfg T u r,
      gtb (PyInt u) (add_int T THRESHOLD) = true ->
      match percent u (VRAM_TOTAL cfg) with
      | inr pct =>
          let text := warning_text u (VRAM_TOTAL cfg) pct in
          alerts (trace (fire_check cfg T u r))
          = [Print ("Warning! " ++ text)%string; RunNotifySend text]
          /\ outcome_of (fire_check cfg T u r)
             = match r with
               | NFileNotFound => Stop (Uncaught FileNotFoundError)
               | _ => Ok (add_int T THRESHOLD)
               end
      | inl e => fire_check cfg T u r = ([], Stop (Uncaught e))
      end)
  /\ (forall cfg T u r,
         gtb (PyInt u) (add_int T THRESHOLD) = false ->
         fire_check cfg T u r = ([], Ok T))
  /\ (forall t u,
         add_int (PyInt t) THRESHOLD = PyInt (t + THRESHOLD)
         /\ gtb (PyInt u) (add_int (PyInt t) THRESHOLD) = (t + THRESHOLD <? u))
  /\ (forall f V u,
         has_value 200 f V -> Z.abs V < 2 ^ 1000 ->
         exists f' V',
           add_int (PyFloat f) THRESHOLD = PyFloat f'
           /\ has_value 200 f' V'
           /\ 2 ^ 52 * Z.abs (V' - (V + THRESHOLD * 2 ^ 200)) <= Z.abs V'
           /\ gtb (PyInt u) (add_int (PyFloat f) THRESHOLD) = (V' <? u * 2 ^ 200))
  /\ (forall u capacity,
         0 <= u < 2 ^ 1000 -> 0 < capacity ->
         exists pct, percent u capacity = inr pct /\ 0 <= pct)
  /\ (forall u capacity pct,
         0 <= u < 2 ^ 42 -> 0 < capacity < 2 ^ 1000 ->
         percent u capacity = inr pct ->
         100 * u / capacity - 1 <= pct <= 100 * u / capacity).
Proof.
  split; [| split; [| split; [| split; [| split]]]].
  - intros cfg T u r Hgt. rewrite fire_check_cases, Hgt.
    destruct (percent u (VRAM_TOTAL cfg)) as [e | pct]; [reflexivity |].
    cbv zeta. unfold trace, outcome_of. cbn [fst snd]. split.
    + rewrite alerts_app. destruct r; reflexivity.
    + destruct r; reflexivity.
  - intros cfg T u r Hgt. now rewrite fire_check_cases, Hgt.
  - intros t u. cbn [add_int]. split; [reflexivity | apply gtb_int].
  - intros f V u Hf HV. change THRESHOLD with 100. cbn [add_int].
    destruct (FloatThreshold.add_threshold_value f V Hf HV) as (V' & HV' & Hrel).
    exists (SFadd prec emax f (float_of_Z 100)), V'.
    split; [reflexivity |]. split; [exact HV' |]. split; [exact Hrel |].
    exact (FloatThreshold.gtb_int_float u _ V' HV').
  - intros u capacity. apply FloatBounds.percent_total.
  - intros u capacity pct. apply PercentAccuracy.percent_within_one.
Qed.

Lemma fire_check_every_threshold_witness :
  (alerts (trace (fire_check (int_config 3800 8192) (PyInt 3780) 3950 NDelivered))
   = [Print "Warning! VRAM usage critical! 3950/8192Mib, (48%)";
      RunNotifySend "VRAM usage critical! 3950/8192Mib, (48%)"]
   /\ outcome_of (fire_check (int_config 3800 8192) (PyInt 3780) 3950 NDelivered)
      = Ok (PyInt 3880))
  /\ fire_check (int_config 3800 8192) (PyInt 3780) 3850 NDelivered
     = ([], Ok (PyInt 3780))
  /\ (exists f' V',
         add_int (PyFloat (S754_finite false 8983999559394919 (-40))) THRESHOLD
         = PyFloat f'
         /\ has_value 200 f' V'
         /\ 2 ^ 52 * Z.abs (V' - (8983999559394919 * 2 ^ 160 + THRESHOLD * 2 ^ 200))
            <= Z.abs V'
         /\ gtb (PyInt 9000)
              (add_int (PyFloat (S754_finite false 8983999559394919 (-40))) THRESHOLD)
            = (V' <? 9000 * 2 ^ 200))
  /\ 100 * 3901 / 8192 - 1 <= 47 <= 100 * 3901 / 8192.
Proof.
  pose proof fire_check_every_threshold as (Hfire & Hquiet & _ & Hfloat & _ & Hpct).
  split; [| split; [| split]].
  - pose proof (Hfire (int_config 3800 8192) (PyInt 3780) 3950 NDelivered eq_refl) as H.
    assert (Hp : percent 3950 8192 = inr 48) by (vm_compute; reflexivity).
    cbn [VRAM_TOTAL int_config] in H. rewrite Hp in H. exact H.
  - apply Hquiet. reflexivity.
  - apply Hfloat.
    + cbn [has_value]. split; [lia |]. split; [lia | reflexivity].
    + vm_compute. reflexivity.
  - apply (Hpct 3901 8192 47); [lia | | vm_compute; reflexivity].
    split; [lia | vm_compute; reflexivity].
Defined.
